(** * Rasa: the default recipe validator and the YAML training-data reader

    A shallow embedding of
    - [rasa/graph_components/validators/default_recipe_validator.py]
      (class [DefaultV1RecipeValidator]) and
    - [rasa/nlu/training_data/formats/rasa_yaml.py] (class [RasaYAMLReader]).

    Both classes are methods over a [self] object which emit advisories
    through [raise_warning] and may raise.  A method is a function from the
    object to a [Run]: the advisories emitted so far, the outcome (an
    exception or a value) and the object after the call. *)

From stdpp Require Import base decidable countable gmap strings list.
From Stdlib Require Import ZArith Lia.

#[local] Set Warnings "-register-all".

Local Open Scope Z_scope.
Local Open Scope string_scope.
Local Open Scope list_scope.

(** ** Methods: state, advisories and exceptions *)

Module Py.

(** The exceptions the two classes raise or let escape. *)
Inductive Exception :=
| InvalidConfigException
| InvalidDomain
| TypeError
| AttributeError
| KeyError
| YamlError.

#[global] Instance Exception_eq_dec : EqDecision Exception.
Proof. solve_decision. Defined.

Section Method.
Context {W S : Type}.

Record Run (A : Type) := MkRun {
  emitted : list W;
  outcome : Exception + A;
  final : S
}.
#[global] Arguments MkRun {A} _ _ _.
#[global] Arguments emitted {A} _.
#[global] Arguments outcome {A} _.
#[global] Arguments final {A} _.

Definition M (A : Type) : Type := S -> Run A.

Definition ret {A} (a : A) : M A := fun s => MkRun [] (inr a) s.

Definition bind {A B} (m : M A) (f : A -> M B) : M B := fun s =>
  let r := m s in
  match outcome r with
  | inl e => MkRun (emitted r) (inl e) (final r)
  | inr a =>
      let r' := f a (final r) in
      MkRun (emitted r ++ emitted r') (outcome r') (final r')
  end.

(** [self] and assignments to its attributes. *)
Definition get : M S := fun s => MkRun [] (inr s) s.
Definition put (s : S) : M unit := fun _ => MkRun [] (inr tt) s.
Definition modify (f : S -> S) : M unit := fun s => MkRun [] (inr tt) (f s).

(** [raise_warning]: logs the advisory and goes on. *)
Definition raise_warning (w : W) : M unit := fun s => MkRun [w] (inr tt) s.

(** The [raise] statement. *)
Definition raise {A} (e : Exception) : M A := fun s => MkRun [] (inl e) s.

(** A pure computation that may raise, run as a step of a method. *)
Definition lift {A} (r : Exception + A) : M A := fun s => MkRun [] r s.

(** [for x in l: body(x)] *)
Fixpoint for_each {A} (l : list A) (body : A -> M unit) : M unit :=
  match l with
  | [] => ret tt
  | x :: l' => bind (body x) (fun _ => for_each l' body)
  end.

Definition raised {A} (r : Run A) : option Exception :=
  match outcome r with inl e => Some e | inr _ => None end.

Definition returned {A} (r : Run A) : option A :=
  match outcome r with inl _ => None | inr a => Some a end.

(** A method that never assigns to [self]. *)
Definition read_only {A} (m : M A) : Prop := forall s, final (m s) = s.

(** A method that never raises. *)
Definition total {A} (m : M A) : Prop :=
  forall s, exists a, outcome (m s) = inr a.

(** Two methods that, run on objects related by [R], end alike: the same
    exception or the same value, and objects related by [R] again.  Their
    advisories may differ. *)
Definition agree {A} (R : S -> S -> Prop) (m1 m2 : M A) : Prop :=
  forall s1 s2, R s1 s2 ->
    outcome (m1 s1) = outcome (m2 s2) /\ R (final (m1 s1)) (final (m2 s2)).

(** A method all of whose advisories satisfy [P]. *)
Definition emits_only {A} (P : W -> Prop) (m : M A) : Prop :=
  forall s, Forall P (emitted (m s)).

End Method.

#[global] Arguments Run : clear implicits.
#[global] Arguments M : clear implicits.

Declare Scope py_scope.
Delimit Scope py_scope with py.
Notation "'do' x <- m ; k" := (bind m (fun x => k))
  (at level 10, x name, m at level 100, k at level 200,
   format "'[v' 'do'  x  <-  m ; '/' k ']'") : py_scope.
Notation "m ;; k" := (bind m (fun _ => k))
  (at level 100, k at level 200, right associativity,
   format "'[v' m  ;; '/' k ']'") : py_scope.

End Py.

Import Py.
Local Open Scope py_scope.

(** ** Python values found in component configurations *)

(** A configuration is a [dict] from keys to YAML-born values: [None],
    integers, strings and lists of values.  Booleans and floats, which
    Python compares equal to integers, are left out. *)
Inductive CVal :=
| VNone
| VInt (z : Z)
| VStr (s : string)
| VList (l : list CVal).

Fixpoint CVal_eqb (a b : CVal) : bool :=
  match a, b with
  | VNone, VNone => true
  | VInt x, VInt y => bool_decide (x = y)
  | VStr x, VStr y => bool_decide (x = y)
  | VList xs, VList ys =>
      (fix go (xs ys : list CVal) : bool :=
         match xs, ys with
         | [], [] => true
         | x :: xs', y :: ys' => CVal_eqb x y && go xs' ys'
         | _, _ => false
         end) xs ys
  | _, _ => false
  end.

(** [needle in hay] on two Python strings: substring test. *)
Fixpoint is_substring (needle hay : string) : bool :=
  String.prefix needle hay ||
  match hay with
  | EmptyString => false
  | String _ hay' => is_substring needle hay'
  end.

(** The characters of a string, each a string of length one, as [for c in s]
    yields them. *)
Fixpoint chars (s : string) : list string :=
  match s with
  | EmptyString => []
  | String c s' => String c EmptyString :: chars s'
  end.

(** [iter(v)]: lists and strings are iterable, [None] and integers are not. *)
Definition py_iter (v : CVal) : Exception + list CVal :=
  match v with
  | VList l => inr l
  | VStr s => inr (map VStr (chars s))
  | VNone | VInt _ => inl TypeError
  end.

(** [x in v]: element of a list, substring of a string. *)
Definition py_contains (x v : CVal) : Exception + bool :=
  match v with
  | VList l => inr (existsb (CVal_eqb x) l)
  | VStr s =>
      match x with
      | VStr n => inr (is_substring n s)
      | _ => inl TypeError
      end
  | VNone | VInt _ => inl TypeError
  end.

(** Lists are not hashable: they cannot be the key of a [dict]. *)
Definition hashable (v : CVal) : bool :=
  match v with
  | VList _ => false
  | _ => true
  end.

(** ** The recipe validator *)

Module Validator.

(** *** Data model *)

(** The component classes the validator names, and any other class. *)
Inductive ComponentType :=
| MitieEntityExtractorGraphComponent
| RegexEntityExtractorGraphComponent
| CRFEntityExtractorGraphComponent
| EntitySynonymMapperComponent
| RegexFeaturizerGraphComponent
| DIETClassifierGraphComponent
| ResponseSelectorGraphComponent
| RulePolicyGraphComponent
| MemoizationPolicyGraphComponent
| TEDPolicyGraphComponent
| OtherComponent (name : string).

#[global] Instance ComponentType_eq_dec : EqDecision ComponentType.
Proof. solve_decision. Defined.

Definition ComponentType_code (c : ComponentType) : nat + string :=
  match c with
  | MitieEntityExtractorGraphComponent => inl 0%nat
  | RegexEntityExtractorGraphComponent => inl 1%nat
  | CRFEntityExtractorGraphComponent => inl 2%nat
  | EntitySynonymMapperComponent => inl 3%nat
  | RegexFeaturizerGraphComponent => inl 4%nat
  | DIETClassifierGraphComponent => inl 5%nat
  | ResponseSelectorGraphComponent => inl 6%nat
  | RulePolicyGraphComponent => inl 7%nat
  | MemoizationPolicyGraphComponent => inl 8%nat
  | TEDPolicyGraphComponent => inl 9%nat
  | OtherComponent name => inr name
  end.

Definition ComponentType_decode (x : nat + string) : ComponentType :=
  match x with
  | inl 0%nat => MitieEntityExtractorGraphComponent
  | inl 1%nat => RegexEntityExtractorGraphComponent
  | inl 2%nat => CRFEntityExtractorGraphComponent
  | inl 3%nat => EntitySynonymMapperComponent
  | inl 4%nat => RegexFeaturizerGraphComponent
  | inl 5%nat => DIETClassifierGraphComponent
  | inl 6%nat => ResponseSelectorGraphComponent
  | inl 7%nat => RulePolicyGraphComponent
  | inl 8%nat => MemoizationPolicyGraphComponent
  | inl _ => TEDPolicyGraphComponent
  | inr name => OtherComponent name
  end.

#[global] Instance ComponentType_countable : Countable ComponentType.
Proof.
  apply (inj_countable' ComponentType_code ComponentType_decode).
  intros []; reflexivity.
Defined.

(** [type.__name__] *)
Definition __name__ (c : ComponentType) : string :=
  match c with
  | MitieEntityExtractorGraphComponent => "MitieEntityExtractorGraphComponent"
  | RegexEntityExtractorGraphComponent => "RegexEntityExtractorGraphComponent"
  | CRFEntityExtractorGraphComponent => "CRFEntityExtractorGraphComponent"
  | EntitySynonymMapperComponent => "EntitySynonymMapperComponent"
  | RegexFeaturizerGraphComponent => "RegexFeaturizerGraphComponent"
  | DIETClassifierGraphComponent => "DIETClassifierGraphComponent"
  | ResponseSelectorGraphComponent => "ResponseSelectorGraphComponent"
  | RulePolicyGraphComponent => "RulePolicyGraphComponent"
  | MemoizationPolicyGraphComponent => "MemoizationPolicyGraphComponent"
  | TEDPolicyGraphComponent => "TEDPolicyGraphComponent"
  | OtherComponent name => name
  end.

(** [", ".join(strings)] *)
Fixpoint join (sep : string) (l : list string) : string :=
  match l with
  | [] => ""
  | [x] => x
  | x :: l' => x ++ sep ++ join sep l'
  end.

Definition _types_to_str (types : list ComponentType) : string :=
  join ", " (map __name__ types).

Definition TRAINABLE_EXTRACTORS : list ComponentType :=
  [ MitieEntityExtractorGraphComponent;
    CRFEntityExtractorGraphComponent;
    DIETClassifierGraphComponent ].

(** [CRFEntityExtractorOptions.PATTERN], a string-valued enum member. *)
Definition PATTERN : CVal := VStr "pattern".

Record SchemaNode := {
  uses : ComponentType;
  config : gmap string CVal
}.

(** [GraphSchema.nodes]: a [dict] from node name to node, in insertion
    order. *)
Record GraphSchema := {
  nodes : list (string * SchemaNode)
}.

(** [graph_schema.nodes.values()] *)
Definition values (g : GraphSchema) : list SchemaNode := map snd (nodes g).

Inductive SupportedData := ML_DATA | RULE_DATA | ML_AND_RULE_DATA.

Record RegexFeature := { rf_name : string; rf_pattern : string }.
Record LookupTable := { lt_name : string; lt_elements : list string }.

(** What the validator reads of a [TrainingData] object. *)
Record TrainingData := {
  response_examples : list string;
  entity_examples : list string;
  entity_roles_groups_used : bool;
  regex_features : list RegexFeature;
  lookup_tables : list LookupTable;
  entity_synonyms : list (string * string);
  entities : gset string
}.

(** [isinstance(step, RuleStep)] tells the two kinds of step apart. *)
Inductive StoryStep :=
| PlainStoryStep (block_name : string)
| RuleStep (block_name : string).

Definition is_RuleStep (s : StoryStep) : bool :=
  match s with RuleStep _ => true | PlainStoryStep _ => false end.

(** [story_steps] is the attribute, [ordered_steps] what the method of that
    name returns. *)
Record StoryGraph := {
  story_steps : list StoryStep;
  ordered_steps : list StoryStep
}.

Record Domain := { form_names : list string }.

(** A [TrainingDataImporter], by what its three getters return. *)
Record TrainingDataImporter := {
  get_nlu_data : TrainingData;
  get_stories : StoryGraph;
  get_domain : Domain
}.

(** The classes themselves live outside this file: what the validator asks
    of them is collected here.
    - [is_tokenizer c] is [issubclass(c, TokenizerGraphComponent)],
      [is_featurizer c] is [issubclass(c, Featurizer2)] and
      [is_policy c] is [issubclass(c, PolicyGraphComponent)];
    - [default_priority c] is the value that
      [c.get_default_config()["priority"]] yields, [None] standing for a
      default configuration without that key, on which the subscript raises
      [KeyError];
    - [supported_data c] is [c.supported_data()];
    - the two compatibility checks either pass ([None]) or raise. *)
Record Classes := {
  is_tokenizer : ComponentType -> bool;
  is_featurizer : ComponentType -> bool;
  is_policy : ComponentType -> bool;
  default_priority : ComponentType -> option CVal;
  supported_data : ComponentType -> SupportedData;
  raise_if_featurizer_configs_are_not_compatible :
    list (gmap string CVal) -> option Exception;
  raise_if_incompatible_with_domain :
    gmap string CVal -> Domain -> option Exception
}.

(** The advisories, each with the values its message interpolates. *)
Inductive Advisory :=
| NoResponseSelector
| NoTrainableExtractor
| NoExtractorForRolesGroups
| NoRegexComponent
| NoLookupTableComponent
| NoLookupTableFeatureUser
| NoPatternFeature
| NoSynonymMapper
| CompetingExtractors (extractors : list ComponentType)
| RegexExtractorOverlap (extractors : list ComponentType) (types : list string)
| NoPolicyConfigured
| NoRulePolicy
| SamePriority (policies : list ComponentType) (priority : CVal)
| RuleDataMissing
| RuleDataUnused.

(** The object [__init__] builds. *)
Record DefaultV1RecipeValidator := {
  _graph_schema : GraphSchema;
  _component_types : gset ComponentType;
  _policy_schema_nodes : list SchemaNode
}.

(** *** Python idioms *)

(** Truth value of a list: empty lists are false. *)
Definition truthy {A} (l : list A) : bool :=
  match l with [] => false | _ :: _ => true end.

(** [s.isdisjoint(l)] *)
Definition isdisjoint (s : gset ComponentType) (l : list ComponentType) : bool :=
  forallb (fun c => bool_decide (c ∉ s)) l.

(** [s.intersection(l)] *)
Definition intersection (s : gset ComponentType) (l : list ComponentType)
  : gset ComponentType :=
  s ∩ list_to_set l.

(** [d[k].append(x)] on a [defaultdict(list)], kept in insertion order. *)
Fixpoint dict_append (k : CVal) (x : ComponentType)
    (d : list (CVal * list ComponentType)) : list (CVal * list ComponentType) :=
  match d with
  | [] => [(k, [x])]
  | (k', v) :: d' =>
      if CVal_eqb k' k then (k', v ++ [x]) :: d'
      else (k', v) :: dict_append k x d'
  end.

(** *** Methods *)

Section Methods.
Variable K : Classes.

Abbreviation Method := (M Advisory DefaultV1RecipeValidator).

(** [if b: m] *)
Definition when (b : bool) (m : Method unit) : Method unit :=
  if b then m else ret tt.

Definition __init__ (graph_schema : GraphSchema) : DefaultV1RecipeValidator :=
  {| _graph_schema := graph_schema;
     _component_types := list_to_set (map uses (values graph_schema));
     _policy_schema_nodes :=
       List.filter (fun node => is_policy K (uses node)) (values graph_schema) |}.

Definition _raise_if_more_than_one_tokenizer : Method unit :=
  do self <- get;
  let types_of_tokenizer_schema_nodes :=
    map uses
      (List.filter (fun schema_node => is_tokenizer K (uses schema_node))
         (values (_graph_schema self))) in
  if (1 <? length types_of_tokenizer_schema_nodes)%nat
  then raise InvalidConfigException
  else ret tt.

Definition _raise_if_featurizers_are_not_compatible : Method unit :=
  do self <- get;
  let featurizers :=
    List.filter (fun node => is_featurizer K (uses node))
      (values (_graph_schema self)) in
  match raise_if_featurizer_configs_are_not_compatible K
          (map config featurizers) with
  | Some e => raise e
  | None => ret tt
  end.

Definition _warn_of_competing_extractors : Method unit :=
  do self <- get;
  let extractors_in_configuration :=
    intersection (_component_types self) TRAINABLE_EXTRACTORS in
  when (bool_decide (1 < size extractors_in_configuration)%nat)
    (raise_warning (CompetingExtractors (elements extractors_in_configuration))).

Definition _warn_of_competition_with_regex_extractor
    (training_data : TrainingData) : Method unit :=
  do self <- get;
  let present_general_extractors :=
    intersection (_component_types self) TRAINABLE_EXTRACTORS in
  let has_general_extractors :=
    bool_decide (0 < size present_general_extractors)%nat in
  let has_regex_extractor :=
    bool_decide (RegexEntityExtractorGraphComponent ∈ _component_types self) in
  let regex_entity_types : gset string :=
    list_to_set (map rf_name (regex_features training_data)) in
  let overlap_between_types := entities training_data ∩ regex_entity_types in
  let has_overlap := bool_decide (0 < size overlap_between_types)%nat in
  when (has_general_extractors && has_regex_extractor && has_overlap)
    (raise_warning
       (RegexExtractorOverlap (elements present_general_extractors)
          (elements overlap_between_types))).

(** [any(PATTERN in feature_list for feature_list in feature_lists)] *)
Fixpoint any_pattern_in (feature_lists : list CVal) : Exception + bool :=
  match feature_lists with
  | [] => inr false
  | feature_list :: rest =>
      match py_contains PATTERN feature_list with
      | inl e => inl e
      | inr true => inr true
      | inr false => any_pattern_in rest
      end
  end.

(** [any(PATTERN in feature_list for crf in crf_schema_nodes
        for feature_list in crf.config.get("features", []))] *)
Fixpoint has_pattern_feature (crf_schema_nodes : list SchemaNode)
  : Exception + bool :=
  match crf_schema_nodes with
  | [] => inr false
  | crf :: rest =>
      match py_iter (default (VList []) (config crf !! "features")) with
      | inl e => inl e
      | inr feature_lists =>
          match any_pattern_in feature_lists with
          | inl e => inl e
          | inr true => inr true
          | inr false => has_pattern_feature rest
          end
      end
  end.

Definition _warn_if_some_training_data_is_unused
    (training_data : TrainingData) : Method unit :=
  do self <- get;
  let types := _component_types self in
  when (truthy (response_examples training_data)
        && bool_decide (ResponseSelectorGraphComponent ∉ types))
    (raise_warning NoResponseSelector) ;;
  when (truthy (entity_examples training_data)
        && isdisjoint types TRAINABLE_EXTRACTORS)
    (raise_warning NoTrainableExtractor) ;;
  when (truthy (entity_examples training_data)
        && isdisjoint types
             [DIETClassifierGraphComponent; CRFEntityExtractorGraphComponent])
    (when (entity_roles_groups_used training_data)
       (raise_warning NoExtractorForRolesGroups)) ;;
  when (truthy (regex_features training_data)
        && isdisjoint types
             [RegexFeaturizerGraphComponent; RegexEntityExtractorGraphComponent])
    (raise_warning NoRegexComponent) ;;
  when (truthy (lookup_tables training_data)
        && isdisjoint types
             [RegexFeaturizerGraphComponent; RegexEntityExtractorGraphComponent])
    (raise_warning NoLookupTableComponent) ;;
  when (truthy (lookup_tables training_data))
    (if isdisjoint types
          [CRFEntityExtractorGraphComponent; DIETClassifierGraphComponent]
     then raise_warning NoLookupTableFeatureUser
     else if bool_decide (CRFEntityExtractorGraphComponent ∈ types)
     then
       let crf_schema_nodes :=
         List.filter
           (fun schema_node =>
              bool_decide (uses schema_node = CRFEntityExtractorGraphComponent))
           (values (_graph_schema self)) in
       do has_pattern <- lift (has_pattern_feature crf_schema_nodes);
       when (negb has_pattern) (raise_warning NoPatternFeature)
     else ret tt) ;;
  when (truthy (entity_synonyms training_data)
        && bool_decide (EntitySynonymMapperComponent ∉ types))
    (raise_warning NoSynonymMapper).

Definition _validate_nlu (training_data : TrainingData) : Method unit :=
  _raise_if_more_than_one_tokenizer ;;
  _raise_if_featurizers_are_not_compatible ;;
  _warn_of_competing_extractors ;;
  _warn_of_competition_with_regex_extractor training_data ;;
  _warn_if_some_training_data_is_unused training_data.

Definition _warn_if_no_rule_policy_is_contained : Method unit :=
  do self <- get;
  when (negb (existsb
                (fun node => bool_decide (uses node = RulePolicyGraphComponent))
                (_policy_schema_nodes self)))
    (raise_warning NoRulePolicy).

Definition _raise_if_domain_contains_form_names_but_no_rule_policy_given
    (domain : Domain) : Method unit :=
  do self <- get;
  let contains_rule_policy :=
    existsb (fun _ => true)
      (List.filter
         (fun schema_node =>
            bool_decide (uses schema_node = RulePolicyGraphComponent))
         (values (_graph_schema self))) in
  if truthy (form_names domain) && negb contains_rule_policy
  then raise InvalidDomain
  else ret tt.

Definition _raise_if_a_rule_policy_is_incompatible_with_domain
    (domain : Domain) : Method unit :=
  do self <- get;
  for_each (values (_graph_schema self)) (fun schema_node =>
    if bool_decide (uses schema_node = RulePolicyGraphComponent)
    then
      match raise_if_incompatible_with_domain K (config schema_node) domain with
      | Some e => raise e
      | None => ret tt
      end
    else ret tt).

(** The first loop of [_warn_if_priorities_are_not_unique]: it fills
    [priority_dict], and raises when the default configuration of a class
    has no priority or when a priority cannot be a key. *)
Fixpoint collect_priorities (policy_schema_nodes : list SchemaNode)
    (priority_dict : list (CVal * list ComponentType))
  : Exception + list (CVal * list ComponentType) :=
  match policy_schema_nodes with
  | [] => inr priority_dict
  | schema_node :: rest =>
      match default_priority K (uses schema_node) with
      | None => inl KeyError
      | Some default_priority =>
          let priority :=
            default default_priority (config schema_node !! "priority") in
          if hashable priority
          then collect_priorities rest
                 (dict_append priority (uses schema_node) priority_dict)
          else inl TypeError
      end
  end.

Definition _warn_if_priorities_are_not_unique : Method unit :=
  do self <- get;
  do priority_dict <- lift (collect_priorities (_policy_schema_nodes self) []);
  for_each priority_dict (fun '(k, v) =>
    when (1 <? length v)%nat (raise_warning (SamePriority v k))).

Definition consumes_rule_data (policy_node : SchemaNode) : bool :=
  match supported_data K (uses policy_node) with
  | RULE_DATA | ML_AND_RULE_DATA => true
  | ML_DATA => false
  end.

Definition _warn_if_rule_based_data_is_unused_or_missing
    (story_graph : StoryGraph) : Method unit :=
  do self <- get;
  let consuming_rule_data :=
    existsb consumes_rule_data (_policy_schema_nodes self) in
  let contains_rule_tracker :=
    existsb is_RuleStep (ordered_steps story_graph) in
  if consuming_rule_data && negb contains_rule_tracker
  then raise_warning RuleDataMissing
  else if negb consuming_rule_data && contains_rule_tracker
  then raise_warning RuleDataUnused
  else ret tt.

Definition _validate_core (story_graph : StoryGraph) (domain : Domain)
  : Method unit :=
  do self <- get;
  when (negb (truthy (_policy_schema_nodes self))
        && truthy (story_steps story_graph))
    (raise_warning NoPolicyConfigured) ;;
  if negb (truthy (_policy_schema_nodes self))
  then ret tt
  else
    _warn_if_no_rule_policy_is_contained ;;
    _raise_if_domain_contains_form_names_but_no_rule_policy_given domain ;;
    _raise_if_a_rule_policy_is_incompatible_with_domain domain ;;
    _warn_if_priorities_are_not_unique ;;
    _warn_if_rule_based_data_is_unused_or_missing story_graph.

Definition validate (importer : TrainingDataImporter)
  : Method TrainingDataImporter :=
  let nlu_data := get_nlu_data importer in
  _validate_nlu nlu_data ;;
  let story_graph := get_stories importer in
  let domain := get_domain importer in
  _validate_core story_graph domain ;;
  ret importer.

End Methods.

End Validator.

(** *** Vocabulary of the properties *)

Module ValidatorSpec.
Import Validator.

Section Vocabulary.
Variable K : Classes.

(** The schema nodes whose component is a tokenizer. *)
Definition tokenizer_nodes (g : GraphSchema) : list SchemaNode :=
  List.filter (fun schema_node => is_tokenizer K (uses schema_node)) (values g).

(** The configurations handed to the featurizer compatibility check. *)
Definition featurizer_configs (g : GraphSchema) : list (gmap string CVal) :=
  map config
    (List.filter (fun node => is_featurizer K (uses node)) (values g)).

(** The schema nodes that are CRF entity extractors. *)
Definition crf_nodes (g : GraphSchema) : list SchemaNode :=
  List.filter
    (fun schema_node =>
       bool_decide (uses schema_node = CRFEntityExtractorGraphComponent))
    (values g).

(** The priority a policy node runs with: its [priority] key, or the
    default of its class; none where the class has no default priority. *)
Definition effective_priority (n : SchemaNode) : option CVal :=
  match default_priority K (uses n) with
  | Some default_priority =>
      Some (default default_priority (config n !! "priority"))
  | None => None
  end.

(** The node runs with priority [k]. *)
Definition runs_with (k : CVal) (n : SchemaNode) : bool :=
  match effective_priority n with
  | Some priority => CVal_eqb priority k
  | None => false
  end.

(** The classes filed under priority [k] by the nodes of [l], in order. *)
Definition filed_under (l : list SchemaNode) (k : CVal) : list ComponentType :=
  map uses (List.filter (runs_with k) l).

(** The policy nodes that run with priority [p]. *)
Definition policy_nodes_with_priority (g : GraphSchema) (p : CVal)
  : list SchemaNode :=
  List.filter (runs_with p) (_policy_schema_nodes (__init__ K g)).

(** Some policy node's class supports rule data. *)
Definition consuming_rule_data (g : GraphSchema) : bool :=
  existsb (consumes_rule_data K) (_policy_schema_nodes (__init__ K g)).

End Vocabulary.

(** Some step of the story graph is a rule step. *)
Definition contains_rule_tracker (story_graph : StoryGraph) : bool :=
  existsb is_RuleStep (ordered_steps story_graph).

(** [d[k]] on the [defaultdict(list)] of priorities. *)
Fixpoint dict_get (k : CVal) (d : list (CVal * list ComponentType))
  : list ComponentType :=
  match d with
  | [] => []
  | (k', v) :: d' => if CVal_eqb k' k then v else dict_get k d'
  end.

(** What the second loop of the priority check emits for one entry. *)
Definition same_priority_advisory (entry : CVal * list ComponentType)
  : list Advisory :=
  let '(k, v) := entry in
  if (1 <? length v)%nat then [SamePriority v k] else [].

(** The check each advisory comes from. *)
Inductive Emitter :=
| CompetingExtractorsCheck
| RegexCompetitionCheck
| UnusedDataCheck
| PolicyPresenceCheck
| RulePolicyPresenceCheck
| PriorityCheck
| RuleDataCheck.

Definition emitter (w : Advisory) : Emitter :=
  match w with
  | CompetingExtractors _ => CompetingExtractorsCheck
  | RegexExtractorOverlap _ _ => RegexCompetitionCheck
  | NoResponseSelector | NoTrainableExtractor | NoExtractorForRolesGroups
  | NoRegexComponent | NoLookupTableComponent | NoLookupTableFeatureUser
  | NoPatternFeature | NoSynonymMapper => UnusedDataCheck
  | NoPolicyConfigured => PolicyPresenceCheck
  | NoRulePolicy => RulePolicyPresenceCheck
  | SamePriority _ _ => PriorityCheck
  | RuleDataMissing | RuleDataUnused => RuleDataCheck
  end.

Definition is_CompetingExtractors (w : Advisory) : bool :=
  match w with CompetingExtractors _ => true | _ => false end.

Definition is_SamePriority (w : Advisory) : bool :=
  match w with SamePriority _ _ => true | _ => false end.

Definition is_rule_mismatch (w : Advisory) : bool :=
  match w with RuleDataMissing | RuleDataUnused => true | _ => false end.

(** The three advisories about lookup tables. *)
Definition is_lookup_table_advisory (w : Advisory) : bool :=
  match w with
  | NoLookupTableComponent | NoLookupTableFeatureUser | NoPatternFeature => true
  | _ => false
  end.

End ValidatorSpec.

(** *** Sample inputs

    A class table in the shape of the stock components, and small schemas
    and importers over it, on which the methods are evaluated. *)

Module Samples.
Import Validator.

Definition WhitespaceTokenizerGraphComponent : ComponentType :=
  OtherComponent "WhitespaceTokenizerGraphComponent".
Definition JiebaTokenizerGraphComponent : ComponentType :=
  OtherComponent "JiebaTokenizerGraphComponent".

Definition classes : Classes := {|
  is_tokenizer c :=
    bool_decide (c = WhitespaceTokenizerGraphComponent)
    || bool_decide (c = JiebaTokenizerGraphComponent);
  is_featurizer c := bool_decide (c = RegexFeaturizerGraphComponent);
  is_policy c :=
    bool_decide (c = RulePolicyGraphComponent)
    || bool_decide (c = MemoizationPolicyGraphComponent)
    || bool_decide (c = TEDPolicyGraphComponent);
  default_priority c :=
    match c with
    | RulePolicyGraphComponent => Some (VInt 6)
    | MemoizationPolicyGraphComponent => Some (VInt 3)
    | _ => Some (VInt 1)
    end;
  supported_data c :=
    match c with
    | RulePolicyGraphComponent => ML_AND_RULE_DATA
    | _ => ML_DATA
    end;
  raise_if_featurizer_configs_are_not_compatible _ := None;
  raise_if_incompatible_with_domain _ _ := None
|}.

Definition node (c : ComponentType) : SchemaNode :=
  {| uses := c; config := ∅ |}.

Definition node_with (c : ComponentType) (key : string) (v : CVal) : SchemaNode :=
  {| uses := c; config := {[ key := v ]} |}.

(** A schema whose nodes are named after their component. *)
Definition schema (l : list SchemaNode) : GraphSchema :=
  {| nodes := map (fun n => (__name__ (uses n), n)) l |}.

Definition no_nlu_data : TrainingData := {|
  response_examples := [];
  entity_examples := [];
  entity_roles_groups_used := false;
  regex_features := [];
  lookup_tables := [];
  entity_synonyms := [];
  entities := ∅
|}.

Definition lookup_data : TrainingData := {|
  response_examples := [];
  entity_examples := [];
  entity_roles_groups_used := false;
  regex_features := [];
  lookup_tables := [ {| lt_name := "city"; lt_elements := ["Berlin"; "Rome"] |} ];
  entity_synonyms := [];
  entities := ∅
|}.

Definition synonym_data : TrainingData := {|
  response_examples := [];
  entity_examples := [];
  entity_roles_groups_used := false;
  regex_features := [];
  lookup_tables := [];
  entity_synonyms := [("NYC", "New York")];
  entities := ∅
|}.

Definition no_stories : StoryGraph := {| story_steps := []; ordered_steps := [] |}.

Definition rule_stories : StoryGraph := {|
  story_steps := [RuleStep "greet rule"];
  ordered_steps := [RuleStep "greet rule"]
|}.

Definition no_forms : Domain := {| form_names := [] |}.
Definition with_form : Domain := {| form_names := ["booking_form"] |}.

Definition importer (d : TrainingData) (g : StoryGraph) (dom : Domain)
  : TrainingDataImporter :=
  {| get_nlu_data := d; get_stories := g; get_domain := dom |}.

End Samples.

(** ** The YAML reader *)

Module YamlReader.

(** *** Data model *)

(** The key of a YAML mapping: a string, or some other scalar. *)
Inductive Key :=
| KStr (s : string)
| KInt (z : Z)
| KBool (b : bool)
| KNull.

#[global] Instance Key_eq_dec : EqDecision Key.
Proof. solve_decision. Defined.

(** What [read_yaml] returns: the Python value of a YAML document, floats
    and dates left out. *)
Inductive Yaml :=
| YNull
| YBool (b : bool)
| YInt (z : Z)
| YStr (s : string)
| YList (l : list Yaml)
| YDict (items : list (Key * Yaml)).

Definition KEY_NLU := "nlu".
Definition KEY_INTENT := "intent".
Definition KEY_INTENT_EXAMPLES := "examples".
Definition KEY_INTENT_TEXT := "text".
Definition KEY_SYNONYM := "synonym".
Definition KEY_SYNONYM_EXAMPLES := "examples".
Definition KEY_REGEX := "regex".
Definition KEY_REGEX_EXAMPLES := "examples".
Definition KEY_LOOKUP := "lookup".
Definition KEY_LOOKUP_EXAMPLES := "examples".

(** Truth value of a value: [None], [False], [0] and the empty string,
    list and dict are false. *)
Definition truthy (v : Yaml) : bool :=
  match v with
  | YNull => false
  | YBool b => b
  | YInt z => negb (Z.eqb z 0)
  | YStr s => negb (String.eqb s "")
  | YList l => match l with [] => false | _ => true end
  | YDict items => match items with [] => false | _ => true end
  end.

(** [d[key]], [None] standing for [KeyError]. *)
Fixpoint lookup (key : string) (d : list (Key * Yaml)) : option Yaml :=
  match d with
  | [] => None
  | (k, v) :: d' => if bool_decide (k = KStr key) then Some v else lookup key d'
  end.

(** [d.get(key, default)] *)
Definition get_default (d : list (Key * Yaml)) (key : string) (dflt : Yaml)
  : Yaml :=
  default dflt (lookup key d).

(** A key as the value a loop over the dict yields. *)
Definition key_value (k : Key) : Yaml :=
  match k with
  | KStr s => YStr s
  | KInt z => YInt z
  | KBool b => YBool b
  | KNull => YNull
  end.

(** [for item in v]: a list yields its elements, a string its characters, a
    dict its keys; nothing else can be iterated. *)
Definition iterate (v : Yaml) : Exception + list Yaml :=
  match v with
  | YList l => inr l
  | YStr s => inr (map YStr (chars s))
  | YDict items => inr (map (fun kv => key_value (fst kv)) items)
  | YNull | YBool _ | YInt _ => inl TypeError
  end.

(** The line boundaries of [str.splitlines], among the characters below 256:
    LF, VT, FF, CR, FS, GS, RS and NEL. *)
Definition is_line_boundary (c : Ascii.ascii) : bool :=
  let n := Ascii.nat_of_ascii c in
  bool_decide (n ∈ [10; 11; 12; 13; 28; 29; 30; 133]%nat).

(** [splitlines_from s line]: the lines of [line ++ s], where [line] holds no
    boundary.  CR LF counts as one boundary, and no empty line follows the
    last boundary. *)
Fixpoint splitlines_from (s : string) (line : string) : list string :=
  match s with
  | EmptyString => if String.eqb line "" then [] else [line]
  | String c s' =>
      if is_line_boundary c
      then
        line ::
        match s' with
        | String c' s'' =>
            if bool_decide (Ascii.nat_of_ascii c = 13%nat)
               && bool_decide (Ascii.nat_of_ascii c' = 10%nat)
            then splitlines_from s'' ""
            else splitlines_from s' ""
        | EmptyString => []
        end
      else splitlines_from s' (line ++ String c "")
  end.

(** [s.splitlines()] *)
Definition splitlines (s : string) : list string := splitlines_from s "".

(** A [Message], by what the reader puts into it: [Message.build(text,
    intent)], then [set("entities", entities)]. *)
Record Message := {
  text : Yaml;
  intent : Yaml;
  entities : option (list Yaml)
}.

Definition Message_build (plain_text intent : Yaml) : Message :=
  {| text := plain_text; intent := intent; entities := None |}.

Definition Message_set_entities (m : Message) (entities : list Yaml) : Message :=
  {| text := text m; intent := intent m; entities := Some entities |}.

(** [{"name": regex_name, "pattern": example}] *)
Record RegexFeature := { name : Yaml; pattern : string }.

(** A lookup table: [{"name": ..., "elements": [...]}]. *)
Record LookupTable := { table_name : Yaml; elements : list string }.

(** [TrainingData(training_examples, entity_synonyms, regex_features,
    lookup_tables)], by its four arguments. *)
Record TrainingData := {
  td_training_examples : list Message;
  td_entity_synonyms : list (string * Yaml);
  td_regex_features : list RegexFeature;
  td_lookup_tables : list LookupTable
}.

(** The reader object: the file name its base class keeps, and the four
    attributes [_initialize] creates. *)
Record RasaYAMLReader := {
  filename : string;
  training_examples : list Message;
  entity_synonyms : list (string * Yaml);
  regex_features : list RegexFeature;
  lookup_tables : list LookupTable
}.

(** The helpers of other modules, as functions of their arguments; those
    that update a collection in place return the collection updated.
    - [read_yaml] is [rasa.utils.io.read_yaml];
    - [find_entities_in_training_example] and [replace_entities] are
      [EntitiesParser]'s;
    - [add_synonyms_from_entities] and [add_synonym] are [SynonymsParser]'s;
    - [add_item_to_lookup_tables] is [LookupTablesParser]'s. *)
Record Helpers := {
  read_yaml : string -> Exception + Yaml;
  find_entities_in_training_example : Yaml -> list Yaml;
  replace_entities : Yaml -> Yaml;
  add_synonyms_from_entities :
    Yaml -> list Yaml -> list (string * Yaml) -> list (string * Yaml);
  add_synonym : string -> Yaml -> list (string * Yaml) -> list (string * Yaml);
  add_item_to_lookup_tables :
    Yaml -> string -> list LookupTable -> list LookupTable
}.

(** The advisories, each with the file name and the values its message
    interpolates. *)
Inductive Advisory :=
| UnexpectedBlock (file : string) (nlu_item : Yaml)
| UnexpectedKey (file : string) (key : Key)
| EmptyIntentName (file : string)
| UnexpectedIntentExamples (file : string) (intent examples : Yaml)
| EmptySynonymName (file : string)
| NoSynonymExamples (file : string) (synonym_name : Yaml)
| UnexpectedSynonymExamples (file : string) (examples : Yaml)
| EmptyRegexName (file : string)
| NoRegexExamples (file : string) (regex_name : Yaml)
| UnexpectedRegexExamples (file : string) (examples : Yaml)
| EmptyLookupName (file : string)
| NoLookupExamples (file : string) (lookup_item_name : Yaml)
| UnexpectedLookupExamples (file : string) (examples : Yaml).

(** *** Methods *)

Section Methods.
Variable H : Helpers.

Abbreviation Method := (M Advisory RasaYAMLReader).

(** [raise_warning] with a message that interpolates [self.filename]. *)
Definition warn (message : string -> Advisory) : Method unit :=
  do self <- get;
  raise_warning (message (filename self)).

(** The four attributes are bound to new, empty collections: data returned
    by an earlier [reads] is not touched. *)
Definition _initialize : Method unit :=
  modify (fun self =>
    {| filename := filename self;
       training_examples := [];
       entity_synonyms := [];
       regex_features := [];
       lookup_tables := [] |}).

(** [[example.get(KEY_INTENT_TEXT, "") for example in examples if example]]:
    a true example that is no dict has no [get]. *)
Fixpoint example_texts (examples : list Yaml) : Exception + list Yaml :=
  match examples with
  | [] => inr []
  | example :: rest =>
      if truthy example
      then
        match example with
        | YDict d =>
            match example_texts rest with
            | inl e => inl e
            | inr texts => inr (get_default d KEY_INTENT_TEXT (YStr "") :: texts)
            end
        | _ => inl AttributeError
        end
      else example_texts rest
  end.

Definition _parse_training_examples (examples intent : Yaml)
  : Method (list (Yaml * list Yaml)) :=
  match examples with
  | YList l =>
      do example_strings <- lift (example_texts l);
      ret (map (fun example =>
                  (example, find_entities_in_training_example H example))
             example_strings)
  | YStr s =>
      let example_strings := map YStr (splitlines s) in
      ret (map (fun example =>
                  (example, find_entities_in_training_example H example))
             example_strings)
  | _ =>
      warn (fun file => UnexpectedIntentExamples file intent examples) ;;
      ret []
  end.

Definition _parse_intent (data : list (Key * Yaml)) : Method unit :=
  let intent := get_default data KEY_INTENT (YStr "") in
  if negb (truthy intent)
  then warn EmptyIntentName
  else
    let examples := get_default data KEY_INTENT_EXAMPLES (YStr "") in
    do results <- _parse_training_examples examples intent;
    for_each results (fun '(example, entities) =>
      modify (fun self =>
        {| filename := filename self;
           training_examples := training_examples self;
           entity_synonyms :=
             add_synonyms_from_entities H example entities (entity_synonyms self);
           regex_features := regex_features self;
           lookup_tables := lookup_tables self |}) ;;
      let plain_text := replace_entities H example in
      let message := Message_build plain_text intent in
      let message :=
        match entities with
        | [] => message
        | _ :: _ => Message_set_entities message entities
        end in
      modify (fun self =>
        {| filename := filename self;
           training_examples := training_examples self ++ [message];
           entity_synonyms := entity_synonyms self;
           regex_features := regex_features self;
           lookup_tables := lookup_tables self |})).

Definition _parse_synonym (nlu_item : list (Key * Yaml)) : Method unit :=
  match lookup KEY_SYNONYM nlu_item with
  | None => raise KeyError
  | Some synonym_name =>
      if negb (truthy synonym_name)
      then warn EmptySynonymName
      else
        let examples := get_default nlu_item KEY_SYNONYM_EXAMPLES (YStr "") in
        if negb (truthy examples)
        then warn (fun file => NoSynonymExamples file synonym_name)
        else
          match examples with
          | YStr s =>
              for_each (splitlines s) (fun example =>
                modify (fun self =>
                  {| filename := filename self;
                     training_examples := training_examples self;
                     entity_synonyms :=
                       add_synonym H example synonym_name (entity_synonyms self);
                     regex_features := regex_features self;
                     lookup_tables := lookup_tables self |}))
          | _ => warn (fun file => UnexpectedSynonymExamples file examples)
          end
  end.

Definition _parse_regex (nlu_item : list (Key * Yaml)) : Method unit :=
  match lookup KEY_REGEX nlu_item with
  | None => raise KeyError
  | Some regex_name =>
      if negb (truthy regex_name)
      then warn EmptyRegexName
      else
        let examples := get_default nlu_item KEY_REGEX_EXAMPLES (YStr "") in
        if negb (truthy examples)
        then warn (fun file => NoRegexExamples file regex_name)
        else
          match examples with
          | YStr s =>
              for_each (splitlines s) (fun example =>
                modify (fun self =>
                  {| filename := filename self;
                     training_examples := training_examples self;
                     entity_synonyms := entity_synonyms self;
                     regex_features :=
                       regex_features self
                       ++ [{| name := regex_name; pattern := example |}];
                     lookup_tables := lookup_tables self |}))
          | _ => warn (fun file => UnexpectedRegexExamples file examples)
          end
  end.

Definition _parse_lookup (nlu_item : list (Key * Yaml)) : Method unit :=
  match lookup KEY_LOOKUP nlu_item with
  | None => raise KeyError
  | Some lookup_item_name =>
      if negb (truthy lookup_item_name)
      then warn EmptyLookupName
      else
        let examples := get_default nlu_item KEY_LOOKUP_EXAMPLES (YStr "") in
        if negb (truthy examples)
        then warn (fun file => NoLookupExamples file lookup_item_name)
        else
          match examples with
          | YStr s =>
              for_each (splitlines s) (fun example =>
                modify (fun self =>
                  {| filename := filename self;
                     training_examples := training_examples self;
                     entity_synonyms := entity_synonyms self;
                     regex_features := regex_features self;
                     lookup_tables :=
                       add_item_to_lookup_tables H lookup_item_name example
                         (lookup_tables self) |}))
          | _ => warn (fun file => UnexpectedLookupExamples file examples)
          end
  end.

(** The body of the loop over [nlu_item.keys()]. *)
Definition _parse_key (nlu_item : list (Key * Yaml)) (key : Key) : Method unit :=
  if bool_decide (key = KStr KEY_INTENT) then _parse_intent nlu_item
  else if bool_decide (key = KStr KEY_SYNONYM) then _parse_synonym nlu_item
  else if bool_decide (key = KStr KEY_REGEX) then _parse_regex nlu_item
  else if bool_decide (key = KStr KEY_LOOKUP) then _parse_lookup nlu_item
  else warn (fun file => UnexpectedKey file key).

Definition _parse_nlu (nlu_data : Yaml) : Method unit :=
  do nlu_items <- lift (iterate nlu_data);
  for_each nlu_items (fun nlu_item =>
    match nlu_item with
    | YDict items => for_each (map fst items) (_parse_key items)
    | _ => warn (fun file => UnexpectedBlock file nlu_item)
    end).

Definition reads (string : string) : Method TrainingData :=
  _initialize ;;
  do yaml_content <- lift (read_yaml H string);
  match yaml_content with
  | YDict items =>
      for_each items (fun '(key, value) =>
        if bool_decide (key = KStr KEY_NLU) then _parse_nlu value else ret tt)
  | _ => raise AttributeError
  end ;;
  do self <- get;
  ret {| td_training_examples := training_examples self;
         td_entity_synonyms := entity_synonyms self;
         td_regex_features := regex_features self;
         td_lookup_tables := lookup_tables self |}.

End Methods.

End YamlReader.

(** *** Vocabulary of the properties *)

Module YamlReaderSpec.
Import YamlReader.

(** Two readers with the same collected data; their file names may differ. *)
Definition same_data (r1 r2 : RasaYAMLReader) : Prop :=
  training_examples r1 = training_examples r2 /\
  entity_synonyms r1 = entity_synonyms r2 /\
  regex_features r1 = regex_features r2 /\
  lookup_tables r1 = lookup_tables r2.

(** A reader with its four collections emptied. *)
Definition cleared (r : RasaYAMLReader) : RasaYAMLReader :=
  {| filename := filename r;
     training_examples := [];
     entity_synonyms := [];
     regex_features := [];
     lookup_tables := [] |}.

(** The message [_parse_intent] appends for one example of an intent. *)
Definition message_of (H : Helpers) (intent example : Yaml) : Message :=
  let entities := find_entities_in_training_example H example in
  let message := Message_build (replace_entities H example) intent in
  match entities with
  | [] => message
  | _ :: _ => Message_set_entities message entities
  end.

(** The line feed character, as a string. *)
Definition LF : string := String (Ascii.ascii_of_nat 10) EmptyString.

(** The document [nlu: [{intent: greet, examples: "- hello\n- hi"}]]. *)
Definition greet_document : Yaml :=
  YDict
    [(KStr "nlu",
      YList
        [YDict [(KStr "intent", YStr "greet");
                (KStr "examples", YStr ("- hello" ++ LF ++ "- hi"))]])].

(** What the loop over the keys of a synonym block without a name does at
    one key: an advisory. *)
Definition advisory_of_key (key : Key) : M Advisory RasaYAMLReader unit :=
  if bool_decide (key = KStr KEY_SYNONYM)
  then warn EmptySynonymName
  else warn (fun file => UnexpectedKey file key).

(** The keys that make a block an intent, a regex or a lookup block. *)
Definition other_block_keys : list Key :=
  [KStr KEY_INTENT; KStr KEY_REGEX; KStr KEY_LOOKUP].

End YamlReaderSpec.

(** *** Sample inputs *)

Module ReaderSamples.
Import YamlReader YamlReaderSpec.

Definition greet_yaml : string :=
  "nlu:" ++ LF ++
  "- intent: greet" ++ LF ++
  "  examples: |" ++ LF ++
  "    - hello" ++ LF ++
  "    - hi" ++ LF.

(** [nlu: [{synonym: "", examples: "NYC"}, {regex: zip, examples: "[0-9]{5}"}]] *)
Definition synonym_yaml : string :=
  "nlu:" ++ LF ++
  "- synonym: ''" ++ LF ++
  "  examples: NYC" ++ LF ++
  "- regex: zip" ++ LF ++
  "  examples: '[0-9]{5}'" ++ LF.

Definition empty_synonym_block : list (Key * Yaml) :=
  [(KStr "synonym", YStr ""); (KStr "examples", YStr "NYC")].

Definition zip_block : Yaml :=
  YDict [(KStr "regex", YStr "zip"); (KStr "examples", YStr "[0-9]{5}")].

Definition synonym_document : Yaml :=
  YDict [(KStr "nlu", YList [YDict empty_synonym_block; zip_block])].

(** The same file without its synonym block. *)
Definition regex_yaml : string :=
  "nlu:" ++ LF ++
  "- regex: zip" ++ LF ++
  "  examples: '[0-9]{5}'" ++ LF.

Definition regex_document : Yaml :=
  YDict [(KStr "nlu", YList [zip_block])].

(** Helpers for texts without entity markup: no entity is found, the text is
    left as it is, and nothing is added for entities. *)
Definition plain_helpers : Helpers := {|
  read_yaml s :=
    if String.eqb s greet_yaml then inr greet_document
    else if String.eqb s synonym_yaml then inr synonym_document
    else if String.eqb s regex_yaml then inr regex_document
    else inl YamlError;
  find_entities_in_training_example _ := [];
  replace_entities example := example;
  add_synonyms_from_entities _ _ synonyms := synonyms;
  add_synonym example synonym_name synonyms :=
    synonyms ++ [(example, synonym_name)];
  add_item_to_lookup_tables item_name example tables :=
    tables ++ [{| table_name := item_name; elements := [example] |}]
|}.

Definition fresh_reader : RasaYAMLReader := {|
  filename := "data/nlu.yml";
  training_examples := [];
  entity_synonyms := [];
  regex_features := [];
  lookup_tables := []
|}.

(** A reader that has parsed another file before. *)
Definition used_reader : RasaYAMLReader := {|
  filename := "data/old.yml";
  training_examples := [Message_build (YStr "bye") (YStr "goodbye")];
  entity_synonyms := [("NYC", YStr "New York")];
  regex_features := [{| name := YStr "zip"; pattern := "[0-9]{5}" |}];
  lookup_tables := []
|}.

End ReaderSamples.

(** ** Further vocabulary for the validator *)

Module ValidatorTerms.
Import Validator ValidatorSpec.

Section Terms.
Variable K : Classes.

(** The schema nodes whose class is the rule policy itself. *)
Definition rule_policy_nodes (g : GraphSchema) : list SchemaNode :=
  List.filter
    (fun schema_node => bool_decide (uses schema_node = RulePolicyGraphComponent))
    (values g).

(** The NLU pass has nothing to raise on: at most one tokenizer, compatible
    featurizers and, where the lookup tables make the validator read the
    [features] of the CRF nodes, features it can read. *)
Definition nlu_accepts (g : GraphSchema) (training_data : TrainingData) : Prop :=
  (length (tokenizer_nodes K g) <= 1)%nat /\
  raise_if_featurizer_configs_are_not_compatible K (featurizer_configs K g)
  = None /\
  (lookup_tables training_data = [] \/
   exists b, has_pattern_feature (crf_nodes g) = inr b).

(** The core pass has nothing to raise on: no policy at all, or forms only
    with a rule policy, rule policies that fit the domain, policy classes
    with a default priority and priorities that can be dictionary keys. *)
Definition core_accepts (g : GraphSchema) (domain : Domain) : Prop :=
  _policy_schema_nodes (__init__ K g) = [] \/
  ((form_names domain = [] \/ rule_policy_nodes g <> []) /\
   Forall
     (fun n => raise_if_incompatible_with_domain K (config n) domain = None)
     (rule_policy_nodes g) /\
   Forall
     (fun n => exists priority,
        effective_priority K n = Some priority /\ hashable priority = true)
     (_policy_schema_nodes (__init__ K g))).

End Terms.

(** Some schema node uses the class [t]. *)
Definition configured (g : GraphSchema) (t : ComponentType) : Prop :=
  In t (map uses (values g)).

Definition is_NoPolicyConfigured (w : Advisory) : bool :=
  match w with NoPolicyConfigured => true | _ => false end.

Definition is_RegexExtractorOverlap (w : Advisory) : bool :=
  match w with RegexExtractorOverlap _ _ => true | _ => false end.

(** A value of the shape a [features] entry is documented to have: a list of
    lists of strings. *)
Definition is_string (v : CVal) : bool :=
  match v with VStr _ => true | _ => false end.

Definition is_feature_list (v : CVal) : bool :=
  match v with VList l => forallb is_string l | _ => false end.

Definition well_formed_features (n : SchemaNode) : bool :=
  match config n !! "features" with
  | None => true
  | Some (VList l) => forallb is_feature_list l
  | Some _ => false
  end.

(** Some feature list of the node names the pattern feature. *)
Definition lists_pattern (n : SchemaNode) : bool :=
  match config n !! "features" with
  | Some (VList l) =>
      existsb
        (fun feature_list =>
           match feature_list with
           | VList names => existsb (CVal_eqb PATTERN) names
           | _ => false
           end) l
  | _ => false
  end.

End ValidatorTerms.

(* ================================================================= *)
(** * Further sample inputs for the validator *)

Module ValidatorSamples.
Import Validator Samples.

(** Training data whose entity type [zipcode] is also the name of a regex. *)
Definition zipcode_data : TrainingData := {|
  response_examples := [];
  entity_examples := ["my zip is [12345](zipcode)"];
  entity_roles_groups_used := false;
  regex_features := [ {| rf_name := "zipcode"; rf_pattern := "[0-9]{5}" |};
                      {| rf_name := "greeting"; rf_pattern := "hey[^\s]*" |} ];
  lookup_tables := [];
  entity_synonyms := [];
  entities := {[ "zipcode"; "city" ]}
|}.

(** A policy class of the user's own whose default configuration has no
    [priority]. *)
Definition CustomPolicy : ComponentType := OtherComponent "CustomPolicy".

Definition custom_classes : Classes := {|
  is_tokenizer := is_tokenizer classes;
  is_featurizer := is_featurizer classes;
  is_policy c := is_policy classes c || bool_decide (c = CustomPolicy);
  default_priority c :=
    if bool_decide (c = CustomPolicy) then None else default_priority classes c;
  supported_data := supported_data classes;
  raise_if_featurizer_configs_are_not_compatible :=
    raise_if_featurizer_configs_are_not_compatible classes;
  raise_if_incompatible_with_domain :=
    raise_if_incompatible_with_domain classes
|}.

End ValidatorSamples.

(* ================================================================= *)
(** * Further vocabulary for methods *)

Module PyTerms.

Section Terms.
Context {W S : Type}.

(** A method that leaves the part [proj] of the object as it found it. *)
Definition keeps {A B} (proj : S -> B) (m : M W S A) : Prop :=
  forall s, proj (final (m s)) = proj s.

(** A method that, when it returns, has applied [act] with each of [xs] in
    turn to the part [proj] of the object, and done nothing else to it. *)
Definition folds {A B X} (act : B -> X -> B) (proj : S -> B) (m : M W S A)
    (xs : list X) : Prop :=
  forall s, raised (m s) = None -> proj (final (m s)) = fold_left act xs (proj s).

(** A method that, when it returns, has emitted the advisories [ws] among
    those that [p] selects; [tag] is the part of the object they mention. *)
Definition reports {A T} (p : W -> bool) (tag : S -> T) (m : M W S A)
    (ws : T -> list W) : Prop :=
  forall s, raised (m s) = None -> List.filter p (emitted (m s)) = ws (tag s).

End Terms.

(** [l.append(x)] *)
Definition append {B} (l : list B) (x : B) : list B := l ++ [x].

End PyTerms.

(** ** Further vocabulary for the reader *)

Module YamlReaderTerms.
Import YamlReader YamlReaderSpec.

Definition is_dict (v : Yaml) : bool :=
  match v with YDict _ => true | _ => false end.

(** What a loop over [value] runs through; nothing where there is no loop. *)
Definition items_of (value : Yaml) : list Yaml :=
  match iterate value with
  | inr items => items
  | inl _ => []
  end.

(** The items under the [nlu] key of a document. *)
Definition nlu_items (document : list (Key * Yaml)) : list Yaml :=
  flat_map
    (fun '(key, value) =>
       if bool_decide (key = KStr KEY_NLU) then items_of value else [])
    document.

(** Those of them that are dictionaries. *)
Definition nlu_blocks (document : list (Key * Yaml))
  : list (list (Key * Yaml)) :=
  flat_map
    (fun nlu_item => match nlu_item with YDict block => [block] | _ => [] end)
    (nlu_items document).

(** The keys and values of a block, once for every key equal to [key]: the
    block itself where it has the key, nothing where it has not. *)
Definition at_key (key : string) (block : list (Key * Yaml))
  : list (list (Key * Yaml)) :=
  flat_map (fun k => if bool_decide (k = KStr key) then [block] else [])
    (map fst block).

(** The blocks of a document that have the key [key], in document order. *)
Definition blocks_of (key : string) (document : list (Key * Yaml))
  : list (list (Key * Yaml)) :=
  flat_map (at_key key) (nlu_blocks document).

(** What a document adds to a collection, given what each key of a block
    adds: the additions of the keys of its blocks, in document order. *)
Definition per_document {X} (per_key : list (Key * Yaml) -> Key -> list X)
    (document : list (Key * Yaml)) : list X :=
  flat_map (fun block => flat_map (per_key block) (map fst block))
    (nlu_blocks document).

(** The keys [_parse_nlu] knows. *)
Definition is_block_key (key : Key) : bool :=
  bool_decide (key = KStr KEY_INTENT) || bool_decide (key = KStr KEY_SYNONYM)
  || bool_decide (key = KStr KEY_REGEX) || bool_decide (key = KStr KEY_LOOKUP).

Definition is_UnexpectedBlock (w : Advisory) : bool :=
  match w with UnexpectedBlock _ _ => true | _ => false end.

Definition is_UnexpectedKey (w : Advisory) : bool :=
  match w with UnexpectedKey _ _ => true | _ => false end.

(** An advisory about the content of a block, not about its shape. *)
Definition about_content (w : Advisory) : Prop :=
  is_UnexpectedBlock w = false /\ is_UnexpectedKey w = false.

(** *** What makes [reads] return *)

(** The examples of an intent block can be read: where the intent has a
    name and the examples are a list, every example that is true is a
    dictionary. *)
Definition readable_examples (block : list (Key * Yaml)) : Prop :=
  truthy (get_default block KEY_INTENT (YStr "")) = true ->
  forall examples,
    get_default block KEY_INTENT_EXAMPLES (YStr "") = YList examples ->
    Forall (fun example => truthy example = true -> is_dict example = true)
      examples.

Definition accepted_item (nlu_item : Yaml) : Prop :=
  match nlu_item with
  | YDict block => In (KStr KEY_INTENT) (map fst block) -> readable_examples block
  | _ => True
  end.

(** The value under an [nlu] key can be looped over, and the examples of its
    intent blocks can be read. *)
Definition accepted_nlu (value : Yaml) : Prop :=
  exists nlu_items, iterate value = inr nlu_items /\ Forall accepted_item nlu_items.

Definition accepted_document (document : list (Key * Yaml)) : Prop :=
  Forall (fun '(key, value) => key = KStr KEY_NLU -> accepted_nlu value)
    document.

(** *** What a block adds to the collected data *)

(** [example.get("text", "")] on a dictionary. *)
Definition text_of (example : Yaml) : Yaml :=
  match example with
  | YDict d => get_default d KEY_INTENT_TEXT (YStr "")
  | _ => YStr ""
  end.

(** The example strings of an intent: the texts of the true examples of a
    list, the lines of a string. *)
Definition example_strings_of (examples : Yaml) : list Yaml :=
  match examples with
  | YList l => map text_of (List.filter truthy l)
  | YStr s => map YStr (splitlines s)
  | _ => []
  end.

Definition intent_examples_of (block : list (Key * Yaml)) : list Yaml :=
  if truthy (get_default block KEY_INTENT (YStr ""))
  then example_strings_of (get_default block KEY_INTENT_EXAMPLES (YStr ""))
  else [].

Definition messages_of (H : Helpers) (block : list (Key * Yaml)) : list Message :=
  map (message_of H (get_default block KEY_INTENT (YStr "")))
    (intent_examples_of block).

(** The lines of the string under [examples_key], paired with the name
    under [name_key] where that name is true. *)
Definition named_lines (name_key examples_key : string)
    (block : list (Key * Yaml)) : list (Yaml * string) :=
  match lookup name_key block with
  | Some item_name =>
      if truthy item_name
      then
        match get_default block examples_key (YStr "") with
        | YStr s => map (fun line => (item_name, line)) (splitlines s)
        | _ => []
        end
      else []
  | None => []
  end.

Definition regex_features_of (block : list (Key * Yaml)) : list RegexFeature :=
  map (fun '(regex_name, example) =>
         {| name := regex_name; pattern := example |})
    (named_lines KEY_REGEX KEY_REGEX_EXAMPLES block).

(** One call of a synonym helper. *)
Inductive SynonymSource :=
| FromExample (example : Yaml)
| FromSynonymBlock (example : string) (synonym_name : Yaml).

Definition add_from (H : Helpers) (synonyms : list (string * Yaml))
    (source : SynonymSource) : list (string * Yaml) :=
  match source with
  | FromExample example =>
      add_synonyms_from_entities H example
        (find_entities_in_training_example H example) synonyms
  | FromSynonymBlock example synonym_name =>
      add_synonym H example synonym_name synonyms
  end.

(** The synonym sources of a block at one of its keys. *)
Definition synonym_sources_at (block : list (Key * Yaml)) (key : Key)
  : list SynonymSource :=
  if bool_decide (key = KStr KEY_INTENT)
  then map FromExample (intent_examples_of block)
  else if bool_decide (key = KStr KEY_SYNONYM)
  then map (fun '(synonym_name, example) =>
              FromSynonymBlock example synonym_name)
         (named_lines KEY_SYNONYM KEY_SYNONYM_EXAMPLES block)
  else [].

Definition synonym_sources (document : list (Key * Yaml)) : list SynonymSource :=
  per_document synonym_sources_at document.

(** [TrainingData(self.training_examples, self.entity_synonyms,
    self.regex_features, self.lookup_tables)] *)
Definition collected (self : RasaYAMLReader) : TrainingData := {|
  td_training_examples := training_examples self;
  td_entity_synonyms := entity_synonyms self;
  td_regex_features := regex_features self;
  td_lookup_tables := lookup_tables self
|}.

(** The body of the loop of [reads] over the items of the document. *)
Definition parse_entry (H : Helpers) (entry : Key * Yaml)
  : M Advisory RasaYAMLReader unit :=
  let '(key, value) := entry in
  if bool_decide (key = KStr KEY_NLU) then _parse_nlu H value else ret tt.

Definition empty_training_data : TrainingData := {|
  td_training_examples := [];
  td_entity_synonyms := [];
  td_regex_features := [];
  td_lookup_tables := []
|}.

End YamlReaderTerms.

(** ** [is_yaml_nlu_file] *)

Module YamlFile.
Import YamlReader.

(** [s.split(sep)] for a separator of one character: [segment] holds the
    characters read since the last separator. *)
Fixpoint split_from (sep : Ascii.ascii) (s segment : string) : list string :=
  match s with
  | EmptyString => [segment]
  | String c s' =>
      if Ascii.eqb c sep
      then segment :: split_from sep s' ""
      else split_from sep s' (segment ++ String c "")
  end.

Definition split (sep : Ascii.ascii) (s : string) : list string :=
  split_from sep s "".

Definition DOT : Ascii.ascii := Ascii.ascii_of_nat 46.

(** [key in content], for a string [key]: a key of a dictionary, an element
    of a list, a part of a string; other values cannot be searched. *)
Definition contains (key : string) (content : Yaml) : Exception + bool :=
  match content with
  | YDict items => inr (bool_decide (KStr key ∈ map fst items))
  | YList l =>
      inr (existsb
             (fun v => match v with YStr s => String.eqb s key | _ => false end)
             l)
  | YStr s => inr (is_substring key s)
  | YNull | YBool _ | YInt _ => inl TypeError
  end.

(** What [logger.error] is called with: the file and the exception. *)
Inductive LogRecord := FailedToRead (filename : string) (e : Exception).

Section File.
(** [rasa.data.YAML_FILE_EXTENSIONS] and [rasa.utils.io.read_yaml_file]. *)
Variable YAML_FILE_EXTENSIONS : list string.
Variable read_yaml_file : string -> Exception + Yaml.

(** The log records and the value returned. *)
Definition is_yaml_nlu_file (filename : string) : list LogRecord * bool :=
  if negb (bool_decide (List.last (split DOT filename) "" ∈ YAML_FILE_EXTENSIONS))
  then ([], false)
  else
    match read_yaml_file filename with
    | inl e => ([FailedToRead filename e], false)
    | inr content =>
        match contains KEY_NLU content with
        | inl e => ([FailedToRead filename e], false)
        | inr true => ([], true)
        | inr false => ([], false)
        end
    end.

End File.

(** The file name ends in the extension [ext], which holds no dot: it is
    [ext] itself or some [stem.ext]. *)
Definition has_extension (filename ext : string) : Prop :=
  is_substring "." ext = false /\
  (filename = ext \/ exists stem, filename = (stem ++ "." ++ ext)%string).

End YamlFile.

(** ** Further sample inputs for the reader *)

Module ReaderDocuments.
Import YamlReader YamlReaderSpec ReaderSamples.

(** A file with one block of each kind, an item that is no block, a block
    with a key the reader does not know, and a key beside [nlu]. *)
Definition mixed_yaml : string :=
  "nlu:" ++ LF ++
  "- intent: greet" ++ LF ++
  "  examples: |" ++ LF ++
  "    hello" ++ LF ++
  "    hi" ++ LF ++
  "- regex: zip" ++ LF ++
  "  examples: |" ++ LF ++
  "    [0-9]{5}" ++ LF ++
  "- lookup: city" ++ LF ++
  "  examples: |" ++ LF ++
  "    Berlin" ++ LF ++
  "    Rome" ++ LF ++
  "- synonym: NYC" ++ LF ++
  "  examples: |" ++ LF ++
  "    New York City" ++ LF ++
  "- just text" ++ LF ++
  "- colour: red" ++ LF ++
  "version: '2.0'" ++ LF.

Definition mixed_entries : list (Key * Yaml) :=
  [(KStr "nlu",
    YList
      [YDict [(KStr "intent", YStr "greet");
              (KStr "examples", YStr ("hello" ++ LF ++ "hi" ++ LF))];
       YDict [(KStr "regex", YStr "zip");
              (KStr "examples", YStr ("[0-9]{5}" ++ LF))];
       YDict [(KStr "lookup", YStr "city");
              (KStr "examples", YStr ("Berlin" ++ LF ++ "Rome" ++ LF))];
       YDict [(KStr "synonym", YStr "NYC");
              (KStr "examples", YStr ("New York City" ++ LF))];
       YStr "just text";
       YDict [(KStr "colour", YStr "red")]]);
   (KStr "version", YStr "2.0")].

(** A file of stories: no [nlu] key. *)
Definition stories_yaml : string :=
  "version: '2.0'" ++ LF ++
  "stories: []" ++ LF.

Definition stories_entries : list (Key * Yaml) :=
  [(KStr "version", YStr "2.0"); (KStr "stories", YList [])].

(** An intent whose examples are a list of strings, not of dictionaries. *)
Definition listed_yaml : string :=
  "nlu:" ++ LF ++
  "- intent: greet" ++ LF ++
  "  examples:" ++ LF ++
  "  - hello" ++ LF.

Definition listed_entries : list (Key * Yaml) :=
  [(KStr "nlu",
    YList [YDict [(KStr "intent", YStr "greet");
                  (KStr "examples", YList [YStr "hello"])]])].

(** The helpers of [plain_helpers], for these files. *)
Definition document_helpers : Helpers := {|
  read_yaml s :=
    if String.eqb s mixed_yaml then inr (YDict mixed_entries)
    else if String.eqb s stories_yaml then inr (YDict stories_entries)
    else if String.eqb s listed_yaml then inr (YDict listed_entries)
    else inl YamlError;
  find_entities_in_training_example :=
    find_entities_in_training_example plain_helpers;
  replace_entities := replace_entities plain_helpers;
  add_synonyms_from_entities := add_synonyms_from_entities plain_helpers;
  add_synonym := add_synonym plain_helpers;
  add_item_to_lookup_tables := add_item_to_lookup_tables plain_helpers
|}.

(** What [reads] makes of [mixed_yaml] with these helpers. *)
Definition mixed_data : TrainingData := {|
  td_training_examples :=
    [Message_build (YStr "hello") (YStr "greet");
     Message_build (YStr "hi") (YStr "greet")];
  td_entity_synonyms := [("New York City", YStr "NYC")];
  td_regex_features := [{| name := YStr "zip"; pattern := "[0-9]{5}" |}];
  td_lookup_tables :=
    [{| table_name := YStr "city"; elements := ["Berlin"] |};
     {| table_name := YStr "city"; elements := ["Rome"] |}]
|}.

(** A synonym block without a name that carries an intent as well. *)
Definition nameless_yaml : string :=
  "nlu:" ++ LF ++
  "- synonym: ''" ++ LF ++
  "  intent: greet" ++ LF ++
  "  examples: hello" ++ LF.

Definition nameless_block : list (Key * Yaml) :=
  [(KStr "synonym", YStr ""); (KStr "intent", YStr "greet");
   (KStr "examples", YStr "hello")].

(** The same file without the block. *)
Definition blockless_yaml : string := "nlu: []" ++ LF.

Definition nameless_helpers : Helpers := {|
  read_yaml s :=
    if String.eqb s nameless_yaml
    then inr (YDict [(KStr "nlu", YList [YDict nameless_block])])
    else if String.eqb s blockless_yaml
    then inr (YDict [(KStr "nlu", YList [])])
    else inl YamlError;
  find_entities_in_training_example :=
    find_entities_in_training_example plain_helpers;
  replace_entities := replace_entities plain_helpers;
  add_synonyms_from_entities := add_synonyms_from_entities plain_helpers;
  add_synonym := add_synonym plain_helpers;
  add_item_to_lookup_tables := add_item_to_lookup_tables plain_helpers
|}.

End ReaderDocuments.

(* ================================================================= *)
(** * Properties *)

(** ** Running methods *)

Module PyFacts.

Section MethodFacts.
Context {W S : Type}.
Implicit Types s : S.

Lemma outcome_bind {A B} (m : M W S A) (f : A -> M W S B) s :
  outcome (bind m f s) =
  match outcome (m s) with
  | inl e => inl e
  | inr a => outcome (f a (final (m s)))
  end.
Proof. unfold bind. destruct (outcome (m s)); reflexivity. Qed.

Lemma emitted_bind {A B} (m : M W S A) (f : A -> M W S B) s :
  emitted (bind m f s) =
  emitted (m s) ++
  match outcome (m s) with
  | inl _ => []
  | inr a => emitted (f a (final (m s)))
  end.
Proof.
  unfold bind. destruct (outcome (m s)); simpl; [|reflexivity].
  symmetry. apply app_nil_r.
Qed.

Lemma final_bind {A B} (m : M W S A) (f : A -> M W S B) s :
  final (bind m f s) =
  match outcome (m s) with
  | inl _ => final (m s)
  | inr a => final (f a (final (m s)))
  end.
Proof. unfold bind. destruct (outcome (m s)); reflexivity. Qed.

Lemma bind_ret {A B} (a : A) (f : A -> M W S B) s : bind (ret a) f s = f a s.
Proof. unfold bind, ret. simpl. destruct (f a s). reflexivity. Qed.

Lemma bind_get {B} (f : S -> M W S B) s : bind get f s = f s s.
Proof. unfold bind, get. simpl. destruct (f s s). reflexivity. Qed.

Lemma bind_lift {A B} (r : A) (f : A -> M W S B) s :
  bind (lift (inr r)) f s = f r s.
Proof. unfold bind, lift. simpl. destruct (f r s). reflexivity. Qed.

Lemma run_eta {A} (r : Run W S A) : r = MkRun (emitted r) (outcome r) (final r).
Proof. destruct r. reflexivity. Qed.

Lemma read_only_ret {A} (a : A) : read_only (W:=W) (S:=S) (ret a).
Proof. intros s. reflexivity. Qed.

Lemma read_only_get : read_only (W:=W) (S:=S) get.
Proof. intros s. reflexivity. Qed.

Lemma read_only_raise_warning (w : W) : read_only (S:=S) (raise_warning w).
Proof. intros s. reflexivity. Qed.

Lemma read_only_raise {A} e : read_only (W:=W) (S:=S) (raise (A := A) e).
Proof. intros s. reflexivity. Qed.

Lemma read_only_lift {A} (r : Exception + A) : read_only (W:=W) (S:=S) (lift r).
Proof. intros s. reflexivity. Qed.

Lemma read_only_bind {A B} (m : M W S A) (f : A -> M W S B) :
  read_only m -> (forall a, read_only (f a)) -> read_only (bind m f).
Proof.
  intros Hm Hf s. rewrite final_bind.
  destruct (outcome (m s)) as [e|a]; [apply Hm|].
  rewrite Hm. apply Hf.
Qed.

Lemma read_only_for_each {A} (l : list A) (body : A -> M W S unit) :
  (forall x, read_only (body x)) -> read_only (for_each l body).
Proof.
  intros Hb. induction l as [|x l IH]; simpl.
  - apply read_only_ret.
  - apply read_only_bind; [apply Hb | intros _; exact IH].
Qed.

Lemma total_ret {A} (a : A) : total (W:=W) (S:=S) (ret a).
Proof. intros s. exists a. reflexivity. Qed.

Lemma total_get : total (W:=W) (S:=S) get.
Proof. intros s. exists s. reflexivity. Qed.

Lemma total_raise_warning (w : W) : total (S:=S) (raise_warning w).
Proof. intros s. exists tt. reflexivity. Qed.

Lemma total_bind {A B} (m : M W S A) (f : A -> M W S B) :
  total m -> (forall a, total (f a)) -> total (bind m f).
Proof.
  intros Hm Hf s. rewrite outcome_bind.
  destruct (Hm s) as [a ->]. apply Hf.
Qed.

Lemma total_for_each {A} (l : list A) (body : A -> M W S unit) :
  (forall x, total (body x)) -> total (for_each l body).
Proof.
  intros Hb. induction l as [|x l IH]; simpl.
  - apply total_ret.
  - apply total_bind; [apply Hb | intros _; exact IH].
Qed.

Lemma total_unit (m : M W S unit) s : total m -> outcome (m s) = inr tt.
Proof. intros Hm. destruct (Hm s) as [[] ->]. reflexivity. Qed.

(** After a step that neither raises nor assigns, the rest runs on the
    same object and its advisories follow the step's. *)
Lemma emitted_bind_check {B} (m : M W S unit) (f : unit -> M W S B) s :
  total m -> read_only m ->
  emitted (bind m f s) = emitted (m s) ++ emitted (f tt s).
Proof.
  intros Ht Hr. rewrite emitted_bind, (total_unit m s Ht), Hr. reflexivity.
Qed.

Lemma outcome_bind_check {B} (m : M W S unit) (f : unit -> M W S B) s :
  total m -> read_only m ->
  outcome (bind m f s) = outcome (f tt s).
Proof.
  intros Ht Hr. rewrite outcome_bind, (total_unit m s Ht), Hr. reflexivity.
Qed.

End MethodFacts.

Section EmittedFacts.
Context {W S : Type}.
Implicit Types (s : S) (P : W -> Prop).

Lemma emits_only_ret {A} P (a : A) : emits_only (S:=S) P (ret a).
Proof. intros s. constructor. Qed.

Lemma emits_only_get P : emits_only (S:=S) P get.
Proof. intros s. constructor. Qed.

Lemma emits_only_raise {A} P e : emits_only (S:=S) P (raise (A:=A) e).
Proof. intros s. constructor. Qed.

Lemma emits_only_lift {A} P (r : Exception + A) : emits_only (S:=S) P (lift r).
Proof. intros s. constructor. Qed.

Lemma emits_only_raise_warning P (w : W) :
  P w -> emits_only (S:=S) P (raise_warning w).
Proof. intros Hw s. simpl. constructor; [exact Hw | constructor]. Qed.

Lemma emits_only_bind {A B} P (m : M W S A) (f : A -> M W S B) :
  emits_only P m -> (forall a, emits_only P (f a)) -> emits_only P (bind m f).
Proof.
  intros Hm Hf s. rewrite emitted_bind. apply Forall_app. split; [apply Hm|].
  destruct (outcome (m s)); [constructor | apply Hf].
Qed.

Lemma emits_only_for_each {A} P (l : list A) (body : A -> M W S unit) :
  (forall x, emits_only P (body x)) -> emits_only P (for_each l body).
Proof.
  intros Hb. induction l as [|x l IH]; simpl.
  - apply emits_only_ret.
  - apply emits_only_bind; [apply Hb | intros _; exact IH].
Qed.

Lemma emits_only_impl {A} P (Q : W -> Prop) (m : M W S A) :
  (forall w, P w -> Q w) -> emits_only P m -> emits_only Q m.
Proof. intros HPQ Hm s. eapply Forall_impl; [apply Hm | exact HPQ]. Qed.

(** Advisories rejected by a boolean test vanish under [filter]. *)
Lemma filter_emits_none {A} (p : W -> bool) (m : M W S A) s :
  emits_only (fun w => p w = false) m -> List.filter p (emitted (m s)) = [].
Proof.
  intros Hm. specialize (Hm s). induction Hm as [|w ws Hw _ IH]; simpl.
  - reflexivity.
  - rewrite Hw. exact IH.
Qed.

(** A raise ends the sequence; a return hands over to the next step. *)
Lemma bind_raises {A B} (m : M W S A) (f : A -> M W S B) s ws e s' :
  m s = MkRun ws (inl e) s' -> bind m f s = MkRun ws (inl e) s'.
Proof. intros H. unfold bind. rewrite H. reflexivity. Qed.

Lemma bind_continues {A B} (m : M W S A) (f : A -> M W S B) s ws a s' :
  m s = MkRun ws (inr a) s' ->
  bind m f s =
  MkRun (ws ++ emitted (f a s')) (outcome (f a s')) (final (f a s')).
Proof. intros H. unfold bind. rewrite H. reflexivity. Qed.

(** A sequence that returns is made of steps that return. *)
Lemma bind_returns {A B} (m : M W S A) (f : A -> M W S B) s :
  raised (bind m f s) = None ->
  exists a, outcome (m s) = inr a /\ raised (f a (final (m s))) = None.
Proof.
  unfold raised. rewrite outcome_bind.
  destruct (outcome (m s)) as [e|a]; [discriminate|].
  intros H. exists a. split; [reflexivity | exact H].
Qed.

Lemma bind_returns_read_only {A B} (m : M W S A) (f : A -> M W S B) s :
  read_only m ->
  raised (bind m f s) = None ->
  exists a,
    outcome (m s) = inr a /\ raised (f a s) = None /\
    emitted (bind m f s) = emitted (m s) ++ emitted (f a s).
Proof.
  intros Hr H. destruct (bind_returns m f s H) as (a & Ha & Hf).
  rewrite Hr in Hf. exists a. split; [exact Ha|]. split; [exact Hf|].
  rewrite emitted_bind, Ha, Hr. reflexivity.
Qed.

Lemma filter_emitted_bind {A B} (p : W -> bool) (m : M W S A)
    (f : A -> M W S B) s a :
  outcome (m s) = inr a ->
  List.filter p (emitted (bind m f s)) =
  List.filter p (emitted (m s)) ++ List.filter p (emitted (f a (final (m s)))).
Proof.
  intros Ha. rewrite emitted_bind, Ha. apply List.filter_app.
Qed.

End EmittedFacts.

Section AgreeFacts.
Context {W S : Type}.
Implicit Types (s : S) (R : S -> S -> Prop).

Lemma agree_ret {A} R (a : A) : agree (W:=W) R (ret a) (ret a).
Proof. intros s1 s2 HR. split; [reflexivity | exact HR]. Qed.

Lemma agree_raise {A} R e : agree (W:=W) R (raise (A:=A) e) (raise e).
Proof. intros s1 s2 HR. split; [reflexivity | exact HR]. Qed.

Lemma agree_lift {A} R (r : Exception + A) : agree (W:=W) R (lift r) (lift r).
Proof. intros s1 s2 HR. split; [reflexivity | exact HR]. Qed.

Lemma agree_raise_warning R (w1 w2 : W) :
  agree R (raise_warning w1) (raise_warning w2).
Proof. intros s1 s2 HR. split; [reflexivity | exact HR]. Qed.

Lemma agree_modify R (f : S -> S) :
  (forall s1 s2, R s1 s2 -> R (f s1) (f s2)) ->
  agree (W:=W) R (modify f) (modify f).
Proof. intros Hf s1 s2 HR. split; [reflexivity | apply Hf; exact HR]. Qed.

Lemma agree_bind {A B} R (m1 m2 : M W S A) (f1 f2 : A -> M W S B) :
  agree R m1 m2 -> (forall a, agree R (f1 a) (f2 a)) ->
  agree R (bind m1 f1) (bind m2 f2).
Proof.
intros Hm Hf s1 s2 HR. destruct (Hm s1 s2 HR) as [Ho Hs].
rewrite !outcome_bind, !final_bind, Ho.
destruct (outcome (m2 s2)) as [e|a].
- split; [reflexivity | exact Hs].
- apply Hf. exact Hs.
Qed.

Lemma agree_for_each {A} R (l : list A) (body1 body2 : A -> M W S unit) :
  (forall x, agree R (body1 x) (body2 x)) ->
  agree R (for_each l body1) (for_each l body2).
Proof.
intros Hb. induction l as [|x l IH]; simpl.
- apply agree_ret.
- apply agree_bind; [apply Hb | intros _; exact IH].
Qed.

Lemma agree_bind_lift {A B} R (a1 a2 : A) (f : A -> M W S B) :
  agree R (f a1) (f a2) ->
  agree R (bind (lift (inr a1)) f) (bind (lift (inr a2)) f).
Proof. intros Hf s1 s2 HR. rewrite !bind_lift. apply Hf. exact HR. Qed.

(** A method agrees with itself on one and the same object. *)
Lemma agree_refl {A} (m : M W S A) : agree eq m m.
Proof. intros s1 s2 <-. split; reflexivity. Qed.

Lemma agree_trans {A} (m1 m2 m3 : M W S A) :
  agree eq m1 m2 -> agree eq m2 m3 -> agree eq m1 m3.
Proof.
intros H12 H23 s1 s2 <-.
destruct (H12 s1 s1 eq_refl) as [-> ->]. apply H23. reflexivity.
Qed.

(** A step that returns and leaves the object alone can be dropped from a
    loop, whatever it emits. *)
Lemma agree_bind_skip {B} (m : M W S unit) (k : M W S B) :
  total m -> read_only m -> agree eq (bind m (fun _ => k)) k.
Proof.
intros Ht Hr s1 s2 <-.
rewrite outcome_bind, final_bind, (total_unit m s1 Ht), Hr.
split; reflexivity.
Qed.

Lemma agree_for_each_skip {A} (pre post : list A) (x : A)
    (body : A -> M W S unit) :
  total (body x) -> read_only (body x) ->
  agree eq (for_each (pre ++ x :: post) body) (for_each (pre ++ post) body).
Proof.
intros Ht Hr. induction pre as [|y pre IH]; simpl.
- apply agree_bind_skip; assumption.
- apply agree_bind; [apply agree_refl | intros _; exact IH].
Qed.

(** One element of a loop replaced by another whose step ends alike. *)
Lemma agree_for_each_replace {A} (pre post : list A) (x y : A)
    (body : A -> M W S unit) :
  agree eq (body x) (body y) ->
  agree eq (for_each (pre ++ x :: post) body) (for_each (pre ++ y :: post) body).
Proof.
intros Hxy. induction pre as [|z pre IH]; simpl.
- apply agree_bind; [exact Hxy | intros _; apply agree_refl].
- apply agree_bind; [apply agree_refl | intros _; exact IH].
Qed.

(** In a loop of steps that return and leave the object alone, what one step
    emits is emitted by the loop. *)
Lemma emitted_for_each_In {A} (l : list A) (body : A -> M W S unit) x w s :
  (forall y, total (body y)) -> (forall y, read_only (body y)) ->
  In x l -> In w (emitted (body x s)) -> In w (emitted (for_each l body s)).
Proof.
intros Ht Hr. induction l as [|y l IH]; intros Hx Hw; [destruct Hx|].
simpl. rewrite emitted_bind_check by auto. apply in_or_app.
destruct Hx as [-> | Hx]; [left; exact Hw | right; auto].
Qed.

End AgreeFacts.

Section RaisedFacts.
Context {W S : Type}.
Implicit Types s : S.

(** A sequence of two steps returns when both do. *)
Lemma raised_seq {B} (m : M W S unit) (k : M W S B) s :
  read_only m ->
  raised (bind m (fun _ => k) s) = None <->
  raised (m s) = None /\ raised (k s) = None.
Proof.
intros Hr. unfold raised. rewrite outcome_bind, Hr.
destruct (outcome (m s)) as [e | []].
- split; [discriminate | intros [H _]; discriminate].
- split; [intros H; split; [reflexivity | exact H] | intros [_ H]; exact H].
Qed.

Lemma raised_total {A} (m : M W S A) s : total m -> raised (m s) = None.
Proof. intros Ht. unfold raised. destruct (Ht s) as [a ->]. reflexivity. Qed.

Lemma raised_lift {A B} (r : Exception + A) (f : A -> M W S B) s :
  (forall a, total (f a)) ->
  raised (bind (lift r) f s) = match r with inl e => Some e | inr _ => None end.
Proof.
intros Ht. destruct r as [e | a].
- reflexivity.
- rewrite bind_lift. apply raised_total, Ht.
Qed.

(** A loop splits where its list does. *)
Lemma for_each_app {A} (l1 l2 : list A) (body : A -> M W S unit) s :
  for_each (l1 ++ l2) body s
  = bind (for_each l1 body) (fun _ => for_each l2 body) s.
Proof.
revert s. induction l1 as [|x l1 IH]; intros s; simpl.
- rewrite bind_ret. reflexivity.
- unfold bind in *.
  destruct (body x s) as [ws [e | []] s']; simpl; [reflexivity|].
  rewrite IH.
  destruct (for_each l1 body s') as [ws1 [e1 | []] s1]; simpl; [reflexivity|].
  rewrite app_assoc. reflexivity.
Qed.

(** An advisory of a sequence comes from its first step, or from the rest
    once the first step has returned. *)
Lemma In_emitted_bind {A B} (m : M W S A) (f : A -> M W S B) s w :
  In w (emitted (bind m f s)) ->
  In w (emitted (m s)) \/
  exists a, outcome (m s) = inr a /\ In w (emitted (f a (final (m s)))).
Proof.
rewrite emitted_bind. intros Hin. apply in_app_or in Hin.
destruct Hin as [Hin | Hin]; [left; exact Hin|].
destruct (outcome (m s)) as [e | a]; [destruct Hin|].
right. exists a. split; [reflexivity | exact Hin].
Qed.

Lemma In_emitted_seq {B} (m : M W S unit) (k : M W S B) s w :
  read_only m ->
  In w (emitted (bind m (fun _ => k) s)) ->
  In w (emitted (m s)) \/
  (raised (m s) = None /\ In w (emitted (k s))).
Proof.
intros Hr Hin. apply In_emitted_bind in Hin.
destruct Hin as [Hin | (a & Ha & Hin)]; [left; exact Hin|].
right. rewrite Hr in Hin. split; [|exact Hin].
unfold raised. rewrite Ha. reflexivity.
Qed.

Lemma emits_only_In {A} (P : W -> Prop) (m : M W S A) s w :
  emits_only P m -> In w (emitted (m s)) -> P w.
Proof.
intros Hm Hin. specialize (Hm s). rewrite List.Forall_forall in Hm.
apply Hm. exact Hin.
Qed.

Lemma raised_seq_Some {B} (m : M W S unit) (k : M W S B) s e :
  read_only m ->
  raised (bind m (fun _ => k) s) = Some e ->
  raised (m s) = Some e \/ (raised (m s) = None /\ raised (k s) = Some e).
Proof.
intros Hr. unfold raised. rewrite outcome_bind, Hr.
destruct (outcome (m s)) as [e' | []]; [left | right]; auto.
Qed.

End RaisedFacts.

End PyFacts.

(** ** Configuration values *)

Module CValFacts.

(** Induction on a value, with the hypothesis on every element of a list. *)
Fixpoint CVal_nested_ind (P : CVal -> Prop)
    (HNone : P VNone) (HInt : forall z, P (VInt z)) (HStr : forall s, P (VStr s))
    (HList : forall l, Forall P l -> P (VList l)) (v : CVal) : P v :=
  match v with
  | VNone => HNone
  | VInt z => HInt z
  | VStr s => HStr s
  | VList l =>
      HList l
        ((fix go (l : list CVal) : Forall P l :=
            match l with
            | [] => @List.Forall_nil CVal P
            | x :: l' =>
                @List.Forall_cons CVal P x l'
                  (CVal_nested_ind P HNone HInt HStr HList x) (go l')
            end) l)
  end.

Lemma CVal_eqb_eq (a b : CVal) : CVal_eqb a b = true <-> a = b.
Proof.
revert b. induction a as [| z | s | l IH] using CVal_nested_ind;
  intros [| z' | s' | l']; simpl; try (split; [discriminate | congruence]).
- split; reflexivity.
- rewrite bool_decide_eq_true. split; congruence.
- rewrite bool_decide_eq_true. split; congruence.
- revert l'. induction IH as [| x l Hx _ IHl]; intros [| y l'].
  + split; reflexivity.
  + split; [discriminate | congruence].
  + split; [discriminate | congruence].
  + rewrite andb_true_iff, Hx.
    specialize (IHl l'). split.
    * intros [-> Hl]. apply IHl in Hl. congruence.
    * intros H. injection H as -> ->. split; [reflexivity|].
      apply IHl. reflexivity.
Qed.

Lemma CVal_eqb_refl (a : CVal) : CVal_eqb a a = true.
Proof. apply CVal_eqb_eq. reflexivity. Qed.

Lemma CVal_eqb_neq (a b : CVal) : CVal_eqb a b = false <-> a <> b.
Proof.
rewrite <- CVal_eqb_eq. destruct (CVal_eqb a b); split; congruence.
Qed.

#[export] Instance CVal_eq_dec : EqDecision CVal.
Proof.
intros a b. destruct (CVal_eqb a b) eqn:E.
- left. apply CVal_eqb_eq. exact E.
- right. apply CVal_eqb_neq. exact E.
Defined.

End CValFacts.

(** ** The recipe validator *)

Module ValidatorFacts.
Import PyFacts CValFacts Validator ValidatorSpec.

Create HintDb method discriminated.

#[export] Hint Resolve
  read_only_ret read_only_get read_only_raise_warning read_only_raise
  read_only_lift read_only_bind read_only_for_each : method.
#[export] Hint Resolve
  total_ret total_get total_raise_warning total_bind total_for_each : method.
#[export] Hint Resolve
  emits_only_ret emits_only_get emits_only_raise emits_only_lift
  emits_only_raise_warning emits_only_bind emits_only_for_each : method.

(** Breaks a method body down to its primitive steps; each step is then
    closed from the hint base. *)
Ltac method_cases :=
  repeat lazymatch goal with
    | |- _ (if ?b then _ else _) => destruct b
    | |- _ (match ?x with _ => _ end) => destruct x
    | |- _ (let _ := _ in _) => cbv zeta
    | |- _ (bind _ _) =>
        first [ apply read_only_bind | apply total_bind | apply emits_only_bind ];
        [| intros ? ]
    | |- _ (for_each _ _) =>
        first [ apply read_only_for_each | apply total_for_each
              | apply emits_only_for_each ];
        intros ?
    | |- _ => fail
    end.

Ltac method_auto := intros; method_cases; auto 6 with method.

Section Facts.
Variable K : Classes.

Abbreviation Method := (M Advisory DefaultV1RecipeValidator).
Implicit Types (self : DefaultV1RecipeValidator) (importer : TrainingDataImporter).

(** *** No method assigns to [self] *)

Lemma read_only_when b (m : Method unit) : read_only m -> read_only (when b m).
Proof. intros Hm. destruct b; simpl; auto with method. Qed.

Lemma total_when b (m : Method unit) : total m -> total (when b m).
Proof. intros Hm. destruct b; simpl; auto with method. Qed.

Lemma emits_only_when P b (m : Method unit) :
  emits_only P m -> emits_only P (when b m).
Proof. intros Hm. destruct b; simpl; auto with method. Qed.

Hint Resolve read_only_when total_when emits_only_when : method.

Lemma read_only__raise_if_more_than_one_tokenizer :
  read_only (_raise_if_more_than_one_tokenizer K).
Proof. unfold _raise_if_more_than_one_tokenizer. method_auto. Qed.

Lemma read_only__raise_if_featurizers_are_not_compatible :
  read_only (_raise_if_featurizers_are_not_compatible K).
Proof. unfold _raise_if_featurizers_are_not_compatible. method_auto. Qed.

Lemma read_only__warn_of_competing_extractors :
  read_only _warn_of_competing_extractors.
Proof. unfold _warn_of_competing_extractors. method_auto. Qed.

Lemma read_only__warn_of_competition_with_regex_extractor training_data :
  read_only (_warn_of_competition_with_regex_extractor training_data).
Proof. unfold _warn_of_competition_with_regex_extractor. method_auto. Qed.

Lemma read_only__warn_if_some_training_data_is_unused training_data :
  read_only (_warn_if_some_training_data_is_unused training_data).
Proof.
  unfold _warn_if_some_training_data_is_unused. method_cases.
  all: repeat (apply read_only_when); method_auto.
Qed.

Hint Resolve
  read_only__raise_if_more_than_one_tokenizer
  read_only__raise_if_featurizers_are_not_compatible
  read_only__warn_of_competing_extractors
  read_only__warn_of_competition_with_regex_extractor
  read_only__warn_if_some_training_data_is_unused : method.

Lemma read_only__validate_nlu training_data :
  read_only (_validate_nlu K training_data).
Proof. unfold _validate_nlu. method_auto. Qed.

Lemma read_only__warn_if_no_rule_policy_is_contained :
  read_only _warn_if_no_rule_policy_is_contained.
Proof. unfold _warn_if_no_rule_policy_is_contained. method_auto. Qed.

Lemma read_only__raise_if_domain_contains_form_names_but_no_rule_policy_given
    domain :
  read_only
    (_raise_if_domain_contains_form_names_but_no_rule_policy_given domain).
Proof.
  unfold _raise_if_domain_contains_form_names_but_no_rule_policy_given.
  method_auto.
Qed.

Lemma read_only__raise_if_a_rule_policy_is_incompatible_with_domain domain :
  read_only (_raise_if_a_rule_policy_is_incompatible_with_domain K domain).
Proof.
  unfold _raise_if_a_rule_policy_is_incompatible_with_domain. method_auto.
Qed.

Lemma read_only__warn_if_priorities_are_not_unique :
  read_only (_warn_if_priorities_are_not_unique K).
Proof.
  unfold _warn_if_priorities_are_not_unique. method_cases.
  all: try match goal with x : _ * _ |- _ => destruct x end; method_auto.
Qed.

Lemma read_only__warn_if_rule_based_data_is_unused_or_missing story_graph :
  read_only (_warn_if_rule_based_data_is_unused_or_missing K story_graph).
Proof. unfold _warn_if_rule_based_data_is_unused_or_missing. method_auto. Qed.

Hint Resolve
  read_only__validate_nlu
  read_only__warn_if_no_rule_policy_is_contained
  read_only__raise_if_domain_contains_form_names_but_no_rule_policy_given
  read_only__raise_if_a_rule_policy_is_incompatible_with_domain
  read_only__warn_if_priorities_are_not_unique
  read_only__warn_if_rule_based_data_is_unused_or_missing : method.

Lemma read_only__validate_core story_graph domain :
  read_only (_validate_core K story_graph domain).
Proof. unfold _validate_core. method_auto. Qed.

Hint Resolve read_only__validate_core : method.

Lemma read_only_validate importer : read_only (validate K importer).
Proof. unfold validate. method_auto. Qed.

(** *** The advisory-only checks never raise *)

Lemma total__warn_of_competing_extractors :
  total _warn_of_competing_extractors.
Proof. unfold _warn_of_competing_extractors. method_auto. Qed.

Lemma total__warn_of_competition_with_regex_extractor training_data :
  total (_warn_of_competition_with_regex_extractor training_data).
Proof. unfold _warn_of_competition_with_regex_extractor. method_auto. Qed.

Lemma total__warn_if_no_rule_policy_is_contained :
  total _warn_if_no_rule_policy_is_contained.
Proof. unfold _warn_if_no_rule_policy_is_contained. method_auto. Qed.

Lemma total__warn_if_rule_based_data_is_unused_or_missing story_graph :
  total (_warn_if_rule_based_data_is_unused_or_missing K story_graph).
Proof. unfold _warn_if_rule_based_data_is_unused_or_missing. method_auto. Qed.

(** *** Multiple tokenizers *)

Lemma _raise_if_more_than_one_tokenizer_raises self :
  (1 < length (tokenizer_nodes K (_graph_schema self)))%nat ->
  _raise_if_more_than_one_tokenizer K self
  = MkRun [] (inl InvalidConfigException) self.
Proof.
  intros H. unfold _raise_if_more_than_one_tokenizer, bind, get. simpl.
  rewrite length_map. fold (tokenizer_nodes K (_graph_schema self)).
  apply Nat.ltb_lt in H. rewrite H. reflexivity.
Qed.

Lemma _raise_if_more_than_one_tokenizer_passes self :
  (length (tokenizer_nodes K (_graph_schema self)) <= 1)%nat ->
  _raise_if_more_than_one_tokenizer K self = MkRun [] (inr tt) self.
Proof.
  intros H. unfold _raise_if_more_than_one_tokenizer, bind, get. simpl.
  rewrite length_map. fold (tokenizer_nodes K (_graph_schema self)).
  apply Nat.ltb_ge in H. rewrite H. reflexivity.
Qed.

(** C1. A schema with more than one tokenizer node makes [validate] raise
    [InvalidConfigException], before any advisory is emitted and whatever
    the training data, the story graph and the domain are. *)
Theorem validate_raises_on_several_tokenizers g importer :
  (1 < length (tokenizer_nodes K g))%nat ->
  validate K importer (__init__ K g)
  = MkRun [] (inl InvalidConfigException) (__init__ K g).
Proof.
  intros H. unfold validate, _validate_nlu.
  do 2 apply bind_raises.
  apply _raise_if_more_than_one_tokenizer_raises. exact H.
Qed.

(** *** Pass-through *)

(** C8. When [validate] returns, it returns the importer it was given, and
    the validator object, with its component types and policy nodes, is
    the one it was called on. *)
Theorem validate_passes_importer_through importer self r :
  returned (validate K importer self) = Some r ->
  r = importer /\ final (validate K importer self) = self.
Proof.
  intros H. split; [|apply read_only_validate].
  unfold returned, validate in H. rewrite !outcome_bind in H.
  destruct (outcome (_validate_nlu K _ self)); [discriminate|].
  destruct (outcome (_validate_core K _ _ _)); [discriminate|].
  simpl in H. congruence.
Qed.

(** *** How the advisories of [validate] are assembled *)

Lemma emitted_validate importer self :
  emitted (validate K importer self) =
  emitted (_validate_nlu K (get_nlu_data importer) self) ++
  match outcome (_validate_nlu K (get_nlu_data importer) self) with
  | inl _ => []
  | inr _ =>
      emitted (_validate_core K (get_stories importer) (get_domain importer) self)
  end.
Proof.
  unfold validate. rewrite emitted_bind. f_equal.
  destruct (outcome (_validate_nlu K _ self)); [reflexivity|].
  rewrite read_only__validate_nlu, emitted_bind.
  destruct (outcome (_validate_core K _ _ self)); apply app_nil_r.
Qed.

Lemma _raise_if_featurizers_are_not_compatible_passes self :
  raise_if_featurizer_configs_are_not_compatible K
    (featurizer_configs K (_graph_schema self)) = None ->
  _raise_if_featurizers_are_not_compatible K self = MkRun [] (inr tt) self.
Proof.
  intros H. unfold _raise_if_featurizers_are_not_compatible, bind, get. simpl.
  fold (featurizer_configs K (_graph_schema self)). rewrite H. reflexivity.
Qed.

(** Once the two hard checks pass, the NLU pass is its three advisory
    checks in a row. *)
Lemma emitted__validate_nlu training_data self :
  (length (tokenizer_nodes K (_graph_schema self)) <= 1)%nat ->
  raise_if_featurizer_configs_are_not_compatible K
    (featurizer_configs K (_graph_schema self)) = None ->
  emitted (_validate_nlu K training_data self) =
  emitted (_warn_of_competing_extractors self) ++
  emitted (_warn_of_competition_with_regex_extractor training_data self) ++
  emitted (_warn_if_some_training_data_is_unused training_data self).
Proof.
  intros Htok Hfeat. unfold _validate_nlu.
  rewrite (bind_continues _ _ _ _ _ _
             (_raise_if_more_than_one_tokenizer_passes self Htok)).
  rewrite (bind_continues _ _ _ _ _ _
             (_raise_if_featurizers_are_not_compatible_passes self Hfeat)).
  simpl.
  rewrite emitted_bind_check
    by auto using total__warn_of_competing_extractors with method.
  rewrite emitted_bind_check
    by auto using total__warn_of_competition_with_regex_extractor with method.
  reflexivity.
Qed.

(** *** Which check emits which advisory *)

Lemma emitter__warn_of_competing_extractors :
  emits_only (fun w => emitter w = CompetingExtractorsCheck)
    _warn_of_competing_extractors.
Proof. unfold _warn_of_competing_extractors. method_auto. Qed.

Lemma emitter__warn_of_competition_with_regex_extractor training_data :
  emits_only (fun w => emitter w = RegexCompetitionCheck)
    (_warn_of_competition_with_regex_extractor training_data).
Proof. unfold _warn_of_competition_with_regex_extractor. method_auto. Qed.

Lemma emitter__warn_if_some_training_data_is_unused training_data :
  emits_only (fun w => emitter w = UnusedDataCheck)
    (_warn_if_some_training_data_is_unused training_data).
Proof.
  unfold _warn_if_some_training_data_is_unused. method_cases.
  all: repeat (apply emits_only_when); method_auto.
Qed.

Lemma emitter__warn_if_no_rule_policy_is_contained :
  emits_only (fun w => emitter w = RulePolicyPresenceCheck)
    _warn_if_no_rule_policy_is_contained.
Proof. unfold _warn_if_no_rule_policy_is_contained. method_auto. Qed.

Lemma emitter__warn_if_priorities_are_not_unique :
  emits_only (fun w => emitter w = PriorityCheck)
    (_warn_if_priorities_are_not_unique K).
Proof.
  unfold _warn_if_priorities_are_not_unique. method_cases.
  all: try match goal with x : _ * _ |- _ => destruct x end; method_auto.
Qed.

Lemma emitter__warn_if_rule_based_data_is_unused_or_missing story_graph :
  emits_only (fun w => emitter w = RuleDataCheck)
    (_warn_if_rule_based_data_is_unused_or_missing K story_graph).
Proof. unfold _warn_if_rule_based_data_is_unused_or_missing. method_auto. Qed.

(** The checks that raise emit nothing. *)
Lemma silent__raise_if_more_than_one_tokenizer P :
  emits_only P (_raise_if_more_than_one_tokenizer K).
Proof. unfold _raise_if_more_than_one_tokenizer. method_auto. Qed.

Lemma silent__raise_if_featurizers_are_not_compatible P :
  emits_only P (_raise_if_featurizers_are_not_compatible K).
Proof. unfold _raise_if_featurizers_are_not_compatible. method_auto. Qed.

Lemma silent__raise_if_domain_contains_form_names_but_no_rule_policy_given
    P domain :
  emits_only P
    (_raise_if_domain_contains_form_names_but_no_rule_policy_given domain).
Proof.
  unfold _raise_if_domain_contains_form_names_but_no_rule_policy_given.
  method_auto.
Qed.

Lemma silent__raise_if_a_rule_policy_is_incompatible_with_domain P domain :
  emits_only P (_raise_if_a_rule_policy_is_incompatible_with_domain K domain).
Proof.
  unfold _raise_if_a_rule_policy_is_incompatible_with_domain. method_auto.
Qed.

Hint Resolve
  silent__raise_if_more_than_one_tokenizer
  silent__raise_if_featurizers_are_not_compatible
  silent__raise_if_domain_contains_form_names_but_no_rule_policy_given
  silent__raise_if_a_rule_policy_is_incompatible_with_domain : method.

(** An advisory of one check is none of another's. *)
Lemma emits_other {A} (p : Advisory -> bool) (c : Emitter) (m : Method A) :
  (forall w, p w = true -> emitter w <> c) ->
  emits_only (fun w => emitter w = c) m ->
  emits_only (fun w => p w = false) m.
Proof.
  intros Hp. apply emits_only_impl. intros w Hw.
  destruct (p w) eqn:E; [|reflexivity]. destruct (Hp w E Hw).
Qed.

Ltac other_emitter Hp :=
  first
    [ solve [auto with method]
    | eapply emits_other;
      [| first
           [ apply emitter__warn_of_competing_extractors
           | apply emitter__warn_of_competition_with_regex_extractor
           | apply emitter__warn_if_some_training_data_is_unused
           | apply emitter__warn_if_no_rule_policy_is_contained
           | apply emitter__warn_if_priorities_are_not_unique
           | apply emitter__warn_if_rule_based_data_is_unused_or_missing ] ];
      let w := fresh "w" in
      let Hw := fresh "Hw" in
      intros w Hw; destruct (Hp w Hw) as (? & ? & ?); tauto ].

Lemma _validate_nlu_emits_other (p : Advisory -> bool) training_data :
  (forall w, p w = true ->
     emitter w <> CompetingExtractorsCheck /\
     emitter w <> RegexCompetitionCheck /\
     emitter w <> UnusedDataCheck) ->
  emits_only (fun w => p w = false) (_validate_nlu K training_data).
Proof.
  intros Hp. unfold _validate_nlu. method_cases; other_emitter Hp.
Qed.

Lemma _validate_core_emits_other (p : Advisory -> bool) story_graph domain :
  (forall w, p w = true ->
     emitter w <> PolicyPresenceCheck /\
     emitter w <> RulePolicyPresenceCheck /\
     emitter w <> PriorityCheck /\
     emitter w <> RuleDataCheck) ->
  emits_only (fun w => p w = false) (_validate_core K story_graph domain).
Proof.
  intros Hp.
  assert (Hnp : p NoPolicyConfigured = false).
  { destruct (p NoPolicyConfigured) eqn:E; [|reflexivity].
    destruct (Hp _ E) as [H _]. destruct (H eq_refl). }
  unfold _validate_core. method_cases; other_emitter Hp.
Qed.

(** *** Forms without a rule policy *)

Lemma truthy_filter_exists {A} (f : A -> bool) (l : list A) :
  (exists x, In x l /\ f x = true) -> truthy (List.filter f l) = true.
Proof.
intros (x & Hx & Hf).
assert (Hin : In x (List.filter f l)) by (apply List.filter_In; auto).
destruct (List.filter f l); [destruct Hin | reflexivity].
Qed.

Lemma no_rule_policy_node (l : list SchemaNode) :
  (forall n, In n l -> uses n <> RulePolicyGraphComponent) ->
  List.filter
    (fun schema_node => bool_decide (uses schema_node = RulePolicyGraphComponent))
    l = [].
Proof.
induction l as [|n l IH]; intros H; simpl; [reflexivity|].
rewrite bool_decide_eq_false_2 by (apply H; left; reflexivity).
apply IH. intros m Hm. apply H. right. exact Hm.
Qed.

Lemma _raise_if_domain_contains_form_names_but_no_rule_policy_given_raises
    domain self :
  form_names domain <> [] ->
  (forall n, In n (values (_graph_schema self)) ->
     uses n <> RulePolicyGraphComponent) ->
  _raise_if_domain_contains_form_names_but_no_rule_policy_given domain self
  = MkRun [] (inl InvalidDomain) self.
Proof.
intros Hforms Hnone.
unfold _raise_if_domain_contains_form_names_but_no_rule_policy_given, bind, get.
simpl. rewrite no_rule_policy_node by exact Hnone.
destruct (form_names domain); [contradiction|reflexivity].
Qed.

(** With policy nodes in the schema, the core pass goes on to its checks. *)
Lemma _validate_core_with_policies story_graph domain self :
  truthy (_policy_schema_nodes self) = true ->
  _validate_core K story_graph domain self =
  (_warn_if_no_rule_policy_is_contained ;;
   _raise_if_domain_contains_form_names_but_no_rule_policy_given domain ;;
   _raise_if_a_rule_policy_is_incompatible_with_domain K domain ;;
   _warn_if_priorities_are_not_unique K ;;
   _warn_if_rule_based_data_is_unused_or_missing K story_graph) self.
Proof.
intros H. unfold _validate_core.
rewrite bind_get, H. cbn [negb andb when]. rewrite bind_ret. reflexivity.
Qed.

(** Without policy nodes it stops early, and never raises. *)
Lemma _validate_core_without_policies story_graph domain self :
  _policy_schema_nodes self = [] ->
  raised (_validate_core K story_graph domain self) = None.
Proof.
intros H. unfold _validate_core. rewrite bind_get, H.
unfold raised, bind, when. simpl.
destruct (truthy (story_steps story_graph)); reflexivity.
Qed.

(** C2, as amended. With a form in the domain and no rule-policy node in a
    schema that has at least one policy node, [validate] raises; it raises
    [InvalidDomain] whenever the NLU pass before it completes. *)
Theorem validate_raises_on_forms_without_rule_policy g importer :
  form_names (get_domain importer) <> [] ->
  (forall n, In n (values g) -> uses n <> RulePolicyGraphComponent) ->
  (exists n, In n (values g) /\ is_policy K (uses n) = true) ->
  raised (validate K importer (__init__ K g)) <> None /\
  (raised (_validate_nlu K (get_nlu_data importer) (__init__ K g)) = None ->
   raised (validate K importer (__init__ K g)) = Some InvalidDomain).
Proof.
intros Hforms Hnone Hpol.
set (self := __init__ K g).
assert (Hcore :
  outcome (_validate_core K (get_stories importer) (get_domain importer) self)
  = inl InvalidDomain).
{ rewrite _validate_core_with_policies
    by (apply (truthy_filter_exists _ _ Hpol)).
  rewrite outcome_bind_check
    by auto using total__warn_if_no_rule_policy_is_contained with method.
  rewrite outcome_bind.
  rewrite _raise_if_domain_contains_form_names_but_no_rule_policy_given_raises
    by assumption.
  reflexivity. }
assert (Hval : forall a,
  outcome (_validate_nlu K (get_nlu_data importer) self) = inr a ->
  raised (validate K importer self) = Some InvalidDomain).
{ intros a Ha. unfold raised, validate. rewrite outcome_bind, Ha.
  rewrite read_only__validate_nlu, outcome_bind, Hcore. reflexivity. }
split.
- destruct (outcome (_validate_nlu K (get_nlu_data importer) self)) eqn:E.
  + unfold raised, validate. rewrite outcome_bind, E. discriminate.
  + rewrite (Hval _ eq_refl). discriminate.
- unfold raised at 1.
  destruct (outcome (_validate_nlu K (get_nlu_data importer) self)) eqn:E;
    [discriminate|].
  intros _. exact (Hval _ eq_refl).
Qed.

(** *** Competing extractors *)

Lemma size_two_elements (X : gset ComponentType) t1 t2 :
  t1 <> t2 -> t1 ∈ X -> t2 ∈ X -> (1 < size X)%nat.
Proof.
intros Hne H1 H2.
assert (Hsub : ({[t1]} ∪ {[t2]} : gset ComponentType) ⊆ X).
{ intros t Ht. apply elem_of_union in Ht.
  destruct Ht as [Ht | Ht]; apply elem_of_singleton in Ht; subst t; assumption. }
apply subseteq_size in Hsub.
rewrite size_union in Hsub
  by (apply disjoint_singleton_l, not_elem_of_singleton; exact Hne).
rewrite !size_singleton in Hsub. lia.
Qed.

Lemma elem_of_intersection_list (X : gset ComponentType) l t :
  t ∈ intersection X l <-> t ∈ X /\ In t l.
Proof.
unfold intersection. rewrite elem_of_intersection, elem_of_list_to_set.
rewrite list_elem_of_In. reflexivity.
Qed.

Lemma elem_of_component_types g t :
  t ∈ _component_types (__init__ K g) <-> In t (map uses (values g)).
Proof. simpl. rewrite elem_of_list_to_set. apply list_elem_of_In. Qed.

Lemma emitted__warn_of_competing_extractors self :
  emitted (_warn_of_competing_extractors self) =
  if bool_decide
       (1 < size (intersection (_component_types self) TRAINABLE_EXTRACTORS))%nat
  then [CompetingExtractors
          (elements (intersection (_component_types self) TRAINABLE_EXTRACTORS))]
  else [].
Proof.
unfold _warn_of_competing_extractors. rewrite bind_get. cbv zeta.
destruct (bool_decide _); reflexivity.
Qed.

(** C3, as amended. With two or more trainable extractors in a schema that
    passes the tokenizer and featurizer checks, [validate] emits the
    competing-extractors advisory exactly once, naming the trainable
    extractors present; other advisories and a later raise stay possible. *)
Theorem validate_warns_once_of_competing_extractors g importer t1 t2 :
  t1 <> t2 ->
  In t1 TRAINABLE_EXTRACTORS -> In t2 TRAINABLE_EXTRACTORS ->
  In t1 (map uses (values g)) -> In t2 (map uses (values g)) ->
  (length (tokenizer_nodes K g) <= 1)%nat ->
  raise_if_featurizer_configs_are_not_compatible K (featurizer_configs K g)
  = None ->
  List.filter is_CompetingExtractors
    (emitted (validate K importer (__init__ K g)))
  = [CompetingExtractors
       (elements
          (intersection (_component_types (__init__ K g)) TRAINABLE_EXTRACTORS))].
Proof.
intros Hne Ht1 Ht2 Hu1 Hu2 Htok Hfeat.
set (self := __init__ K g).
assert (Hsize :
  (1 < size (intersection (_component_types self) TRAINABLE_EXTRACTORS))%nat).
{ apply (size_two_elements _ t1 t2 Hne);
    apply elem_of_intersection_list; split; auto;
    apply elem_of_component_types; assumption. }
rewrite emitted_validate, List.filter_app.
rewrite emitted__validate_nlu by assumption.
rewrite !List.filter_app.
rewrite emitted__warn_of_competing_extractors.
rewrite bool_decide_eq_true_2 by exact Hsize.
rewrite (filter_emits_none is_CompetingExtractors
           (_warn_of_competition_with_regex_extractor _)).
2:{ eapply emits_other;
      [|apply emitter__warn_of_competition_with_regex_extractor].
    intros []; simpl; congruence. }
rewrite (filter_emits_none is_CompetingExtractors
           (_warn_if_some_training_data_is_unused _)).
2:{ eapply emits_other; [|apply emitter__warn_if_some_training_data_is_unused].
    intros []; simpl; congruence. }
assert (Hcore :
  List.filter is_CompetingExtractors
    (match outcome (_validate_nlu K (get_nlu_data importer) self) with
     | inl _ => []
     | inr _ =>
         emitted
           (_validate_core K (get_stories importer) (get_domain importer) self)
     end) = []).
{ destruct (outcome _); [reflexivity|].
  apply filter_emits_none, _validate_core_emits_other.
  intros []; simpl; intros; repeat split; congruence. }
rewrite Hcore. reflexivity.
Qed.

(** *** Lookup tables and the pattern feature *)

Lemma crf_in_component_types g :
  crf_nodes g <> [] ->
  CRFEntityExtractorGraphComponent ∈ _component_types (__init__ K g).
Proof.
intros H. apply elem_of_component_types.
destruct (crf_nodes g) as [|n l] eqn:E; [contradiction|].
assert (Hn : In n (crf_nodes g)) by (rewrite E; left; reflexivity).
apply List.filter_In in Hn. destruct Hn as [Hin Hu].
apply bool_decide_eq_true_1 in Hu. rewrite <- Hu.
apply in_map. exact Hin.
Qed.

Lemma emitted__warn_if_some_training_data_is_unused_no_component
    training_data g :
  lookup_tables training_data <> [] ->
  ~ In RegexFeaturizerGraphComponent (map uses (values g)) ->
  ~ In RegexEntityExtractorGraphComponent (map uses (values g)) ->
  In NoLookupTableComponent
    (emitted
       (_warn_if_some_training_data_is_unused training_data (__init__ K g))).
Proof.
intros Hlookup Hfeaturizer Hextractor.
unfold _warn_if_some_training_data_is_unused.
rewrite bind_get. cbv zeta.
do 4 (rewrite emitted_bind_check by method_auto; apply in_or_app; right).
rewrite emitted_bind. apply in_or_app. left.
destruct (lookup_tables training_data); [contradiction|]. cbn [truthy andb].
assert (Hdis :
  isdisjoint (_component_types (__init__ K g))
    [RegexFeaturizerGraphComponent; RegexEntityExtractorGraphComponent] = true).
{ unfold isdisjoint. cbn [forallb].
  rewrite !bool_decide_eq_true_2; [reflexivity|..];
    rewrite elem_of_component_types; assumption. }
rewrite Hdis. left. reflexivity.
Qed.


(** *** Shared priorities *)

Lemma dict_get_append k x d k' :
  dict_get k' (dict_append k x d) =
  if CVal_eqb k k' then dict_get k' d ++ [x] else dict_get k' d.
Proof.
induction d as [|[k0 v] d IH]; simpl.
- destruct (CVal_eqb k k'); reflexivity.
- destruct (CVal_eqb k0 k) eqn:E0; simpl.
  + apply CVal_eqb_eq in E0. subst k0.
    destruct (CVal_eqb k k'); reflexivity.
  + destruct (CVal_eqb k0 k') eqn:E1; [|exact IH].
    apply CVal_eqb_eq in E1. subst k0.
    assert (E2 : CVal_eqb k k' = false).
    { apply CVal_eqb_neq. apply CVal_eqb_neq in E0. congruence. }
    rewrite E2. reflexivity.
Qed.

Lemma keys_dict_append k x d :
  map fst (dict_append k x d) =
  if existsb (fun k0 => CVal_eqb k0 k) (map fst d)
  then map fst d else map fst d ++ [k].
Proof.
induction d as [|[k0 v] d IH]; simpl; [reflexivity|].
destruct (CVal_eqb k0 k); simpl; [reflexivity|].
rewrite IH. destruct (existsb _ (map fst d)); reflexivity.
Qed.

Lemma NoDup_keys_dict_append k x d :
  NoDup (map fst d) -> NoDup (map fst (dict_append k x d)).
Proof.
intros H. rewrite keys_dict_append.
destruct (existsb _ (map fst d)) eqn:E; [exact H|].
apply NoDup_app. split; [exact H|]. split.
- intros k0 Hk0 Hk. apply list_elem_of_singleton in Hk. subst k0.
  assert (Hex : existsb (fun k0 => CVal_eqb k0 k) (map fst d) = true).
  { apply existsb_exists. exists k. split.
    - apply list_elem_of_In. exact Hk0.
    - apply CVal_eqb_refl. }
  congruence.
- apply NoDup_singleton.
Qed.

Lemma collect_priorities_inr l d d' :
  collect_priorities K l d = inr d' ->
  NoDup (map fst d) ->
  NoDup (map fst d') /\
  forall k, dict_get k d' = dict_get k d ++ filed_under K l k.
Proof.
revert d. induction l as [|n l IH]; simpl; intros d H Hnd.
- injection H as <-. split; [exact Hnd|]. intros k. symmetry. apply app_nil_r.
- destruct (default_priority K (uses n)) as [default_priority|] eqn:Ed;
    [|discriminate].
  destruct (hashable (default default_priority (config n !! "priority")));
    [|discriminate].
  apply IH in H; [|apply NoDup_keys_dict_append; exact Hnd].
  destruct H as [Hnd' Hget]. split; [exact Hnd'|].
  intros k. rewrite Hget, dict_get_append. unfold filed_under. simpl.
  assert (Ek : runs_with K k n
               = CVal_eqb (default default_priority (config n !! "priority")) k).
  { unfold runs_with, effective_priority. rewrite Ed. reflexivity. }
  rewrite Ek.
  destruct (CVal_eqb (default default_priority (config n !! "priority")) k);
    simpl.
  + rewrite <- app_assoc. reflexivity.
  + reflexivity.
Qed.

Lemma key_of_entry (k : CVal) (v : list ComponentType) d :
  In (k, v) d -> k ∈ map fst d.
Proof.
intros H. apply list_elem_of_In. change k with (fst (k, v)).
apply in_map. exact H.
Qed.

Lemma dict_get_entry k v d :
  NoDup (map fst d) -> In (k, v) d -> dict_get k d = v.
Proof.
induction d as [|[k0 v0] d IH]; simpl; intros Hnd Hin; [destruct Hin|].
apply NoDup_cons in Hnd. destruct Hnd as [Hnotin Hnd'].
destruct Hin as [Heq | Hin].
- injection Heq as -> ->. rewrite CVal_eqb_refl. reflexivity.
- destruct (CVal_eqb k0 k) eqn:E; [|apply IH; assumption].
  apply CVal_eqb_eq in E. subst k0. destruct Hnotin.
  apply (key_of_entry _ _ _ Hin).
Qed.

Lemma dict_get_absent k d : k ∉ map fst d -> dict_get k d = [].
Proof.
induction d as [|[k0 v0] d IH]; simpl; intros Hnotin; [reflexivity|].
apply not_elem_of_cons in Hnotin. destruct Hnotin as [Hne Hnotin].
destruct (CVal_eqb k0 k) eqn:E.
- apply CVal_eqb_eq in E. congruence.
- apply IH. exact Hnotin.
Qed.

(** The second loop emits, entry by entry, [same_priority_advisory]. *)
Lemma emitted_same_priority_loop d self :
  emitted
    (for_each d
       (fun '(k, v) =>
          when (1 <? length v)%nat (raise_warning (SamePriority v k))) self)
  = flat_map same_priority_advisory d.
Proof.
induction d as [|[k v] d IH]; simpl; [reflexivity|].
rewrite emitted_bind_check by method_auto.
rewrite IH. destruct (1 <? length v)%nat; reflexivity.
Qed.

(** In a dictionary where only the key [p] holds more than one class, the
    loop emits one advisory, for [p]. *)
Lemma flat_map_same_priority_none (G : CVal -> list ComponentType) d :
  (forall k v, In (k, v) d -> (length v <= 1)%nat) ->
  flat_map same_priority_advisory d = [].
Proof.
induction d as [|[k v] d IH]; intros H; simpl; [reflexivity|].
rewrite IH by (intros k0 v0 Hin; apply (H k0 v0); right; exact Hin).
assert (Hv : (length v <= 1)%nat) by (apply (H k v); left; reflexivity).
apply Nat.ltb_ge in Hv. rewrite Hv. reflexivity.
Qed.

Lemma flat_map_same_priority_one (G : CVal -> list ComponentType) d p :
  NoDup (map fst d) ->
  (forall k v, In (k, v) d -> v = G k) ->
  (1 < length (G p))%nat ->
  (forall q, q <> p -> (length (G q) <= 1)%nat) ->
  p ∈ map fst d ->
  flat_map same_priority_advisory d = [SamePriority (G p) p].
Proof.
induction d as [|[k v] d IH]; intros Hnd Hent Hp Hq Hin;
  [apply elem_of_nil in Hin; destruct Hin|].
simpl in Hnd. apply NoDup_cons in Hnd. destruct Hnd as [Hnotin Hnd'].
assert (Hv : v = G k) by (apply Hent; left; reflexivity).
assert (Hent' : forall k0 v0, In (k0, v0) d -> v0 = G k0)
  by (intros k0 v0 H0; apply Hent; right; exact H0).
simpl. destruct (decide (k = p)) as [-> | Hne].
- apply Nat.ltb_lt in Hp. subst v. rewrite Hp.
  rewrite (flat_map_same_priority_none G); [reflexivity|].
  intros k0 v0 H0. rewrite (Hent' _ _ H0). apply Hq.
  intros ->. apply Hnotin. apply (key_of_entry _ _ _ H0).
- specialize (Hq k Hne) as Hk. subst v. apply Nat.ltb_ge in Hk. rewrite Hk.
  simpl. apply IH; try assumption.
  simpl in Hin. apply elem_of_cons in Hin.
  destruct Hin as [Heq | Hin]; [congruence | exact Hin].
Qed.

Lemma _warn_if_priorities_are_not_unique_returns self :
  raised (_warn_if_priorities_are_not_unique K self) = None ->
  exists d,
    collect_priorities K (_policy_schema_nodes self) [] = inr d /\
    emitted (_warn_if_priorities_are_not_unique K self)
    = flat_map same_priority_advisory d.
Proof.
unfold _warn_if_priorities_are_not_unique. rewrite bind_get.
destruct (collect_priorities K (_policy_schema_nodes self) []) as [e|d] eqn:E.
- unfold raised, bind, lift. simpl. discriminate.
- intros _. exists d. split; [reflexivity|].
  rewrite bind_lift. apply emitted_same_priority_loop.
Qed.

(** When the core pass returns on a schema with policy nodes, its
    advisories are those of its five checks in a row, and the priority
    check has returned. *)
Lemma emitted__validate_core_returned story_graph domain self :
  truthy (_policy_schema_nodes self) = true ->
  raised (_validate_core K story_graph domain self) = None ->
  raised (_warn_if_priorities_are_not_unique K self) = None /\
  emitted (_validate_core K story_graph domain self) =
  emitted (_warn_if_no_rule_policy_is_contained self) ++
  emitted (_warn_if_priorities_are_not_unique K self) ++
  emitted (_warn_if_rule_based_data_is_unused_or_missing K story_graph self).
Proof.
intros Hpol. rewrite _validate_core_with_policies by exact Hpol. intros H.
apply bind_returns_read_only in H; [|auto with method].
destruct H as ([] & _ & H & ->).
apply bind_returns_read_only in H; [|auto with method].
destruct H as ([] & _ & H & ->).
assert (Hsilent1 :
  emitted
    (_raise_if_domain_contains_form_names_but_no_rule_policy_given domain self)
  = []).
{ pose proof
    (silent__raise_if_domain_contains_form_names_but_no_rule_policy_given
       (fun _ => False) domain self) as HF.
  destruct HF as [|w ws Hw _]; [reflexivity | destruct Hw]. }
rewrite Hsilent1. cbn [app].
apply bind_returns_read_only in H; [|auto with method].
destruct H as ([] & _ & H & ->).
assert (Hsilent2 :
  emitted (_raise_if_a_rule_policy_is_incompatible_with_domain K domain self)
  = []).
{ pose proof
    (silent__raise_if_a_rule_policy_is_incompatible_with_domain
       (fun _ => False) domain self) as HF.
  destruct HF as [|w ws Hw _]; [reflexivity | destruct Hw]. }
rewrite Hsilent2. cbn [app].
apply bind_returns_read_only in H; [|auto with method].
destruct H as ([] & Hprio & H & ->).
split; [|reflexivity].
unfold raised. rewrite Hprio. reflexivity.
Qed.

(** When [validate] returns on a schema with policy nodes, both passes have
    returned and its advisories are theirs in a row. *)
Lemma emitted_validate_returned importer self :
  raised (validate K importer self) = None ->
  raised (_validate_core K (get_stories importer) (get_domain importer) self)
  = None /\
  emitted (validate K importer self) =
  emitted (_validate_nlu K (get_nlu_data importer) self) ++
  emitted (_validate_core K (get_stories importer) (get_domain importer) self).
Proof.
intros H. rewrite emitted_validate. unfold validate in H.
apply bind_returns_read_only in H; [|auto with method].
destruct H as ([] & -> & H & _).
apply bind_returns in H. destruct H as ([] & Hcore & _).
split; [|reflexivity]. unfold raised. rewrite Hcore. reflexivity.
Qed.

(** C6, as amended. Let exactly two policy nodes, [a] then [b], run with
    priority [p], and every other priority belong to at most one policy
    node.  When [validate] returns, it has emitted exactly one same-priority
    advisory: the one for [p], listing the classes of [a] and [b], which its
    message names. *)
Theorem validate_warns_once_of_shared_priority g importer p a b :
  policy_nodes_with_priority K g p = [a; b] ->
  (forall q, q <> p -> (length (policy_nodes_with_priority K g q) <= 1)%nat) ->
  raised (validate K importer (__init__ K g)) = None ->
  List.filter is_SamePriority (emitted (validate K importer (__init__ K g)))
  = [SamePriority [uses a; uses b] p] /\
  _types_to_str [uses a; uses b]
  = (__name__ (uses a) ++ ", " ++ __name__ (uses b))%string.
Proof.
intros Hp Hq Hret. split; [|reflexivity].
set (self := __init__ K g) in *.
assert (Hpol : truthy (_policy_schema_nodes self) = true).
{ unfold policy_nodes_with_priority in Hp. fold self in Hp.
  destruct (_policy_schema_nodes self); [discriminate | reflexivity]. }
destruct (emitted_validate_returned importer self Hret) as [Hcore ->].
destruct (emitted__validate_core_returned _ _ self Hpol Hcore) as [Hprio ->].
rewrite !List.filter_app.
rewrite (filter_emits_none is_SamePriority (_validate_nlu K _)).
2:{ apply _validate_nlu_emits_other.
    intros []; simpl; intros; repeat split; congruence. }
rewrite (filter_emits_none is_SamePriority _warn_if_no_rule_policy_is_contained).
2:{ eapply emits_other; [|apply emitter__warn_if_no_rule_policy_is_contained].
    intros []; simpl; congruence. }
rewrite (filter_emits_none is_SamePriority
           (_warn_if_rule_based_data_is_unused_or_missing K _)).
2:{ eapply emits_other;
      [|apply emitter__warn_if_rule_based_data_is_unused_or_missing].
    intros []; simpl; congruence. }
cbn [app]. rewrite app_nil_r.
destruct (_warn_if_priorities_are_not_unique_returns self Hprio)
  as (d & Hd & ->).
destruct (collect_priorities_inr _ _ _ Hd NoDup_nil_2) as [Hnd Hget].
cbn [dict_get app] in Hget.
set (G := filed_under K (_policy_schema_nodes self)) in *.
assert (HGp : G p = [uses a; uses b]).
{ unfold G, filed_under. fold self in Hp.
  change (List.filter _ (_policy_schema_nodes self))
    with (policy_nodes_with_priority K g p).
  rewrite Hp. reflexivity. }
assert (Hone : flat_map same_priority_advisory d = [SamePriority (G p) p]).
{ apply flat_map_same_priority_one.
  - exact Hnd.
  - intros k v Hin. rewrite <- Hget. symmetry.
    apply dict_get_entry; assumption.
  - rewrite HGp. simpl. lia.
  - intros q Hne. unfold G, filed_under. rewrite length_map.
    apply (Hq q Hne).
  - destruct (decide (p ∈ map fst d)) as [Hin | Hnotin]; [exact Hin|].
    apply dict_get_absent in Hnotin. rewrite Hget, HGp in Hnotin.
    discriminate. }
rewrite Hone, HGp. reflexivity.
Qed.

(** *** Rule data against rule policies *)

Lemma emitted__warn_if_rule_based_data_is_unused_or_missing g story_graph :
  emitted
    (_warn_if_rule_based_data_is_unused_or_missing K story_graph (__init__ K g))
  = if consuming_rule_data K g && negb (contains_rule_tracker story_graph)
    then [RuleDataMissing]
    else if negb (consuming_rule_data K g) && contains_rule_tracker story_graph
    then [RuleDataUnused]
    else [].
Proof.
unfold _warn_if_rule_based_data_is_unused_or_missing. rewrite bind_get.
cbv zeta.
change (existsb (consumes_rule_data K) (_policy_schema_nodes (__init__ K g)))
  with (consuming_rule_data K g).
change (existsb is_RuleStep (ordered_steps story_graph))
  with (contains_rule_tracker story_graph).
destruct (consuming_rule_data K g), (contains_rule_tracker story_graph);
  reflexivity.
Qed.

(** C7, as amended. On a schema with a policy node, a [validate] that
    returns has emitted one rule-mismatch advisory when a policy consumes
    rule data and the story graph has no rule step, one when the story graph
    has a rule step and no policy consumes rule data, and none when the two
    agree. *)
Theorem validate_rule_data_advisories g importer :
  (exists n, In n (values g) /\ is_policy K (uses n) = true) ->
  raised (validate K importer (__init__ K g)) = None ->
  let advisories :=
    List.filter is_rule_mismatch (emitted (validate K importer (__init__ K g)))
  in
  (consuming_rule_data K g = true ->
   contains_rule_tracker (get_stories importer) = false ->
   advisories = [RuleDataMissing]) /\
  (consuming_rule_data K g = false ->
   contains_rule_tracker (get_stories importer) = true ->
   advisories = [RuleDataUnused]) /\
  (consuming_rule_data K g = contains_rule_tracker (get_stories importer) ->
   advisories = []).
Proof.
intros Hex Hret advisories. subst advisories.
pose proof (truthy_filter_exists _ _ Hex) as Hpol.
change (truthy (_policy_schema_nodes (__init__ K g)) = true) in Hpol.
destruct (emitted_validate_returned importer _ Hret) as [Hcore ->].
destruct (emitted__validate_core_returned _ _ _ Hpol Hcore) as [_ ->].
rewrite !List.filter_app.
rewrite (filter_emits_none is_rule_mismatch (_validate_nlu K _)).
2:{ apply _validate_nlu_emits_other.
    intros []; simpl; intros; repeat split; congruence. }
rewrite (filter_emits_none is_rule_mismatch _warn_if_no_rule_policy_is_contained).
2:{ eapply emits_other; [|apply emitter__warn_if_no_rule_policy_is_contained].
    intros []; simpl; congruence. }
rewrite (filter_emits_none is_rule_mismatch
           (_warn_if_priorities_are_not_unique K)).
2:{ eapply emits_other; [|apply emitter__warn_if_priorities_are_not_unique].
    intros []; simpl; congruence. }
cbn [app]. rewrite emitted__warn_if_rule_based_data_is_unused_or_missing.
destruct (consuming_rule_data K g),
  (contains_rule_tracker (get_stories importer));
  simpl; repeat split; intros; congruence.
Qed.

End Facts.


(** *** The properties at sample inputs *)

Import Samples.

(** C1 at two tokenizers: [validate] raises at once. *)
Lemma validate_raises_on_several_tokenizers_witness :
  let g := schema [node WhitespaceTokenizerGraphComponent;
                   node JiebaTokenizerGraphComponent] in
  let importer := importer no_nlu_data no_stories no_forms in
  (1 < length (tokenizer_nodes classes g))%nat /\
  validate classes importer (__init__ classes g)
  = MkRun [] (inl InvalidConfigException) (__init__ classes g).
Proof.
cbv zeta. split.
- vm_compute. lia.
- apply validate_raises_on_several_tokenizers. vm_compute. lia.
Defined.

(** Against C2 as stated: a schema without any policy node returns, forms
    or not. *)
Lemma validate_returns_on_forms_without_policies :
  let g := schema [node DIETClassifierGraphComponent] in
  let importer := importer no_nlu_data no_stories with_form in
  form_names (get_domain importer) <> [] /\
  Forall (fun n => uses n <> RulePolicyGraphComponent) (values g) /\
  raised (validate classes importer (__init__ classes g)) = None.
Proof.
cbv zeta. split; [discriminate|]. split.
- repeat constructor. discriminate.
- vm_compute. reflexivity.
Qed.

(** C2, as amended, at a TED policy and a form: [InvalidDomain]. *)
Lemma validate_raises_on_forms_without_rule_policy_witness :
  let g := schema [node TEDPolicyGraphComponent] in
  let importer := importer no_nlu_data no_stories with_form in
  raised (validate classes importer (__init__ classes g)) = Some InvalidDomain.
Proof.
cbv zeta. apply validate_raises_on_forms_without_rule_policy.
- discriminate.
- intros n [<- | []]. discriminate.
- exists (node TEDPolicyGraphComponent). split; [left|]; reflexivity.
- vm_compute. reflexivity.
Defined.

(** Against C3 as stated: CRF and DIET side by side, with synonyms and no
    synonym mapper, give two advisories, not one. *)
Lemma validate_emits_more_than_the_competing_advisory :
  let g := schema [node CRFEntityExtractorGraphComponent;
                   node DIETClassifierGraphComponent] in
  let importer := importer synonym_data no_stories no_forms in
  In CRFEntityExtractorGraphComponent TRAINABLE_EXTRACTORS /\
  In DIETClassifierGraphComponent TRAINABLE_EXTRACTORS /\
  map uses (values g)
  = [CRFEntityExtractorGraphComponent; DIETClassifierGraphComponent] /\
  entities (get_nlu_data importer) = ∅ /\
  raised (validate classes importer (__init__ classes g)) = None /\
  emitted (validate classes importer (__init__ classes g))
  = [CompetingExtractors
       [CRFEntityExtractorGraphComponent; DIETClassifierGraphComponent];
     NoSynonymMapper].
Proof.
cbv zeta. repeat split; try (vm_compute; tauto).
Qed.

(** C3, as amended, on the same schema. *)
Lemma validate_warns_once_of_competing_extractors_witness :
  let g := schema [node CRFEntityExtractorGraphComponent;
                   node DIETClassifierGraphComponent] in
  let importer := importer synonym_data no_stories no_forms in
  List.filter is_CompetingExtractors
    (emitted (validate classes importer (__init__ classes g)))
  = [CompetingExtractors
       (elements
          (intersection (_component_types (__init__ classes g))
             TRAINABLE_EXTRACTORS))].
Proof.
cbv zeta.
apply (validate_warns_once_of_competing_extractors classes _ _
         CRFEntityExtractorGraphComponent DIETClassifierGraphComponent).
- discriminate.
- vm_compute. tauto.
- vm_compute. tauto.
- vm_compute. tauto.
- vm_compute. tauto.
- vm_compute. lia.
- reflexivity.
Defined.



(** Against C6 as stated: TED and Memoization at priority 1, a form and no
    rule policy.  [validate] raises before it compares priorities. *)
Lemma validate_raises_before_the_priority_check :
  let a := node TEDPolicyGraphComponent in
  let b := node_with MemoizationPolicyGraphComponent "priority" (VInt 1) in
  let g := schema [a; b] in
  let importer := importer no_nlu_data no_stories with_form in
  _policy_schema_nodes (__init__ classes g) = [a; b] /\
  effective_priority classes a = Some (VInt 1) /\
  effective_priority classes b = Some (VInt 1) /\
  raised (validate classes importer (__init__ classes g)) = Some InvalidDomain /\
  List.filter is_SamePriority
    (emitted (validate classes importer (__init__ classes g))) = [].
Proof.
cbv zeta. repeat split; vm_compute; reflexivity.
Qed.

(** C6, as amended, with a rule policy added: one advisory, for priority 1. *)
Lemma validate_warns_once_of_shared_priority_witness :
  let a := node TEDPolicyGraphComponent in
  let b := node_with MemoizationPolicyGraphComponent "priority" (VInt 1) in
  let g := schema [a; b; node RulePolicyGraphComponent] in
  let importer := importer no_nlu_data rule_stories with_form in
  List.filter is_SamePriority
    (emitted (validate classes importer (__init__ classes g)))
  = [SamePriority
       [TEDPolicyGraphComponent; MemoizationPolicyGraphComponent] (VInt 1)].
Proof.
cbv zeta.
apply (validate_warns_once_of_shared_priority classes _ _ (VInt 1)
         (node TEDPolicyGraphComponent)
         (node_with MemoizationPolicyGraphComponent "priority" (VInt 1))).
- vm_compute. reflexivity.
- intros q Hq. unfold policy_nodes_with_priority. cbn [__init__ _policy_schema_nodes].
  change (List.filter _ (values _))
    with [node TEDPolicyGraphComponent;
          node_with MemoizationPolicyGraphComponent "priority" (VInt 1);
          node RulePolicyGraphComponent].
  cbn [List.filter].
  change (runs_with classes q (node TEDPolicyGraphComponent))
    with (CVal_eqb (VInt 1) q).
  change (runs_with classes q
            (node_with MemoizationPolicyGraphComponent "priority" (VInt 1)))
    with (CVal_eqb (VInt 1) q).
  change (runs_with classes q (node RulePolicyGraphComponent))
    with (CVal_eqb (VInt 6) q).
  assert (E : CVal_eqb (VInt 1) q = false)
    by (apply CVal_eqb_neq; congruence).
  rewrite E. destruct (CVal_eqb (VInt 6) q); simpl; lia.
- vm_compute. reflexivity.
Defined.

(** Against C7 as stated: rule steps, a Memoization policy that consumes
    none, a form and no rule policy.  [validate] raises before it looks at
    the rule data. *)
Lemma validate_raises_before_the_rule_data_check :
  let g := schema [node MemoizationPolicyGraphComponent] in
  let importer := importer no_nlu_data rule_stories with_form in
  _policy_schema_nodes (__init__ classes g)
  = [node MemoizationPolicyGraphComponent] /\
  consuming_rule_data classes g = false /\
  contains_rule_tracker (get_stories importer) = true /\
  raised (validate classes importer (__init__ classes g)) = Some InvalidDomain /\
  List.filter is_rule_mismatch
    (emitted (validate classes importer (__init__ classes g))) = [].
Proof.
cbv zeta. repeat split; vm_compute; reflexivity.
Qed.

(** C7, as amended, without the form: the rule data is reported unused. *)
Lemma validate_rule_data_advisories_witness :
  let g := schema [node MemoizationPolicyGraphComponent] in
  let importer := importer no_nlu_data rule_stories no_forms in
  List.filter is_rule_mismatch
    (emitted (validate classes importer (__init__ classes g)))
  = [RuleDataUnused].
Proof.
cbv zeta.
apply (validate_rule_data_advisories classes
         (schema [node MemoizationPolicyGraphComponent])
         (importer no_nlu_data rule_stories no_forms)).
- exists (node MemoizationPolicyGraphComponent). split; [left|]; reflexivity.
- vm_compute. reflexivity.
- vm_compute. reflexivity.
- vm_compute. reflexivity.
Defined.

(** C8 on a schema and an importer that pass every check. *)
Lemma validate_passes_importer_through_witness :
  let g := schema [node CRFEntityExtractorGraphComponent;
                   node RulePolicyGraphComponent] in
  let importer := importer lookup_data rule_stories with_form in
  returned (validate classes importer (__init__ classes g)) = Some importer /\
  final (validate classes importer (__init__ classes g)) = __init__ classes g.
Proof.
cbv zeta. split; [vm_compute; reflexivity|].
eapply validate_passes_importer_through. vm_compute. reflexivity.
Defined.

End ValidatorFacts.

(** ** The YAML reader *)

Module YamlReaderFacts.
Import PyFacts YamlReader YamlReaderSpec.

Section Facts.
Variable H : Helpers.

Abbreviation Method := (M Advisory RasaYAMLReader).

(** *** Advisories neither raise nor touch the reader *)

Lemma total_warn message : total (warn message).
Proof.
unfold warn. apply total_bind; [apply total_get|].
intros self. apply total_raise_warning.
Qed.

Lemma read_only_warn message : read_only (warn message).
Proof.
unfold warn. apply read_only_bind; [apply read_only_get|].
intros self. apply read_only_raise_warning.
Qed.

Lemma emitted_warn message self : emitted (warn message self) = [message (filename self)].
Proof. reflexivity. Qed.

Lemma agree_warn R message1 message2 : agree R (warn message1) (warn message2).
Proof. intros s1 s2 HR. split; [reflexivity | exact HR]. Qed.

(** *** The collected data does not depend on the file name *)

Lemma same_data_refl r : same_data r r.
Proof. repeat split. Qed.

Ltac same_data_step :=
  let s1 := fresh "s" in
  let s2 := fresh "s" in
  intros s1 s2 (? & ? & ? & ?); unfold same_data; cbn; repeat split; congruence.

Ltac agree_cases :=
  repeat lazymatch goal with
    | |- agree _ (if ?b then _ else _) (if ?b then _ else _) => destruct b
    | |- agree _ (match ?x with _ => _ end) (match ?x with _ => _ end) =>
        destruct x
    | |- agree _ (let _ := _ in _) _ => cbv zeta
    | |- agree _ (bind _ _) (bind _ _) => apply agree_bind; [| intros ? ]
    | |- agree _ (for_each _ _) (for_each _ _) => apply agree_for_each; intros ?
    | |- agree _ (warn _) (warn _) => apply agree_warn
    | |- agree _ (ret _) (ret _) => apply agree_ret
    | |- agree _ (raise _) (raise _) => apply agree_raise
    | |- agree _ (lift _) (lift _) => apply agree_lift
    | |- agree _ (modify _) (modify _) => apply agree_modify; same_data_step
    | |- _ => fail
    end.

Lemma agree__parse_training_examples examples intent :
  agree same_data (_parse_training_examples H examples intent)
    (_parse_training_examples H examples intent).
Proof. unfold _parse_training_examples. agree_cases. Qed.

Lemma agree__parse_intent data :
  agree same_data (_parse_intent H data) (_parse_intent H data).
Proof.
unfold _parse_intent. agree_cases.
apply agree__parse_training_examples.
Qed.

Lemma agree__parse_synonym nlu_item :
  agree same_data (_parse_synonym H nlu_item) (_parse_synonym H nlu_item).
Proof. unfold _parse_synonym. agree_cases. Qed.

Lemma agree__parse_regex nlu_item :
  agree same_data (_parse_regex nlu_item) (_parse_regex nlu_item).
Proof. unfold _parse_regex. agree_cases. Qed.

Lemma agree__parse_lookup nlu_item :
  agree same_data (_parse_lookup H nlu_item) (_parse_lookup H nlu_item).
Proof. unfold _parse_lookup. agree_cases. Qed.

Lemma agree__parse_key nlu_item key :
  agree same_data (_parse_key H nlu_item key) (_parse_key H nlu_item key).
Proof.
unfold _parse_key. agree_cases;
  auto using agree__parse_intent, agree__parse_synonym, agree__parse_regex,
    agree__parse_lookup.
Qed.

Lemma agree__parse_nlu nlu_data :
  agree same_data (_parse_nlu H nlu_data) (_parse_nlu H nlu_data).
Proof. unfold _parse_nlu. agree_cases; apply agree__parse_key. Qed.

(** *** [reads] starts from a clean reader *)

(** The part of [reads] that follows [_initialize]. *)
Lemma agree_reads_after_initialize string :
  agree same_data
    (do yaml_content <- lift (read_yaml H string);
     match yaml_content with
     | YDict items =>
         for_each items (fun '(key, value) =>
           if bool_decide (key = KStr KEY_NLU) then _parse_nlu H value
           else ret tt)
     | _ => raise AttributeError
     end ;;
     do self <- get;
     ret {| td_training_examples := training_examples self;
            td_entity_synonyms := entity_synonyms self;
            td_regex_features := regex_features self;
            td_lookup_tables := lookup_tables self |})
    (do yaml_content <- lift (read_yaml H string);
     match yaml_content with
     | YDict items =>
         for_each items (fun '(key, value) =>
           if bool_decide (key = KStr KEY_NLU) then _parse_nlu H value
           else ret tt)
     | _ => raise AttributeError
     end ;;
     do self <- get;
     ret {| td_training_examples := training_examples self;
            td_entity_synonyms := entity_synonyms self;
            td_regex_features := regex_features self;
            td_lookup_tables := lookup_tables self |}).
Proof.
apply agree_bind; [apply agree_lift|]. intros yaml_content.
apply agree_bind.
- destruct yaml_content; try apply agree_raise.
  apply agree_for_each. intros [key value].
  destruct (bool_decide _); [apply agree__parse_nlu | apply agree_ret].
- intros _ s1 s2 (E1 & E2 & E3 & E4). rewrite !bind_get. cbn.
  rewrite E1, E2, E3, E4. repeat split; assumption.
Qed.

(** C10. What [reads] returns, a training-data object or an exception,
    depends on the string alone: not on what the reader holds from earlier
    calls, nor on its file name.  The data left in the reader is the same
    too. *)
Theorem reads_depends_on_its_input_only string r1 r2 :
  outcome (reads H string r1) = outcome (reads H string r2) /\
  same_data (final (reads H string r1)) (final (reads H string r2)).
Proof.
assert (Hinit : forall r, _initialize r = MkRun [] (inr tt) (cleared r))
  by reflexivity.
unfold reads.
rewrite !(bind_continues _ _ _ _ _ _ (Hinit _)). cbn [outcome final].
apply agree_reads_after_initialize. repeat split.
Qed.

(** *** A synonym block without a name *)

Lemma lookup_Some_key key d v :
  lookup key d = Some v -> In (KStr key) (map fst d).
Proof.
induction d as [|[k v0] d IH]; simpl; [discriminate|].
destruct (bool_decide (k = KStr key)) eqn:E.
- apply bool_decide_eq_true_1 in E. intros _. left. exact E.
- intros Hl. right. apply IH. exact Hl.
Qed.

Section EmptySynonym.
Variables (block : list (Key * Yaml)) (synonym_name : Yaml).
Hypothesis Hname : lookup KEY_SYNONYM block = Some synonym_name.
Hypothesis Hempty : truthy synonym_name = false.
Hypothesis Hkeys : Forall (fun key => key ∉ other_block_keys) (map fst block).

Lemma _parse_synonym_without_name :
  _parse_synonym H block = warn EmptySynonymName.
Proof. unfold _parse_synonym. rewrite Hname, Hempty. reflexivity. Qed.

Lemma _parse_key_advisory key :
  key ∉ other_block_keys -> _parse_key H block key = advisory_of_key key.
Proof.
intros Hk. unfold other_block_keys in Hk.
rewrite !not_elem_of_cons in Hk. destruct Hk as (Hi & Hr & Hl & _).
unfold _parse_key, advisory_of_key.
rewrite (bool_decide_eq_false_2 _ Hi), (bool_decide_eq_false_2 _ Hr),
  (bool_decide_eq_false_2 _ Hl), _parse_synonym_without_name.
reflexivity.
Qed.

Lemma for_each_block_keys keys :
  Forall (fun key => key ∉ other_block_keys) keys ->
  for_each keys (_parse_key H block) = for_each keys advisory_of_key.
Proof.
induction 1 as [|key keys Hk _ IH]; simpl; [reflexivity|].
rewrite (_parse_key_advisory key Hk), IH. reflexivity.
Qed.

Lemma total_advisory_of_key key : total (advisory_of_key key).
Proof. unfold advisory_of_key. destruct (bool_decide _); apply total_warn. Qed.

Lemma read_only_advisory_of_key key : read_only (advisory_of_key key).
Proof.
unfold advisory_of_key. destruct (bool_decide _); apply read_only_warn.
Qed.

Lemma total_block : total (for_each (map fst block) (_parse_key H block)).
Proof.
rewrite for_each_block_keys by exact Hkeys.
apply total_for_each, total_advisory_of_key.
Qed.

Lemma read_only_block : read_only (for_each (map fst block) (_parse_key H block)).
Proof.
rewrite for_each_block_keys by exact Hkeys.
apply read_only_for_each, read_only_advisory_of_key.
Qed.

Lemma emitted_block self :
  In (EmptySynonymName (filename self))
    (emitted (for_each (map fst block) (_parse_key H block) self)).
Proof.
rewrite for_each_block_keys by exact Hkeys.
apply (emitted_for_each_In _ _ (KStr KEY_SYNONYM)).
- apply total_advisory_of_key.
- apply read_only_advisory_of_key.
- apply (lookup_Some_key _ _ _ Hname).
- unfold advisory_of_key. rewrite bool_decide_eq_true_2 by reflexivity.
  rewrite emitted_warn. left. reflexivity.
Qed.

End EmptySynonym.

(** The step of [_parse_nlu]'s loop at one item. *)
Lemma agree__parse_nlu_skip pre post block synonym_name :
  lookup KEY_SYNONYM block = Some synonym_name ->
  truthy synonym_name = false ->
  Forall (fun key => key ∉ other_block_keys) (map fst block) ->
  agree eq (_parse_nlu H (YList (pre ++ YDict block :: post)))
    (_parse_nlu H (YList (pre ++ post))).
Proof.
intros Hname Hempty Hkeys. unfold _parse_nlu. cbn [iterate].
apply agree_bind_lift.
apply (agree_for_each_skip pre post (YDict block)).
- apply (total_block block synonym_name Hname Hempty Hkeys).
- apply (read_only_block block synonym_name Hname Hempty Hkeys).
Qed.


(** *** The greet block *)

Lemma text_message_of intent example :
  text (message_of H intent example) = replace_entities H example.
Proof.
unfold message_of.
destruct (find_entities_in_training_example H example); reflexivity.
Qed.

Lemma intent_message_of intent0 example :
  intent (message_of H intent0 example) = intent0.
Proof.
unfold message_of.
destruct (find_entities_in_training_example H example); reflexivity.
Qed.

(** C5, as amended. Reading the block [{intent: greet, examples: "- hello\n-
    hi"}] returns training data with exactly two examples, in order, both
    of intent [greet], built from the lines [- hello] and [- hi] as they
    stand: the text of each is what [replace_entities] makes of the whole
    line, its entities what [find_entities_in_training_example] finds in it.
    The synonyms are what [add_synonyms_from_entities] collects from the two
    lines, and there are no regex features and no lookup tables. *)
Theorem reads_greet_block string r :
  read_yaml H string = inr greet_document ->
  let hello := YStr "- hello" in
  let hi := YStr "- hi" in
  exists data,
    returned (reads H string r) = Some data /\
    td_training_examples data
    = [message_of H (YStr "greet") hello; message_of H (YStr "greet") hi] /\
    map intent (td_training_examples data) = [YStr "greet"; YStr "greet"] /\
    map text (td_training_examples data)
    = [replace_entities H hello; replace_entities H hi] /\
    td_entity_synonyms data
    = add_synonyms_from_entities H hi (find_entities_in_training_example H hi)
        (add_synonyms_from_entities H hello
           (find_entities_in_training_example H hello) []) /\
    td_regex_features data = [] /\
    td_lookup_tables data = [].
Proof.
intros Hread hello hi.
exists
  {| td_training_examples :=
       [message_of H (YStr "greet") hello; message_of H (YStr "greet") hi];
     td_entity_synonyms :=
       add_synonyms_from_entities H hi (find_entities_in_training_example H hi)
         (add_synonyms_from_entities H hello
            (find_entities_in_training_example H hello) []);
     td_regex_features := [];
     td_lookup_tables := [] |}.
split.
- unfold returned, reads. rewrite Hread. reflexivity.
- cbn [td_training_examples td_entity_synonyms td_regex_features
        td_lookup_tables map].
  rewrite !intent_message_of, !text_message_of. repeat split.
Qed.

End Facts.


(** *** The properties at sample inputs *)

Import ReaderSamples.

(** Against C5 as stated: with helpers that leave plain text alone, the two
    examples read [- hello] and [- hi].  The bullets stay. *)
Lemma reads_keeps_the_bullets :
  read_yaml plain_helpers greet_yaml = inr greet_document /\
  (fun data => map text (td_training_examples data))
    <$> returned (reads plain_helpers greet_yaml fresh_reader)
  = Some [YStr "- hello"; YStr "- hi"] /\
  [YStr "- hello"; YStr "- hi"] <> [YStr "hello"; YStr "hi"].
Proof.
split; [reflexivity|]. split; [vm_compute; reflexivity | discriminate].
Qed.

(** C5, as amended, with those helpers. *)
Lemma reads_greet_block_witness :
  exists data,
    returned (reads plain_helpers greet_yaml fresh_reader) = Some data /\
    td_training_examples data
    = [message_of plain_helpers (YStr "greet") (YStr "- hello");
       message_of plain_helpers (YStr "greet") (YStr "- hi")] /\
    map intent (td_training_examples data) = [YStr "greet"; YStr "greet"] /\
    map text (td_training_examples data) = [YStr "- hello"; YStr "- hi"] /\
    td_entity_synonyms data = [] /\
    td_regex_features data = [] /\
    td_lookup_tables data = [].
Proof.
apply (reads_greet_block plain_helpers greet_yaml fresh_reader).
reflexivity.
Defined.


(** C10 at two readers: a used one and a fresh one return the same data for
    the same text. *)
Example reads_on_used_reader :
  outcome (reads plain_helpers greet_yaml used_reader)
  = outcome (reads plain_helpers greet_yaml fresh_reader).
Proof. vm_compute. reflexivity. Qed.

End YamlReaderFacts.

(** ** The recipe validator, further *)

Module ValidatorMore.
Import PyFacts CValFacts Validator ValidatorSpec ValidatorTerms ValidatorFacts.

Section More.
Variable K : Classes.

Abbreviation Method := (M Advisory DefaultV1RecipeValidator).
Implicit Types (self : DefaultV1RecipeValidator) (importer : TrainingDataImporter).

Hint Resolve read_only_when total_when emits_only_when : method.

(** *** When [validate] returns *)

Lemma _raise_if_more_than_one_tokenizer_returns self :
  raised (_raise_if_more_than_one_tokenizer K self) = None <->
  (length (tokenizer_nodes K (_graph_schema self)) <= 1)%nat.
Proof.
destruct (le_lt_dec (length (tokenizer_nodes K (_graph_schema self))) 1)
  as [Hle | Hlt].
- rewrite (_raise_if_more_than_one_tokenizer_passes K self Hle).
  split; [intros _; exact Hle | reflexivity].
- rewrite (_raise_if_more_than_one_tokenizer_raises K self Hlt).
  split; [discriminate | lia].
Qed.

Lemma _raise_if_featurizers_are_not_compatible_returns self :
  raised (_raise_if_featurizers_are_not_compatible K self) = None <->
  raise_if_featurizer_configs_are_not_compatible K
    (featurizer_configs K (_graph_schema self)) = None.
Proof.
unfold _raise_if_featurizers_are_not_compatible. rewrite bind_get. cbv zeta.
fold (featurizer_configs K (_graph_schema self)).
destruct (raise_if_featurizer_configs_are_not_compatible K _);
  split; intros H0; (discriminate H0 || reflexivity).
Qed.

Lemma crf_nodes_nil g :
  CRFEntityExtractorGraphComponent ∉ _component_types (__init__ K g) ->
  crf_nodes g = [].
Proof.
intros Hnot. destruct (crf_nodes g) as [|n l] eqn:E; [reflexivity|].
destruct Hnot. apply crf_in_component_types. rewrite E. discriminate.
Qed.

Lemma _warn_if_some_training_data_is_unused_returns training_data g :
  raised (_warn_if_some_training_data_is_unused training_data (__init__ K g))
  = None <->
  lookup_tables training_data = [] \/
  exists b, has_pattern_feature (crf_nodes g) = inr b.
Proof.
unfold _warn_if_some_training_data_is_unused. rewrite bind_get. cbv zeta.
do 5 (rewrite raised_seq by method_auto;
      rewrite (raised_total (when _ _)) by method_auto).
rewrite raised_seq.
2:{ apply read_only_when. method_auto. }
rewrite (raised_total (when _ (raise_warning NoSynonymMapper)))
  by method_auto.
destruct (lookup_tables training_data) as [|t l]; cbn [truthy when].
{ split; [intros _; left; reflexivity | intros _; repeat split]. }
destruct (isdisjoint _ [CRFEntityExtractorGraphComponent; _]) eqn:Hdis.
{ assert (Hnil : crf_nodes g = []).
  { apply crf_nodes_nil. unfold isdisjoint in Hdis. cbn [forallb] in Hdis.
    apply andb_prop in Hdis. destruct Hdis as [Hdis _].
    apply bool_decide_eq_true_1 in Hdis. exact Hdis. }
  split; [|intros _; repeat split].
  intros _. right. exists false. rewrite Hnil. reflexivity. }
destruct (bool_decide (CRFEntityExtractorGraphComponent ∈ _)) eqn:Hin.
- change (List.filter _ (values (_graph_schema (__init__ K g))))
    with (crf_nodes g).
  rewrite raised_lift by method_auto.
  destruct (has_pattern_feature (crf_nodes g)) as [e | b].
  + split; [intros (_ & _ & _ & _ & _ & H & _); discriminate H|].
    intros [H | [b H]]; discriminate H.
  + split; [|intros _; repeat split]. intros _. right. exists b. reflexivity.
- apply bool_decide_eq_false_1 in Hin. rewrite (crf_nodes_nil g Hin).
  split; [|intros _; repeat split]. intros _. right. exists false. reflexivity.
Qed.

Lemma _validate_nlu_returns training_data g :
  raised (_validate_nlu K training_data (__init__ K g)) = None <->
  nlu_accepts K g training_data.
Proof.
unfold _validate_nlu, nlu_accepts.
rewrite raised_seq by apply read_only__raise_if_more_than_one_tokenizer.
rewrite raised_seq by apply read_only__raise_if_featurizers_are_not_compatible.
rewrite raised_seq by apply read_only__warn_of_competing_extractors.
rewrite raised_seq
  by apply read_only__warn_of_competition_with_regex_extractor.
rewrite _raise_if_more_than_one_tokenizer_returns.
rewrite _raise_if_featurizers_are_not_compatible_returns.
rewrite (raised_total _warn_of_competing_extractors)
  by apply total__warn_of_competing_extractors.
rewrite (raised_total (_warn_of_competition_with_regex_extractor _))
  by apply total__warn_of_competition_with_regex_extractor.
rewrite _warn_if_some_training_data_is_unused_returns.
cbn [_graph_schema __init__]. tauto.
Qed.

Lemma _raise_if_domain_contains_form_names_but_no_rule_policy_given_returns
    domain self :
  raised
    (_raise_if_domain_contains_form_names_but_no_rule_policy_given domain self)
  = None <->
  form_names domain = [] \/ rule_policy_nodes (_graph_schema self) <> [].
Proof.
unfold _raise_if_domain_contains_form_names_but_no_rule_policy_given.
rewrite bind_get. cbv zeta.
fold (rule_policy_nodes (_graph_schema self)).
destruct (form_names domain) as [|f l]; cbn [truthy andb].
{ split; [intros _; left; reflexivity | reflexivity]. }
destruct (rule_policy_nodes (_graph_schema self)) as [|n ns]; cbn.
- split; [discriminate|]. intros [H0 | H0]; [discriminate H0 | destruct H0].
  reflexivity.
- split; [intros _; right; discriminate | reflexivity].
Qed.

Lemma _raise_if_a_rule_policy_is_incompatible_with_domain_returns domain self :
  raised (_raise_if_a_rule_policy_is_incompatible_with_domain K domain self)
  = None <->
  Forall
    (fun n => raise_if_incompatible_with_domain K (config n) domain = None)
    (rule_policy_nodes (_graph_schema self)).
Proof.
unfold _raise_if_a_rule_policy_is_incompatible_with_domain.
rewrite bind_get. unfold rule_policy_nodes.
induction (values (_graph_schema self)) as [|n l IH]; cbn [for_each List.filter].
- split; [intros _; constructor | reflexivity].
- rewrite raised_seq by method_auto. rewrite IH.
  destruct (bool_decide (uses n = RulePolicyGraphComponent)).
  + rewrite Forall_cons.
    destruct (raise_if_incompatible_with_domain K (config n) domain) as [e|].
    * split; intros [H0 _]; discriminate H0.
    * split; intros [_ H0]; (split; [reflexivity | exact H0]).
  + split; [intros [_ H0]; exact H0 | intros H0; split; [reflexivity | exact H0]].
Qed.

Lemma collect_priorities_returns l d :
  (exists d', collect_priorities K l d = inr d') <->
  Forall
    (fun n => exists priority,
       effective_priority K n = Some priority /\ hashable priority = true)
    l.
Proof.
revert d. induction l as [|n l IH]; intros d; cbn [collect_priorities].
- split; [intros _; constructor | intros _; exists d; reflexivity].
- rewrite Forall_cons. unfold effective_priority at 1.
  destruct (default_priority K (uses n)) as [default_priority|].
  2: { split; [intros [d' H0]; discriminate H0|].
       intros [(priority & H0 & _) _]. discriminate H0. }
  destruct (hashable (default default_priority (config n !! "priority")))
    eqn:Eh.
  + rewrite IH. split; [|tauto].
    intros HF. split; [|exact HF]. eexists. split; [reflexivity | exact Eh].
  + split; [intros [d' H0]; discriminate H0|].
    intros [(priority & H0 & Hh) _]. injection H0 as <-.
    rewrite Eh in Hh. discriminate Hh.
Qed.

Lemma _warn_if_priorities_are_not_unique_returns_iff self :
  raised (_warn_if_priorities_are_not_unique K self) = None <->
  Forall
    (fun n => exists priority,
       effective_priority K n = Some priority /\ hashable priority = true)
    (_policy_schema_nodes self).
Proof.
rewrite <- (collect_priorities_returns _ []).
unfold _warn_if_priorities_are_not_unique. rewrite bind_get.
rewrite raised_lift.
2:{ intros d. apply total_for_each. intros [k v]. method_auto. }
destruct (collect_priorities K (_policy_schema_nodes self) []) as [e | d].
- split; [discriminate | intros [d' H0]; discriminate H0].
- split; [intros _; exists d; reflexivity | reflexivity].
Qed.

Lemma _validate_core_returns story_graph domain g :
  raised (_validate_core K story_graph domain (__init__ K g)) = None <->
  core_accepts K g domain.
Proof.
unfold core_accepts.
destruct (_policy_schema_nodes (__init__ K g)) as [|n l] eqn:E.
- rewrite (_validate_core_without_policies K _ _ _ E).
  split; [intros _; left; reflexivity | reflexivity].
- rewrite _validate_core_with_policies by (rewrite E; reflexivity).
  rewrite raised_seq by apply read_only__warn_if_no_rule_policy_is_contained.
  rewrite raised_seq
    by apply
         read_only__raise_if_domain_contains_form_names_but_no_rule_policy_given.
  rewrite raised_seq
    by apply read_only__raise_if_a_rule_policy_is_incompatible_with_domain.
  rewrite raised_seq by apply read_only__warn_if_priorities_are_not_unique.
  rewrite (raised_total _warn_if_no_rule_policy_is_contained)
    by apply total__warn_if_no_rule_policy_is_contained.
  rewrite (raised_total (_warn_if_rule_based_data_is_unused_or_missing K _))
    by apply total__warn_if_rule_based_data_is_unused_or_missing.
  rewrite _raise_if_domain_contains_form_names_but_no_rule_policy_given_returns.
  rewrite _raise_if_a_rule_policy_is_incompatible_with_domain_returns.
  rewrite _warn_if_priorities_are_not_unique_returns_iff.
  cbn [_graph_schema __init__] in *. rewrite E.
  split.
  + intros (_ & Hf & Hc & Hp & _). right. repeat split; assumption.
  + intros [H0 | (Hf & Hc & Hp)]; [discriminate H0|]. repeat split; assumption.
Qed.


(** *** Where the advisories of [validate] come from *)

Lemma silent_In {A} (m : Method A) self w :
  emits_only (fun _ => False) m -> ~ In w (emitted (m self)).
Proof. intros Hm Hin. exact (emits_only_In _ m self w Hm Hin). Qed.

(** An advisory of the core pass is the no-policy advisory of a schema
    without policies or, on a schema with policies, an advisory of one of
    its three advisory checks. *)
Lemma In_emitted__validate_core story_graph domain self w :
  In w (emitted (_validate_core K story_graph domain self)) ->
  (w = NoPolicyConfigured /\
   _policy_schema_nodes self = [] /\ story_steps story_graph <> []) \/
  (_policy_schema_nodes self <> [] /\
   (In w (emitted (_warn_if_no_rule_policy_is_contained self)) \/
    In w (emitted (_warn_if_priorities_are_not_unique K self)) \/
    In w (emitted
            (_warn_if_rule_based_data_is_unused_or_missing K story_graph self)))).
Proof.
destruct (_policy_schema_nodes self) as [|n l] eqn:E.
- unfold _validate_core. rewrite bind_get, E. cbn [truthy negb andb].
  destruct (story_steps story_graph) as [|st sts]; cbn.
  + intros [].
  + intros [<- | []]. left. repeat split. discriminate.
- rewrite _validate_core_with_policies by (rewrite E; reflexivity).
  intros Hin. right. split; [discriminate|].
  apply In_emitted_seq in Hin;
    [|apply read_only__warn_if_no_rule_policy_is_contained].
  destruct Hin as [Hin | [_ Hin]]; [left; exact Hin|].
  apply In_emitted_seq in Hin;
    [|apply
        read_only__raise_if_domain_contains_form_names_but_no_rule_policy_given].
  destruct Hin as [Hin | [_ Hin]].
  { destruct (silent_In _ self w
      (silent__raise_if_domain_contains_form_names_but_no_rule_policy_given
         _ domain) Hin). }
  apply In_emitted_seq in Hin;
    [|apply read_only__raise_if_a_rule_policy_is_incompatible_with_domain].
  destruct Hin as [Hin | [_ Hin]].
  { destruct (silent_In _ self w
      (silent__raise_if_a_rule_policy_is_incompatible_with_domain K _ domain)
      Hin). }
  apply In_emitted_seq in Hin;
    [|apply read_only__warn_if_priorities_are_not_unique].
  destruct Hin as [Hin | [_ Hin]]; [right; left; exact Hin|].
  right. right. exact Hin.
Qed.

Lemma In_emitted__validate_nlu training_data self w :
  In w (emitted (_validate_nlu K training_data self)) ->
  In w (emitted (_warn_of_competing_extractors self)) \/
  In w (emitted (_warn_of_competition_with_regex_extractor training_data self)) \/
  In w (emitted (_warn_if_some_training_data_is_unused training_data self)).
Proof.
unfold _validate_nlu. intros Hin.
apply In_emitted_seq in Hin;
  [|apply read_only__raise_if_more_than_one_tokenizer].
destruct Hin as [Hin | [_ Hin]].
{ destruct (silent_In _ self w
              (silent__raise_if_more_than_one_tokenizer K _) Hin). }
apply In_emitted_seq in Hin;
  [|apply read_only__raise_if_featurizers_are_not_compatible].
destruct Hin as [Hin | [_ Hin]].
{ destruct (silent_In _ self w
              (silent__raise_if_featurizers_are_not_compatible K _) Hin). }
apply In_emitted_seq in Hin; [|apply read_only__warn_of_competing_extractors].
destruct Hin as [Hin | [_ Hin]]; [left; exact Hin|].
apply In_emitted_seq in Hin;
  [|apply read_only__warn_of_competition_with_regex_extractor].
destruct Hin as [Hin | [_ Hin]]; [right; left; exact Hin|].
right. right. exact Hin.
Qed.

Lemma In_emitted_validate importer self w :
  In w (emitted (validate K importer self)) ->
  In w (emitted (_validate_nlu K (get_nlu_data importer) self)) \/
  In w (emitted
          (_validate_core K (get_stories importer) (get_domain importer) self)).
Proof.
rewrite emitted_validate. intros Hin. apply in_app_or in Hin.
destruct Hin as [Hin | Hin]; [left; exact Hin|].
destruct (outcome (_validate_nlu K _ self)); [destruct Hin | right; exact Hin].
Qed.

(** The advisory of a given check, found in [validate], was emitted by that
    check. *)
Lemma In_emitted_validate_of_emitter importer self w :
  In w (emitted (validate K importer self)) ->
  match emitter w with
  | CompetingExtractorsCheck => In w (emitted (_warn_of_competing_extractors self))
  | RegexCompetitionCheck =>
      In w (emitted
              (_warn_of_competition_with_regex_extractor
                 (get_nlu_data importer) self))
  | UnusedDataCheck =>
      In w (emitted
              (_warn_if_some_training_data_is_unused (get_nlu_data importer) self))
  | PolicyPresenceCheck =>
      _policy_schema_nodes self = [] /\ story_steps (get_stories importer) <> []
  | RulePolicyPresenceCheck =>
      _policy_schema_nodes self <> [] /\
      In w (emitted (_warn_if_no_rule_policy_is_contained self))
  | PriorityCheck =>
      _policy_schema_nodes self <> [] /\
      In w (emitted (_warn_if_priorities_are_not_unique K self))
  | RuleDataCheck =>
      _policy_schema_nodes self <> [] /\
      In w (emitted
              (_warn_if_rule_based_data_is_unused_or_missing K
                 (get_stories importer) self))
  end.
Proof.
intros Hin.
pose proof (fun (m : Method unit) c
                (Hm : emits_only (fun w => emitter w = c) m)
                (H0 : In w (emitted (m self))) =>
              emits_only_In _ m self w Hm H0) as Hfrom.
apply In_emitted_validate in Hin. destruct Hin as [Hin | Hin].
- apply In_emitted__validate_nlu in Hin. destruct Hin as [Hin | [Hin | Hin]].
  + rewrite (Hfrom _ _ emitter__warn_of_competing_extractors Hin). exact Hin.
  + rewrite (Hfrom _ _
               (emitter__warn_of_competition_with_regex_extractor _) Hin).
    exact Hin.
  + rewrite (Hfrom _ _ (emitter__warn_if_some_training_data_is_unused _) Hin).
    exact Hin.
- apply In_emitted__validate_core in Hin.
  destruct Hin as [(-> & Hp & Hs) | (Hp & [Hin | [Hin | Hin]])].
  + cbn. split; assumption.
  + rewrite (Hfrom _ _ emitter__warn_if_no_rule_policy_is_contained Hin).
    split; assumption.
  + rewrite (Hfrom _ _ (emitter__warn_if_priorities_are_not_unique K) Hin).
    split; assumption.
  + rewrite (Hfrom _ _
               (emitter__warn_if_rule_based_data_is_unused_or_missing K _) Hin).
    split; assumption.
Qed.

(** *** What a same-priority advisory says *)

Lemma In_emitted__warn_if_priorities_are_not_unique self v k :
  In (SamePriority v k) (emitted (_warn_if_priorities_are_not_unique K self)) ->
  v = filed_under K (_policy_schema_nodes self) k /\ (1 < length v)%nat.
Proof.
unfold _warn_if_priorities_are_not_unique. rewrite bind_get.
destruct (collect_priorities K (_policy_schema_nodes self) []) as [e | d] eqn:E.
{ intros []. }
rewrite bind_lift, emitted_same_priority_loop.
intros Hin. apply in_flat_map in Hin. destruct Hin as ([k' v'] & Hentry & Hin).
unfold same_priority_advisory in Hin.
destruct (1 <? length v')%nat eqn:Hlen; [|destruct Hin].
destruct Hin as [Heq | []]. injection Heq as -> ->.
apply Nat.ltb_lt in Hlen. split; [|exact Hlen].
destruct (collect_priorities_inr K _ _ _ E NoDup_nil_2) as [Hnd Hget].
rewrite <- (dict_get_entry _ _ _ Hnd Hentry). apply Hget.
Qed.

Lemma length_filter_NoDup {A} (f : A -> option CVal) (l : list A) k :
  NoDup (map f l) ->
  (length
     (List.filter
        (fun x => match f x with Some p => CVal_eqb p k | None => false end)
        l) <= 1)%nat.
Proof.
induction l as [|x l IH]; cbn [map List.filter]; intros Hnd; [simpl; lia|].
apply NoDup_cons in Hnd. destruct Hnd as [Hnotin Hnd].
destruct (f x) as [p|] eqn:Ex; [|apply IH; exact Hnd].
destruct (CVal_eqb p k) eqn:E; [|apply IH; exact Hnd].
apply CVal_eqb_eq in E. subst k.
assert (Hnil :
  List.filter
    (fun y => match f y with Some q => CVal_eqb q p | None => false end) l
  = []).
{ destruct (List.filter _ l) as [|y l'] eqn:Ef; [reflexivity|].
  assert (Hy : In y (List.filter
                       (fun y => match f y with
                                 | Some q => CVal_eqb q p
                                 | None => false
                                 end) l))
    by (rewrite Ef; left; reflexivity).
  apply List.filter_In in Hy. destruct Hy as [Hy Hfy].
  destruct (f y) as [q|] eqn:Ey; [|discriminate Hfy].
  apply CVal_eqb_eq in Hfy. subst q. destruct Hnotin. rewrite <- Ey.
  apply list_elem_of_In, in_map, Hy. }
rewrite Hnil. simpl. lia.
Qed.

(** X2. A same-priority advisory that [validate] emits for a priority lists
    exactly the classes of the policy nodes that run with that priority, in
    schema order, and there are at least two of them. *)
Theorem same_priority_advisory_lists_the_sharing_policies g importer v k :
  In (SamePriority v k) (emitted (validate K importer (__init__ K g))) ->
  v = map uses (policy_nodes_with_priority K g k) /\ (2 <= length v)%nat.
Proof.
intros Hin. apply In_emitted_validate_of_emitter in Hin.
cbn [emitter] in Hin. destruct Hin as [_ Hin].
apply In_emitted__warn_if_priorities_are_not_unique in Hin.
destruct Hin as [-> Hlen]. split; [reflexivity | lia].
Qed.

(** X3. When the policy nodes run with pairwise different priorities,
    [validate] emits no same-priority advisory, whether it returns or
    raises. *)
Theorem distinct_priorities_give_no_advisory g importer :
  NoDup (map (effective_priority K) (_policy_schema_nodes (__init__ K g))) ->
  List.filter is_SamePriority (emitted (validate K importer (__init__ K g)))
  = [].
Proof.
intros Hnd.
destruct (List.filter is_SamePriority _) as [|w ws] eqn:E; [reflexivity|].
assert (Hw : In w (List.filter is_SamePriority
                     (emitted (validate K importer (__init__ K g)))))
  by (rewrite E; left; reflexivity).
apply List.filter_In in Hw. destruct Hw as [Hin Hw].
destruct w; try discriminate Hw.
apply In_emitted_validate_of_emitter in Hin.
cbn [emitter] in Hin. destruct Hin as [_ Hin].
apply In_emitted__warn_if_priorities_are_not_unique in Hin.
destruct Hin as [-> Hlen]. unfold filed_under in Hlen.
rewrite length_map in Hlen.
pose proof (length_filter_NoDup (effective_priority K)
              (_policy_schema_nodes (__init__ K g)) priority Hnd) as Hone.
change (List.filter _ (_policy_schema_nodes (__init__ K g)))
  with (List.filter (runs_with K priority)
          (_policy_schema_nodes (__init__ K g))) in Hone.
lia.
Qed.

(** *** What the rule-data and policy advisories say *)

(** X4. The two rule-data advisories of [validate] are justified and exclude
    each other: "rule data missing" means that a policy consumes rule data
    and the story graph has no rule step, "rule data unused" the reverse;
    and either means that the schema has a policy node. *)
Theorem rule_data_advisories_are_justified g importer :
  (In RuleDataMissing (emitted (validate K importer (__init__ K g))) ->
   _policy_schema_nodes (__init__ K g) <> [] /\
   consuming_rule_data K g = true /\
   contains_rule_tracker (get_stories importer) = false) /\
  (In RuleDataUnused (emitted (validate K importer (__init__ K g))) ->
   _policy_schema_nodes (__init__ K g) <> [] /\
   consuming_rule_data K g = false /\
   contains_rule_tracker (get_stories importer) = true).
Proof.
split; intros Hin; apply In_emitted_validate_of_emitter in Hin;
  cbn [emitter] in Hin; destruct Hin as [Hpol Hin]; (split; [exact Hpol|]);
  rewrite emitted__warn_if_rule_based_data_is_unused_or_missing in Hin;
  destruct (consuming_rule_data K g),
    (contains_rule_tracker (get_stories importer));
  cbn in Hin; intuition discriminate.
Qed.

Lemma emitted__warn_if_no_rule_policy_is_contained self :
  emitted (_warn_if_no_rule_policy_is_contained self) =
  if existsb (fun node => bool_decide (uses node = RulePolicyGraphComponent))
       (_policy_schema_nodes self)
  then [] else [NoRulePolicy].
Proof.
unfold _warn_if_no_rule_policy_is_contained. rewrite bind_get.
destruct (existsb _ _); reflexivity.
Qed.

(** X5. Once the NLU pass has returned, [validate] emits the no-policy
    advisory exactly when the schema has no policy node and the story graph
    has story steps, and the no-rule-policy advisory exactly when the schema
    has policy nodes and none of them is the rule policy. *)
Theorem policy_advisories_iff g importer :
  raised (_validate_nlu K (get_nlu_data importer) (__init__ K g)) = None ->
  (In NoPolicyConfigured (emitted (validate K importer (__init__ K g))) <->
   _policy_schema_nodes (__init__ K g) = [] /\
   story_steps (get_stories importer) <> []) /\
  (In NoRulePolicy (emitted (validate K importer (__init__ K g))) <->
   _policy_schema_nodes (__init__ K g) <> [] /\
   Forall (fun n => uses n <> RulePolicyGraphComponent)
     (_policy_schema_nodes (__init__ K g))).
Proof.
intros Hnlu. set (self := __init__ K g) in *.
assert (Hcore : forall w,
  In w (emitted (_validate_core K (get_stories importer)
                   (get_domain importer) self)) ->
  In w (emitted (validate K importer self))).
{ intros w Hw. rewrite emitted_validate. apply in_or_app. right.
  unfold raised in Hnlu.
  destruct (outcome (_validate_nlu K _ self)); [discriminate Hnlu | exact Hw]. }
split; split.
- intros Hin. apply In_emitted_validate_of_emitter in Hin. exact Hin.
- intros [Hp Hs]. apply Hcore. unfold _validate_core.
  rewrite bind_get, Hp. cbn [truthy negb andb].
  destruct (story_steps (get_stories importer)); [contradiction|].
  cbn. left. reflexivity.
- intros Hin. apply In_emitted_validate_of_emitter in Hin.
  cbn [emitter] in Hin. destruct Hin as [Hp Hin]. split; [exact Hp|].
  rewrite emitted__warn_if_no_rule_policy_is_contained in Hin.
  destruct (existsb _ _) eqn:E; [destruct Hin|].
  apply List.Forall_forall. intros n Hn Hu.
  assert (Hex : existsb
            (fun node => bool_decide (uses node = RulePolicyGraphComponent))
            (_policy_schema_nodes self) = true).
  { apply existsb_exists. exists n. split; [exact Hn|].
    apply bool_decide_eq_true_2. exact Hu. }
  congruence.
- intros [Hp Hall]. apply Hcore.
  rewrite _validate_core_with_policies
    by (destruct (_policy_schema_nodes self); [contradiction | reflexivity]).
  rewrite emitted_bind. apply in_or_app. left.
  rewrite emitted__warn_if_no_rule_policy_is_contained.
  destruct (existsb _ _) eqn:E; [|left; reflexivity].
  apply existsb_exists in E. destruct E as (n & Hn & Hu).
  apply bool_decide_eq_true_1 in Hu.
  rewrite List.Forall_forall in Hall. destruct (Hall n Hn Hu).
Qed.

(** *** What the extractor advisories say *)

(** X6. A competing-extractors advisory of [validate] lists, without
    repetition, exactly the trainable extractors that some schema node uses,
    and at least two of them. *)
Theorem competing_extractors_advisory_lists_the_extractors g importer l :
  In (CompetingExtractors l) (emitted (validate K importer (__init__ K g))) ->
  NoDup l /\ (2 <= length l)%nat /\
  forall t, In t l <-> In t TRAINABLE_EXTRACTORS /\ In t (map uses (values g)).
Proof.
intros Hin. apply In_emitted_validate_of_emitter in Hin. cbn [emitter] in Hin.
rewrite emitted__warn_of_competing_extractors in Hin.
destruct (bool_decide _) eqn:E; [|destruct Hin].
destruct Hin as [Heq | []]. injection Heq as <-.
apply bool_decide_eq_true_1 in E.
split; [apply NoDup_elements|]. split.
- unfold size, set_size in E. exact E.
- intros t. rewrite <- list_elem_of_In, elem_of_elements.
  rewrite elem_of_intersection_list, elem_of_list_to_set, list_elem_of_In.
  tauto.
Qed.

(** X7. A regex-overlap advisory of [validate] is justified: the regex
    entity extractor and at least one trainable extractor are in the schema,
    the extractors it lists are the trainable ones in the schema, and the
    entity types it lists, at least one, are those of the training data
    that also name a regex feature. *)
Theorem regex_overlap_advisory_is_justified g importer extractors types :
  In (RegexExtractorOverlap extractors types)
    (emitted (validate K importer (__init__ K g))) ->
  In RegexEntityExtractorGraphComponent (map uses (values g)) /\
  extractors <> [] /\
  (forall t, In t extractors <->
     In t TRAINABLE_EXTRACTORS /\ In t (map uses (values g))) /\
  types <> [] /\
  (forall label, In label types <->
     label ∈ entities (get_nlu_data importer) /\
     In label (map rf_name (regex_features (get_nlu_data importer)))).
Proof.
intros Hin. apply In_emitted_validate_of_emitter in Hin. cbn [emitter] in Hin.
unfold _warn_of_competition_with_regex_extractor in Hin.
rewrite bind_get in Hin. cbv zeta in Hin.
destruct (bool_decide (0 < size (intersection _ _))%nat) eqn:Eg;
  [|destruct Hin].
destruct (bool_decide (RegexEntityExtractorGraphComponent ∈ _)) eqn:Er;
  [|destruct Hin].
destruct (bool_decide (0 < size (entities _ ∩ _))%nat) eqn:Eo; [|destruct Hin].
destruct Hin as [Heq | []]. injection Heq as <- <-.
apply bool_decide_eq_true_1 in Eg, Er, Eo.
split; [exact (proj1 (elem_of_component_types K g _) Er)|].
split.
{ intros Hnil. unfold size, set_size in Eg. cbn [compose] in Eg.
  cbn [_component_types __init__] in Eg. rewrite Hnil in Eg. simpl in Eg. lia. }
split.
{ intros t. rewrite <- list_elem_of_In, elem_of_elements.
  rewrite elem_of_intersection_list.
  change (_component_types (__init__ K g))
    with (list_to_set (map uses (values g)) : gset ComponentType).
  rewrite elem_of_list_to_set, list_elem_of_In. tauto. }
split.
{ intros Hnil. unfold size, set_size in Eo. cbn [compose] in Eo.
  rewrite Hnil in Eo. simpl in Eo. lia. }
intros label. rewrite <- list_elem_of_In, elem_of_elements.
rewrite elem_of_intersection, elem_of_list_to_set, list_elem_of_In.
reflexivity.
Qed.

(** *** What the unused-data advisories say *)

Lemma isdisjoint_true g l :
  isdisjoint (_component_types (__init__ K g)) l = true <->
  forall t, In t l -> ~ configured g t.
Proof.
unfold isdisjoint. rewrite forallb_forall. split; intros Hall t Ht.
- specialize (Hall t Ht). apply bool_decide_eq_true_1 in Hall.
  intros Hc. apply Hall. apply (elem_of_component_types K). exact Hc.
- apply bool_decide_eq_true_2. intros Hc. apply (Hall t Ht).
  apply (elem_of_component_types K). exact Hc.
Qed.

Lemma In_when_warning b (w' w : Advisory) self :
  In w (emitted (when b (raise_warning w') self)) <-> b = true /\ w = w'.
Proof.
destruct b; cbn.
- split; [intros [Hw | []]; auto | intros [_ ->]; left; reflexivity].
- split; [intros [] | intros [Hb _]; discriminate Hb].
Qed.

Lemma truthy_true {A} (l : list A) : truthy l = true <-> l <> [].
Proof. destruct l; cbn; split; congruence. Qed.

(** The lookup-table step of the unused-data check. *)
Lemma In_emitted_lookup_step training_data g w :
  In w
    (emitted
       (when (truthy (lookup_tables training_data))
          (if isdisjoint (_component_types (__init__ K g))
                [CRFEntityExtractorGraphComponent; DIETClassifierGraphComponent]
           then raise_warning NoLookupTableFeatureUser
           else if bool_decide
                     (CRFEntityExtractorGraphComponent
                      ∈ _component_types (__init__ K g))
           then
             do has_pattern <- lift (has_pattern_feature (crf_nodes g));
             when (negb has_pattern) (raise_warning NoPatternFeature)
           else ret tt) (__init__ K g))) <->
  lookup_tables training_data <> [] /\
  ((w = NoLookupTableFeatureUser /\
    ~ configured g CRFEntityExtractorGraphComponent /\
    ~ configured g DIETClassifierGraphComponent) \/
   (w = NoPatternFeature /\
    configured g CRFEntityExtractorGraphComponent /\
    has_pattern_feature (crf_nodes g) = inr false)).
Proof.
rewrite <- truthy_true.
destruct (truthy (lookup_tables training_data)); cbn [when].
2:{ cbn. split; [intros [] | intros [Hb _]; discriminate Hb]. }
destruct (isdisjoint _ _) eqn:Hdis.
- pose proof (proj1 (isdisjoint_true g _) Hdis) as Hnone. clear Hdis.
  rename Hnone into Hdis. cbn. split.
  + intros [<- | []]. split; [reflexivity|]. left.
    split; [reflexivity|]. split; apply Hdis; cbn; tauto.
  + intros [_ [(-> & _) | (_ & Hc & _)]]; [left; reflexivity|].
    destruct (Hdis CRFEntityExtractorGraphComponent); [left; reflexivity|].
    exact Hc.
- assert (Hsome : ~ (~ configured g CRFEntityExtractorGraphComponent /\
                     ~ configured g DIETClassifierGraphComponent)).
  { intros [Hc Hd].
    assert (Htrue : isdisjoint (_component_types (__init__ K g))
              [CRFEntityExtractorGraphComponent; DIETClassifierGraphComponent]
            = true).
    { apply isdisjoint_true. intros t [<- | [<- | []]]; assumption. }
    congruence. }
  destruct (bool_decide _) eqn:Hin.
  + apply bool_decide_eq_true_1 in Hin.
    apply (elem_of_component_types K) in Hin.
    destruct (has_pattern_feature (crf_nodes g)) as [e | [|]] eqn:Hp.
    * cbn. split; [intros []|].
      intros [_ [(_ & Hc & Hd) | (_ & _ & H0)]];
        [destruct (Hsome (conj Hc Hd)) | discriminate H0].
    * rewrite bind_lift. cbn. split; [intros []|].
      intros [_ [(_ & Hc & Hd) | (_ & _ & H0)]];
        [destruct (Hsome (conj Hc Hd)) | discriminate H0].
    * rewrite bind_lift. cbn. split.
      -- intros [<- | []]. split; [reflexivity|]. right. repeat split. exact Hin.
      -- intros [_ [(_ & Hc & Hd) | (-> & _)]];
           [destruct (Hsome (conj Hc Hd)) | left; reflexivity].
  + apply bool_decide_eq_false_1 in Hin.
    assert (Hnc : ~ configured g CRFEntityExtractorGraphComponent).
    { intros Hc. apply Hin. apply (elem_of_component_types K). exact Hc. }
    cbn. split; [intros []|].
    intros [_ [(_ & Hc & Hd) | (_ & Hc & _)]];
      [destruct (Hsome (conj Hc Hd)) | destruct (Hnc Hc)].
Qed.

(** When the unused-data check returns, its advisories are those of its
    seven steps. *)
Lemma In_emitted__warn_if_some_training_data_is_unused training_data g w :
  raised (_warn_if_some_training_data_is_unused training_data (__init__ K g))
  = None ->
  let self := __init__ K g in
  let types := _component_types self in
  In w (emitted (_warn_if_some_training_data_is_unused training_data self)) <->
  (truthy (response_examples training_data)
   && bool_decide (ResponseSelectorGraphComponent ∉ types) = true /\
   w = NoResponseSelector) \/
  (truthy (entity_examples training_data)
   && isdisjoint types TRAINABLE_EXTRACTORS = true /\
   w = NoTrainableExtractor) \/
  (truthy (entity_examples training_data)
   && isdisjoint types
        [DIETClassifierGraphComponent; CRFEntityExtractorGraphComponent]
   = true /\
   entity_roles_groups_used training_data = true /\
   w = NoExtractorForRolesGroups) \/
  (truthy (regex_features training_data)
   && isdisjoint types
        [RegexFeaturizerGraphComponent; RegexEntityExtractorGraphComponent]
   = true /\
   w = NoRegexComponent) \/
  (truthy (lookup_tables training_data)
   && isdisjoint types
        [RegexFeaturizerGraphComponent; RegexEntityExtractorGraphComponent]
   = true /\
   w = NoLookupTableComponent) \/
  (lookup_tables training_data <> [] /\
   ((w = NoLookupTableFeatureUser /\
     ~ configured g CRFEntityExtractorGraphComponent /\
     ~ configured g DIETClassifierGraphComponent) \/
    (w = NoPatternFeature /\
     configured g CRFEntityExtractorGraphComponent /\
     has_pattern_feature (crf_nodes g) = inr false))) \/
  (truthy (entity_synonyms training_data)
   && bool_decide (EntitySynonymMapperComponent ∉ types) = true /\
   w = NoSynonymMapper).
Proof.
intros Hret. cbv zeta.
set (self := __init__ K g) in *. set (types := _component_types self) in *.
unfold _warn_if_some_training_data_is_unused in *.
rewrite bind_get in *. cbv zeta in *. fold types in Hret |- *.
do 5 (apply raised_seq in Hret; [|method_auto]; destruct Hret as [_ Hret]).
apply raised_seq in Hret; [|apply read_only_when; method_auto].
destruct Hret as [Hret _].
do 5 (rewrite emitted_bind_check by method_auto; rewrite in_app_iff).
rewrite emitted_bind, in_app_iff.
unfold raised in Hret.
match type of Hret with
| match outcome ?r with _ => _ end = None =>
    destruct (outcome r) as [e | []] eqn:Hout; [discriminate Hret|]
end.
match goal with
| |- context [final (?m self)] =>
    replace (final (m self)) with self
      by (symmetry; apply read_only_when; method_auto)
end.
rewrite !In_when_warning.
change (List.filter _ (values (_graph_schema self))) with (crf_nodes g).
pose proof (In_emitted_lookup_step training_data g w) as Hlookup.
fold self in Hlookup. fold types in Hlookup. rewrite Hlookup.
assert (Hroles :
  In w (emitted
          (when (truthy (entity_examples training_data)
                 && isdisjoint types
                      [DIETClassifierGraphComponent;
                       CRFEntityExtractorGraphComponent])
             (when (entity_roles_groups_used training_data)
                (raise_warning NoExtractorForRolesGroups)) self)) <->
  truthy (entity_examples training_data)
  && isdisjoint types
       [DIETClassifierGraphComponent; CRFEntityExtractorGraphComponent]
  = true /\
  entity_roles_groups_used training_data = true /\
  w = NoExtractorForRolesGroups).
{ destruct (_ && _); cbn [when].
  - rewrite In_when_warning. tauto.
  - cbn. split; [intros [] | intros [H0 _]; discriminate H0]. }
rewrite Hroles. tauto.
Qed.

Lemma unused_and_disjoint {A} (l : list A) g classes :
  truthy l && isdisjoint (_component_types (__init__ K g)) classes = true <->
  l <> [] /\ forall t, In t classes -> ~ configured g t.
Proof.
rewrite andb_true_iff, truthy_true, isdisjoint_true. reflexivity.
Qed.

Lemma unused_and_absent {A} (l : list A) g t :
  truthy l && bool_decide (t ∉ _component_types (__init__ K g)) = true <->
  l <> [] /\ ~ configured g t.
Proof.
rewrite andb_true_iff, truthy_true, bool_decide_eq_true.
unfold configured. rewrite <- (elem_of_component_types K). reflexivity.
Qed.


(** *** Reading the features of the CRF nodes *)

Lemma any_pattern_in_feature_lists l :
  forallb is_feature_list l = true ->
  any_pattern_in l
  = inr (existsb
           (fun feature_list =>
              match feature_list with
              | VList names => existsb (CVal_eqb PATTERN) names
              | _ => false
              end) l).
Proof.
induction l as [|fl l IH]; cbn [forallb any_pattern_in existsb];
  [reflexivity|].
intros Hall. apply andb_prop in Hall. destruct Hall as [Hfl Hall].
destruct fl as [| z | s | names]; try discriminate Hfl.
cbn [py_contains]. destruct (existsb (CVal_eqb PATTERN) names);
  [reflexivity | apply IH; exact Hall].
Qed.

(** X9. On CRF nodes whose [features], where given, are a list of lists of
    strings, reading the features raises nothing, and the pattern feature is
    found exactly when some node names it in one of its feature lists. *)
Theorem has_pattern_feature_on_well_formed_features crf_schema_nodes :
  forallb well_formed_features crf_schema_nodes = true ->
  has_pattern_feature crf_schema_nodes
  = inr (existsb lists_pattern crf_schema_nodes).
Proof.
induction crf_schema_nodes as [|n l IH];
  cbn [forallb has_pattern_feature existsb]; [reflexivity|].
intros Hall. apply andb_prop in Hall. destruct Hall as [Hn Hall].
unfold well_formed_features in Hn. unfold lists_pattern at 1.
destruct (config n !! "features") as [[| z | s | fls] |]; try discriminate Hn.
- cbn [from_option id py_iter].
  rewrite (any_pattern_in_feature_lists fls Hn).
  destruct (existsb _ fls); [reflexivity | apply IH; exact Hall].
- cbn [from_option id py_iter any_pattern_in]. apply IH. exact Hall.
Qed.

Lemma has_pattern_feature_raises l e :
  has_pattern_feature l = inl e -> e = TypeError.
Proof.
assert (Hany : forall fls, any_pattern_in fls = inl e -> e = TypeError).
{ induction fls as [|fl fls IH]; cbn [any_pattern_in]; [discriminate|].
  destruct fl as [| z | s | names]; cbn [py_contains].
  - intros H0. injection H0 as <-. reflexivity.
  - intros H0. injection H0 as <-. reflexivity.
  - unfold PATTERN. destruct (is_substring "pattern" s); [discriminate | exact IH].
  - destruct (existsb _ names); [discriminate | exact IH]. }
induction l as [|n l IH]; cbn [has_pattern_feature]; [discriminate|].
destruct (py_iter _) as [e' | fls] eqn:Hiter.
- intros H0. injection H0 as <-.
  destruct (default (VList []) (config n !! "features")); cbn in Hiter;
    congruence.
- destruct (any_pattern_in fls) as [e' | [|]] eqn:Hfls.
  + intros H0. injection H0 as <-. apply (Hany fls Hfls).
  + discriminate.
  + exact IH.
Qed.

(** *** Why [validate] raises *)

Lemma _warn_if_some_training_data_is_unused_raises training_data g e :
  raised (_warn_if_some_training_data_is_unused training_data (__init__ K g))
  = Some e ->
  e = TypeError /\ lookup_tables training_data <> [] /\
  has_pattern_feature (crf_nodes g) = inl TypeError.
Proof.
unfold _warn_if_some_training_data_is_unused. rewrite bind_get. cbv zeta.
intros H0.
do 5 (apply raised_seq_Some in H0; [|method_auto];
      destruct H0 as [H0 | [_ H0]];
      [rewrite raised_total in H0 by method_auto; discriminate H0|]).
apply raised_seq_Some in H0; [|apply read_only_when; method_auto].
destruct H0 as [H0 | [_ H0]];
  [|rewrite raised_total in H0 by method_auto; discriminate H0].
destruct (lookup_tables training_data) as [|t l]; [discriminate H0|].
cbn [truthy when] in H0.
destruct (isdisjoint _ _); [discriminate H0|].
destruct (bool_decide _); [|discriminate H0].
change (List.filter _ (values (_graph_schema (__init__ K g))))
  with (crf_nodes g) in H0.
rewrite raised_lift in H0 by method_auto.
destruct (has_pattern_feature (crf_nodes g)) as [e' | b] eqn:Hp;
  [|discriminate H0].
injection H0 as <-. pose proof (has_pattern_feature_raises _ _ Hp) as ->.
repeat split. discriminate.
Qed.

Lemma _raise_if_a_rule_policy_is_incompatible_with_domain_raises domain self e :
  raised (_raise_if_a_rule_policy_is_incompatible_with_domain K domain self)
  = Some e ->
  exists n, In n (rule_policy_nodes (_graph_schema self)) /\
    raise_if_incompatible_with_domain K (config n) domain = Some e.
Proof.
unfold _raise_if_a_rule_policy_is_incompatible_with_domain.
rewrite bind_get. unfold rule_policy_nodes.
induction (values (_graph_schema self)) as [|n l IH];
  cbn [for_each List.filter]; [discriminate|].
intros H0. apply raised_seq_Some in H0; [|method_auto].
destruct (bool_decide (uses n = RulePolicyGraphComponent)).
- destruct H0 as [H0 | [_ H0]].
  + exists n. split; [left; reflexivity|].
    destruct (raise_if_incompatible_with_domain K (config n) domain);
      [|discriminate H0].
    injection H0 as <-. reflexivity.
  + destruct (IH H0) as (m & Hm & He). exists m. split; [right|]; assumption.
- destruct H0 as [H0 | [_ H0]]; [discriminate H0 | exact (IH H0)].
Qed.

Lemma collect_priorities_raises l d e :
  collect_priorities K l d = inl e ->
  (e = KeyError /\
   exists n, In n l /\ default_priority K (uses n) = None) \/
  (e = TypeError /\
   exists n priority,
     In n l /\ effective_priority K n = Some priority /\
     hashable priority = false).
Proof.
revert d. induction l as [|n l IH]; intros d; cbn [collect_priorities];
  [discriminate|].
assert (Hrest : forall d0, collect_priorities K l d0 = inl e ->
  (e = KeyError /\
   exists m, In m (n :: l) /\ default_priority K (uses m) = None) \/
  (e = TypeError /\
   exists m priority,
     In m (n :: l) /\ effective_priority K m = Some priority /\
     hashable priority = false)).
{ intros d0 H0.
  destruct (IH _ H0) as [(-> & m & Hm & Hd) | (-> & m & q & Hm & Hq & Hh)].
  - left. split; [reflexivity|]. exists m. split; [right|]; assumption.
  - right. split; [reflexivity|]. exists m, q.
    split; [right; exact Hm | split; assumption]. }
destruct (default_priority K (uses n)) as [default_priority|] eqn:Ed.
- destruct (hashable (default default_priority (config n !! "priority")))
    eqn:Hh; [apply Hrest|].
  intros H0. injection H0 as <-. right. split; [reflexivity|].
  exists n, (default default_priority (config n !! "priority")).
  split; [left; reflexivity|]. split; [|exact Hh].
  unfold effective_priority. rewrite Ed. reflexivity.
- intros H0. injection H0 as <-. left. split; [reflexivity|].
  exists n. split; [left; reflexivity | exact Ed].
Qed.


(** *** The text that names the types *)

Lemma string_app_assoc (a b c : string) :
  ((a ++ b) ++ c = a ++ (b ++ c))%string.
Proof.
induction a as [|ch a IH]; [reflexivity|].
change (String ch ((a ++ b) ++ c) = String ch (a ++ b ++ c))%string.
f_equal. exact IH.
Qed.

Lemma string_app_empty_r (a : string) : (a ++ "" = a)%string.
Proof.
induction a as [|ch a IH]; [reflexivity|].
change (String ch (a ++ "") = String ch a)%string. f_equal. exact IH.
Qed.

Lemma prefix_app (n x : string) : String.prefix n (n ++ x) = true.
Proof.
induction n as [|ch n IH]; [destruct x; reflexivity|].
change (String.prefix (String ch n) (String ch (n ++ x)) = true).
cbn [String.prefix].
destruct (Ascii.ascii_dec ch ch) as [_ | Hne];
  [exact IH | destruct Hne; reflexivity].
Qed.

Lemma is_substring_app (n pre post : string) :
  is_substring n (pre ++ n ++ post) = true.
Proof.
induction pre as [|ch pre IH].
- change ("" ++ n ++ post)%string with (n ++ post)%string.
  destruct (n ++ post)%string eqn:E; cbn [is_substring];
    rewrite <- E, prefix_app; reflexivity.
- change (String ch pre ++ n ++ post)%string
    with (String ch (pre ++ n ++ post)).
  cbn [is_substring]. rewrite IH. apply orb_true_r.
Qed.

Lemma join_In sep (l : list string) x :
  In x l -> exists pre post, join sep l = (pre ++ x ++ post)%string.
Proof.
induction l as [|y l IH]; [intros []|].
intros [-> | Hin].
- exists ""%string. destruct l as [|z l].
  + exists ""%string. cbn. rewrite string_app_empty_r. reflexivity.
  + exists (sep ++ join sep (z :: l))%string. reflexivity.
- destruct (IH Hin) as (pre & post & E). destruct l as [|z l]; [destruct Hin|].
  exists (y ++ sep ++ pre)%string, post.
  change (join sep (y :: z :: l)) with (y ++ sep ++ join sep (z :: l))%string.
  rewrite E, !string_app_assoc. reflexivity.
Qed.

(** X11. The text [_types_to_str] builds names every type it is given: the
    name of each is a substring of it. *)
Theorem _types_to_str_names_every_type (types : list ComponentType) t :
  In t types -> is_substring (__name__ t) (_types_to_str types) = true.
Proof.
intros Hin. unfold _types_to_str.
destruct (join_In ", " (map __name__ types) (__name__ t)) as (pre & post & ->).
- apply in_map. exact Hin.
- apply is_substring_app.
Qed.

End More.


(** *** The further properties at sample inputs *)

Import Samples.

(** X2 on TED and Memoization at priority 1 beside a rule policy. *)
Lemma same_priority_advisory_lists_the_sharing_policies_witness :
  let g := schema [node TEDPolicyGraphComponent;
                   node_with MemoizationPolicyGraphComponent "priority" (VInt 1);
                   node RulePolicyGraphComponent] in
  let importer := importer no_nlu_data rule_stories with_form in
  let v := [TEDPolicyGraphComponent; MemoizationPolicyGraphComponent] in
  In (SamePriority v (VInt 1))
    (emitted (validate classes importer (__init__ classes g))) /\
  v = map uses (policy_nodes_with_priority classes g (VInt 1)) /\
  (2 <= length v)%nat.
Proof.
cbv zeta. split; [vm_compute; tauto|].
apply (same_priority_advisory_lists_the_sharing_policies classes
         (schema [node TEDPolicyGraphComponent;
                  node_with MemoizationPolicyGraphComponent "priority" (VInt 1);
                  node RulePolicyGraphComponent])
         (importer no_nlu_data rule_stories with_form)).
vm_compute. tauto.
Defined.

(** X3 on the three stock policies with their default priorities. *)
Lemma distinct_priorities_give_no_advisory_witness :
  let g := schema [node TEDPolicyGraphComponent;
                   node MemoizationPolicyGraphComponent;
                   node RulePolicyGraphComponent] in
  let importer := importer no_nlu_data rule_stories with_form in
  map (effective_priority classes) (_policy_schema_nodes (__init__ classes g))
  = [Some (VInt 1); Some (VInt 3); Some (VInt 6)] /\
  List.filter is_SamePriority
    (emitted (validate classes importer (__init__ classes g))) = [].
Proof.
cbv zeta. split; [reflexivity|].
apply distinct_priorities_give_no_advisory.
change (NoDup [Some (VInt 1); Some (VInt 3); Some (VInt 6)]).
repeat (apply NoDup_cons_2;
        [intros Hin;
         repeat (apply elem_of_cons in Hin; destruct Hin as [Hin | Hin];
                 [discriminate Hin|]);
         apply elem_of_nil in Hin; exact Hin|]).
apply NoDup_nil_2.
Defined.

(** X5 on a schema whose one policy is TED. *)
Lemma policy_advisories_iff_witness :
  let g := schema [node TEDPolicyGraphComponent] in
  let importer := importer no_nlu_data rule_stories no_forms in
  (In NoPolicyConfigured
     (emitted (validate classes importer (__init__ classes g))) <->
   _policy_schema_nodes (__init__ classes g) = [] /\
   story_steps (get_stories importer) <> []) /\
  (In NoRulePolicy (emitted (validate classes importer (__init__ classes g))) <->
   _policy_schema_nodes (__init__ classes g) <> [] /\
   Forall (fun n => uses n <> RulePolicyGraphComponent)
     (_policy_schema_nodes (__init__ classes g))).
Proof.
cbv zeta. apply policy_advisories_iff. vm_compute. reflexivity.
Defined.

(** X6 on CRF and DIET side by side. *)
Lemma competing_extractors_advisory_lists_the_extractors_witness :
  let g := schema [node CRFEntityExtractorGraphComponent;
                   node DIETClassifierGraphComponent] in
  let importer := importer synonym_data no_stories no_forms in
  let l := [CRFEntityExtractorGraphComponent; DIETClassifierGraphComponent] in
  In (CompetingExtractors l)
    (emitted (validate classes importer (__init__ classes g))) /\
  NoDup l /\ (2 <= length l)%nat /\
  forall t, In t l <-> In t TRAINABLE_EXTRACTORS /\ In t (map uses (values g)).
Proof.
cbv zeta. split; [vm_compute; tauto|].
apply (competing_extractors_advisory_lists_the_extractors classes
         (schema [node CRFEntityExtractorGraphComponent;
                  node DIETClassifierGraphComponent])
         (importer synonym_data no_stories no_forms)).
vm_compute. tauto.
Defined.

(** X7 on a regex extractor beside CRF, with a regex named like an entity. *)
Lemma regex_overlap_advisory_is_justified_witness :
  let g := schema [node RegexEntityExtractorGraphComponent;
                   node CRFEntityExtractorGraphComponent] in
  let importer := importer ValidatorSamples.zipcode_data no_stories no_forms in
  let extractors := [CRFEntityExtractorGraphComponent] in
  let types := ["zipcode"] in
  In (RegexExtractorOverlap extractors types)
    (emitted (validate classes importer (__init__ classes g))) /\
  In RegexEntityExtractorGraphComponent (map uses (values g)) /\
  extractors <> [] /\
  (forall t, In t extractors <->
     In t TRAINABLE_EXTRACTORS /\ In t (map uses (values g))) /\
  types <> [] /\
  (forall label, In label types <->
     label ∈ entities (get_nlu_data importer) /\
     In label (map rf_name (regex_features (get_nlu_data importer)))).
Proof.
cbv zeta. split; [vm_compute; tauto|].
apply (regex_overlap_advisory_is_justified classes
         (schema [node RegexEntityExtractorGraphComponent;
                  node CRFEntityExtractorGraphComponent])
         (importer ValidatorSamples.zipcode_data no_stories no_forms)).
vm_compute. tauto.
Defined.


(** X9 on one CRF node that lists the pattern feature. *)
Lemma has_pattern_feature_on_well_formed_features_witness :
  let crf := node_with CRFEntityExtractorGraphComponent "features"
               (VList [VList [VStr "low"; VStr "title"];
                       VList [VStr "bias"; VStr "pattern"]]) in
  forallb well_formed_features [crf] = true /\
  has_pattern_feature [crf] = inr true.
Proof.
cbv zeta. split; [reflexivity|].
apply (has_pattern_feature_on_well_formed_features
         [node_with CRFEntityExtractorGraphComponent "features"
            (VList [VList [VStr "low"; VStr "title"];
                    VList [VStr "bias"; VStr "pattern"]])]).
reflexivity.
Defined.


(** X11 on the two extractors. *)
Lemma _types_to_str_names_every_type_witness :
  let types := [CRFEntityExtractorGraphComponent;
                DIETClassifierGraphComponent] in
  _types_to_str types
  = "CRFEntityExtractorGraphComponent, DIETClassifierGraphComponent" /\
  is_substring (__name__ DIETClassifierGraphComponent) (_types_to_str types)
  = true.
Proof.
cbv zeta. split; [reflexivity|].
apply _types_to_str_names_every_type. right. left. reflexivity.
Defined.

End ValidatorMore.

(* ================================================================= *)
(** * Properties of the parts of an object *)

Module PyTermsFacts.
Import PyFacts PyTerms.

Section Facts.
Context {W S : Type}.

Lemma raised_bind {A B} (m : M W S A) (f : A -> M W S B) s :
  raised (bind m f s) =
  match outcome (m s) with
  | inl e => Some e
  | inr a => raised (f a (final (m s)))
  end.
Proof.
unfold raised at 1. rewrite outcome_bind.
destruct (outcome (m s)); reflexivity.
Qed.

Lemma raised_bind_total {A B} (m : M W S A) (f : A -> M W S B) s :
  (forall a, total (f a)) -> raised (bind m f s) = raised (m s).
Proof.
intros Hf. rewrite raised_bind. unfold raised at 2.
destruct (outcome (m s)) as [e | a]; [reflexivity|]. apply raised_total, Hf.
Qed.

Lemma raised_None_outcome {A} (r : Run W S A) :
  raised r = None -> exists a, outcome r = inr a.
Proof.
unfold raised. destruct (outcome r) as [e | a]; [discriminate | eauto].
Qed.

(** *** Where a loop raises *)

Lemma raised_for_each_None {A} (P : A -> Prop) (l : list A)
    (body : A -> M W S unit) :
  (forall x s, In x l -> raised (body x s) = None <-> P x) ->
  forall s, raised (for_each l body s) = None <-> Forall P l.
Proof.
induction l as [|x l IH]; intros Hb s.
- split; [intros _; constructor | reflexivity].
- cbn [for_each]. rewrite raised_bind.
  assert (Hl : forall y s', In y l -> raised (body y s') = None <-> P y).
  { intros y s' Hy. apply Hb. right. exact Hy. }
  specialize (IH Hl). specialize (Hb x s (or_introl eq_refl)).
  unfold raised in Hb at 1.
  destruct (outcome (body x s)) as [e | []].
  + split; [discriminate|]. intros HF. inversion HF; subst.
    apply Hb. assumption.
  + rewrite IH. split.
    * intros HF. constructor; [apply Hb; reflexivity | exact HF].
    * intros HF. inversion HF; subst. assumption.
Qed.

Lemma raised_for_each_Some {A} (l : list A) (body : A -> M W S unit) s e :
  raised (for_each l body s) = Some e ->
  exists x s', In x l /\ raised (body x s') = Some e.
Proof.
revert s. induction l as [|x l IH]; intros s; cbn [for_each].
- discriminate.
- rewrite raised_bind. destruct (outcome (body x s)) as [e0 | a] eqn:E.
  + intros Heq. exists x, s. split; [left; reflexivity|].
    unfold raised. rewrite E. exact Heq.
  + intros Hr. destruct (IH _ Hr) as (y & s' & Hy & Hs).
    exists y, s'. split; [right; exact Hy | exact Hs].
Qed.

Lemma raised_for_each_app {A} (l1 l2 : list A) (body : A -> M W S unit) s :
  raised (for_each (l1 ++ l2) body s) = None ->
  raised (for_each l1 body s) = None /\
  raised (for_each l2 body (final (for_each l1 body s))) = None.
Proof.
rewrite for_each_app, raised_bind. unfold raised at 2.
destruct (outcome (for_each l1 body s)); [discriminate | tauto].
Qed.

Lemma emitted_for_each_app {A} (l1 l2 : list A) (body : A -> M W S unit) s :
  raised (for_each l1 body s) = None ->
  emitted (for_each (l1 ++ l2) body s)
  = emitted (for_each l1 body s)
    ++ emitted (for_each l2 body (final (for_each l1 body s))).
Proof.
intros Hr. rewrite for_each_app, emitted_bind. unfold raised in Hr.
destruct (outcome (for_each l1 body s)); [discriminate Hr | reflexivity].
Qed.

(** A step of a loop that neither raises nor assigns adds its advisories
    and nothing else. *)
Lemma emitted_for_each_skip {A} (pre post : list A) (x : A)
    (body : A -> M W S unit) s :
  total (body x) -> read_only (body x) ->
  raised (for_each pre body s) = None ->
  emitted (for_each (pre ++ x :: post) body s)
  = emitted (for_each pre body s)
    ++ emitted (body x (final (for_each pre body s)))
    ++ emitted (for_each post body (final (for_each pre body s))) /\
  emitted (for_each (pre ++ post) body s)
  = emitted (for_each pre body s)
    ++ emitted (for_each post body (final (for_each pre body s))).
Proof.
intros Ht Hro Hr. rewrite !emitted_for_each_app by exact Hr.
cbn [for_each]. rewrite emitted_bind_check by assumption. tauto.
Qed.

(** Two steps that end alike and whose advisories differ by an insertion
    make loops whose advisories differ by that insertion. *)
Lemma emitted_for_each_replace {A} (pre post : list A) (x y : A)
    (body : A -> M W S unit) s before advisories after :
  raised (for_each pre body s) = None ->
  outcome (body x (final (for_each pre body s)))
  = outcome (body y (final (for_each pre body s))) ->
  final (body x (final (for_each pre body s)))
  = final (body y (final (for_each pre body s))) ->
  emitted (body x (final (for_each pre body s)))
  = before ++ advisories ++ after ->
  emitted (body y (final (for_each pre body s))) = before ++ after ->
  exists after',
    emitted (for_each (pre ++ x :: post) body s)
    = (emitted (for_each pre body s) ++ before) ++ advisories ++ after' /\
    emitted (for_each (pre ++ y :: post) body s)
    = (emitted (for_each pre body s) ++ before) ++ after'.
Proof.
intros Hr Ho Hf Hx Hy. rewrite !emitted_for_each_app by exact Hr.
cbn [for_each]. rewrite !emitted_bind, Hx, Hy, <- Ho, <- Hf.
eexists. rewrite <- !app_assoc. split; reflexivity.
Qed.

Lemma for_each_map {A B} (g : A -> B) (l : list A) (body : B -> M W S unit) s :
  for_each (map g l) body s = for_each l (fun x => body (g x)) s.
Proof.
revert s. induction l as [|x l IH]; intros s; [reflexivity|].
cbn [map for_each]. unfold bind. rewrite !IH. reflexivity.
Qed.

(** *** Parts that are kept *)

Lemma keeps_ret {A B} (proj : S -> B) (a : A) : keeps (W:=W) proj (ret a).
Proof. intros s. reflexivity. Qed.

Lemma keeps_get {B} (proj : S -> B) : keeps (W:=W) proj get.
Proof. intros s. reflexivity. Qed.

Lemma keeps_raise_warning {B} (proj : S -> B) (w : W) :
  keeps proj (raise_warning w).
Proof. intros s. reflexivity. Qed.

Lemma keeps_raise {A B} (proj : S -> B) e : keeps (W:=W) proj (raise (A:=A) e).
Proof. intros s. reflexivity. Qed.

Lemma keeps_lift {A B} (proj : S -> B) (r : Exception + A) :
  keeps (W:=W) proj (lift r).
Proof. intros s. reflexivity. Qed.

Lemma keeps_modify {B} (proj : S -> B) (f : S -> S) :
  (forall s, proj (f s) = proj s) -> keeps (W:=W) proj (modify f).
Proof. intros Hf s. apply Hf. Qed.

Lemma keeps_bind {A B C} (proj : S -> C) (m : M W S A) (f : A -> M W S B) :
  keeps proj m -> (forall a, keeps proj (f a)) -> keeps proj (bind m f).
Proof.
intros Hm Hf s. rewrite final_bind.
destruct (outcome (m s)) as [e | a]; [apply Hm|].
rewrite Hf. apply Hm.
Qed.

Lemma keeps_for_each {A B} (proj : S -> B) (l : list A)
    (body : A -> M W S unit) :
  (forall x, keeps proj (body x)) -> keeps proj (for_each l body).
Proof.
intros Hb. induction l as [|x l IH]; cbn [for_each].
- apply keeps_ret.
- apply keeps_bind; [apply Hb | intros _; exact IH].
Qed.

(** *** Parts that are updated *)

Lemma folds_keeps {A B X} (act : B -> X -> B) (proj : S -> B) (m : M W S A) :
  keeps proj m -> folds act proj m [].
Proof. intros Hm s _. apply Hm. Qed.

Lemma folds_raise {A B X} (act : B -> X -> B) (proj : S -> B) e xs :
  folds (W:=W) act proj (raise (A:=A) e) xs.
Proof. intros s Hr. discriminate Hr. Qed.

Lemma folds_modify {B X} (act : B -> X -> B) (proj : S -> B) (f : S -> S) x :
  (forall s, proj (f s) = act (proj s) x) ->
  folds (W:=W) act proj (modify f) [x].
Proof. intros Hf s _. apply Hf. Qed.

Lemma folds_bind {A B C X} (act : C -> X -> C) (proj : S -> C) (m : M W S A)
    (f : A -> M W S B) xs1 xs2 :
  folds act proj m xs1 -> (forall a, folds act proj (f a) xs2) ->
  folds act proj (bind m f) (xs1 ++ xs2).
Proof.
intros Hm Hf s Hr. rewrite raised_bind in Hr. rewrite final_bind.
destruct (outcome (m s)) as [e | a] eqn:E; [discriminate Hr|].
rewrite (Hf a _ Hr), fold_left_app. f_equal. apply Hm.
unfold raised. rewrite E. reflexivity.
Qed.

(** A first step that only computes a value, the same whenever it returns. *)
Lemma folds_bind_value {A B C X} (act : C -> X -> C) (proj : S -> C)
    (m : M W S A) (f : A -> M W S B) a xs :
  (forall s, raised (m s) = None -> outcome (m s) = inr a /\ final (m s) = s) ->
  folds act proj (f a) xs ->
  folds act proj (bind m f) xs.
Proof.
intros Hm Hf s Hr. rewrite raised_bind in Hr. rewrite final_bind.
destruct (outcome (m s)) as [e | a'] eqn:E; [discriminate Hr|].
destruct (Hm s) as [Ha Hs]; [unfold raised; rewrite E; reflexivity|].
rewrite E in Ha. injection Ha as ->. rewrite Hs in *. apply Hf. exact Hr.
Qed.

Lemma folds_for_each {A B X} (act : B -> X -> B) (proj : S -> B) (l : list A)
    (body : A -> M W S unit) (xs : A -> list X) :
  (forall x, folds act proj (body x) (xs x)) ->
  folds act proj (for_each l body) (flat_map xs l).
Proof.
intros Hb. induction l as [|x l IH]; cbn [for_each flat_map].
- intros s _. reflexivity.
- apply folds_bind; [apply Hb | intros _; exact IH].
Qed.

Lemma folds_for_each_modify {A B X} (act : B -> X -> B) (proj : S -> B)
    (l : list A) (f : A -> S -> S) (g : A -> X) :
  (forall x s, proj (f x s) = act (proj s) (g x)) ->
  folds (W:=W) act proj (for_each l (fun x => modify (f x))) (map g l).
Proof.
intros Hf. induction l as [|x l IH]; cbn [for_each map].
- intros s _. reflexivity.
- apply (folds_bind act proj _ _ [g x] (map g l)); [|intros _; exact IH].
  apply folds_modify. apply Hf.
Qed.

Lemma folds_for_each_one {A B X} (act : B -> X -> B) (proj : S -> B)
    (l : list A) (body : A -> M W S unit) (g : A -> X) :
  (forall x, folds act proj (body x) [g x]) ->
  folds act proj (for_each l body) (map g l).
Proof.
intros Hb. induction l as [|x l IH]; cbn [for_each map].
- intros s _. reflexivity.
- apply (folds_bind act proj _ _ [g x] (map g l)); [apply Hb | intros _; exact IH].
Qed.

Lemma folds_for_each_map {A A' B X} (act : B -> X -> B) (proj : S -> B)
    (g : A -> A') (l : list A) (body : A' -> M W S unit) xs :
  folds act proj (for_each l (fun x => body (g x))) xs ->
  folds act proj (for_each (map g l) body) xs.
Proof. intros Hf s. rewrite for_each_map. apply Hf. Qed.

Lemma folds_bind_lift {A B C X} (act : C -> X -> C) (proj : S -> C)
    (r : Exception + A) (f : A -> M W S B) xs :
  (forall a, r = inr a -> folds act proj (f a) xs) ->
  folds act proj (bind (lift r) f) xs.
Proof.
intros Hf s. destruct r as [e | a].
- intros Hr. discriminate Hr.
- rewrite bind_lift. apply (Hf a eq_refl).
Qed.

Lemma folds_eq {A B X} (act : B -> X -> B) (proj : S -> B) (m : M W S A)
    xs xs' :
  xs = xs' -> folds act proj m xs -> folds act proj m xs'.
Proof. intros <-. exact id. Qed.

Lemma total_modify (f : S -> S) : total (W:=W) (modify f).
Proof. intros s. exists tt. reflexivity. Qed.

Lemma emits_only_modify P (f : S -> S) : emits_only (W:=W) P (modify f).
Proof. intros s. constructor. Qed.

Lemma fold_left_append {B} (xs acc : list B) :
  fold_left append xs acc = acc ++ xs.
Proof.
revert acc. induction xs as [|x xs IH]; intros acc; cbn [fold_left].
- symmetry. apply app_nil_r.
- rewrite IH. unfold append. rewrite <- app_assoc. reflexivity.
Qed.

Lemma fold_left_map {B X Y} (act : B -> Y -> B) (g : X -> Y) xs acc :
  fold_left act (map g xs) acc = fold_left (fun b x => act b (g x)) xs acc.
Proof.
revert acc. induction xs as [|x xs IH]; intros acc; [reflexivity|].
cbn [map fold_left]. apply IH.
Qed.

(** *** Advisories of one kind *)

Lemma reports_none {A T} (p : W -> bool) (tag : S -> T) (m : M W S A) :
  emits_only (fun w => p w = false) m -> reports p tag m (fun _ => []).
Proof. intros Hm s _. apply filter_emits_none. exact Hm. Qed.

Lemma reports_bind {A B T} (p : W -> bool) (tag : S -> T) (m : M W S A)
    (f : A -> M W S B) ws1 ws2 :
  keeps tag m ->
  reports p tag m ws1 -> (forall a, reports p tag (f a) ws2) ->
  reports p tag (bind m f) (fun t => ws1 t ++ ws2 t).
Proof.
intros Hk Hm Hf s Hr. rewrite raised_bind in Hr. rewrite emitted_bind.
destruct (outcome (m s)) as [e | a] eqn:E; [discriminate Hr|].
rewrite List.filter_app, (Hf a _ Hr), Hk. f_equal. apply Hm.
unfold raised. rewrite E. reflexivity.
Qed.

Lemma reports_for_each {A T} (p : W -> bool) (tag : S -> T) (l : list A)
    (body : A -> M W S unit) (ws : A -> T -> list W) :
  (forall x, keeps tag (body x)) ->
  (forall x, reports p tag (body x) (ws x)) ->
  reports p tag (for_each l body) (fun t => flat_map (fun x => ws x t) l).
Proof.
intros Hk Hb. induction l as [|x l IH]; cbn [for_each flat_map].
- intros s _. reflexivity.
- apply (reports_bind p tag (body x) _ (ws x)
           (fun t => flat_map (fun y => ws y t) l));
    [apply Hk | apply Hb | intros _; exact IH].
Qed.

Lemma reports_bind_lift {A B T} (p : W -> bool) (tag : S -> T)
    (r : Exception + A) (f : A -> M W S B) ws :
  (forall a, r = inr a -> reports p tag (f a) ws) ->
  reports p tag (bind (lift r) f) ws.
Proof.
intros Hf s. destruct r as [e | a].
- intros Hr. discriminate Hr.
- rewrite bind_lift. apply (Hf a eq_refl).
Qed.

Lemma reports_eq {A T} (p : W -> bool) (tag : S -> T) (m : M W S A) ws ws' :
  (forall t, ws t = ws' t) -> reports p tag m ws -> reports p tag m ws'.
Proof. intros Heq Hm s Hr. rewrite <- Heq. apply Hm, Hr. Qed.

End Facts.

(** *** Lists *)

Lemma flat_map_unless {A B} (c : A -> bool) (g : A -> B) (l : list A) :
  flat_map (fun x => if c x then [] else [g x]) l
  = map g (List.filter (fun x => negb (c x)) l).
Proof.
induction l as [|x l IH]; [reflexivity|].
cbn [flat_map List.filter]. destruct (c x); cbn [negb app map]; rewrite IH;
  reflexivity.
Qed.

Lemma filter_flat_map {A B} (q : B -> bool) (h : A -> list B) (l : list A) :
  List.filter q (flat_map h l) = flat_map (fun x => List.filter q (h x)) l.
Proof.
induction l as [|x l IH]; [reflexivity|].
cbn [flat_map]. rewrite List.filter_app, IH. reflexivity.
Qed.

Lemma flat_map_single {A B} (g : A -> B) (l : list A) :
  flat_map (fun x => [g x]) l = map g l.
Proof. induction l as [|x l IH]; [reflexivity|]. cbn [flat_map map app]. rewrite IH. reflexivity. Qed.

Lemma flat_map_nil {A B} (l : list A) :
  flat_map (fun _ => @nil B) l = [].
Proof. induction l as [|x l IH]; [reflexivity | exact IH]. Qed.

Lemma flat_map_flat_map {A B C} (f : B -> list C) (g : A -> list B) l :
  flat_map f (flat_map g l) = flat_map (fun x => flat_map f (g x)) l.
Proof.
induction l as [|x l IH]; [reflexivity|].
cbn [flat_map]. rewrite List.flat_map_app, IH. reflexivity.
Qed.

Lemma flat_map_ext_list {A B} (f g : A -> list B) l :
  (forall x, f x = g x) -> flat_map f l = flat_map g l.
Proof.
intros Hfg. induction l as [|x l IH]; [reflexivity|].
cbn [flat_map]. rewrite Hfg, IH. reflexivity.
Qed.

Lemma map_flat_map {A B C} (h : B -> C) (g : A -> list B) l :
  map h (flat_map g l) = flat_map (fun x => map h (g x)) l.
Proof.
induction l as [|x l IH]; [reflexivity|].
cbn [flat_map]. rewrite List.map_app, IH. reflexivity.
Qed.

End PyTermsFacts.

(* ================================================================= *)
(** * Further properties of the reader *)

Module YamlReaderMore.
Import PyFacts PyTerms PyTermsFacts.
Import YamlReader YamlReaderSpec YamlReaderTerms YamlReaderFacts.

Section More.
Variable H : Helpers.

Abbreviation Method := (M Advisory RasaYAMLReader).

(** *** What the methods leave alone *)

Lemma keeps_warn {B} (proj : RasaYAMLReader -> B) message :
  keeps proj (warn message).
Proof. intros s. reflexivity. Qed.

Ltac keeps_cases :=
  repeat lazymatch goal with
    | |- keeps _ (if ?b then _ else _) => destruct b
    | |- keeps _ (match ?x with _ => _ end) => destruct x
    | |- keeps _ (let _ := _ in _) => cbv zeta
    | |- keeps _ (bind _ _) => apply keeps_bind; [| intros ? ]
    | |- keeps _ (for_each _ _) => apply keeps_for_each; intros ?
    | |- keeps _ (warn _) => apply keeps_warn
    | |- keeps _ (ret _) => apply keeps_ret
    | |- keeps _ (raise _) => apply keeps_raise
    | |- keeps _ (lift _) => apply keeps_lift
    | |- keeps _ (modify _) => apply keeps_modify; intros ?; reflexivity
    | |- _ => fail
    end.

Ltac keeps_parser :=
  unfold _parse_key, _parse_intent, _parse_training_examples, _parse_synonym,
    _parse_regex, _parse_lookup;
  keeps_cases.

Lemma keeps_filename__parse_key block key :
  keeps filename (_parse_key H block key).
Proof. keeps_parser. Qed.

Lemma keeps_filename__parse_nlu value : keeps filename (_parse_nlu H value).
Proof. unfold _parse_nlu. keeps_cases. apply keeps_filename__parse_key. Qed.

Lemma keeps_filename_parse_entry entry : keeps filename (parse_entry H entry).
Proof.
unfold parse_entry. keeps_cases. apply keeps_filename__parse_nlu.
Qed.

(** *** The examples of an intent *)

Lemma example_texts_returns l texts :
  example_texts l = inr texts -> texts = map text_of (List.filter truthy l).
Proof.
revert texts. induction l as [|example l IH]; intros texts; cbn [example_texts].
- intros Heq. injection Heq as <-. reflexivity.
- cbn [List.filter]. destruct (truthy example); [|apply IH].
  destruct example; try discriminate.
  destruct (example_texts l) as [e | rest]; [discriminate|].
  intros Heq. injection Heq as <-. cbn [map text_of]. f_equal. apply IH.
  reflexivity.
Qed.

Lemma example_texts_returns_iff l :
  (exists texts, example_texts l = inr texts) <->
  Forall (fun example => truthy example = true -> is_dict example = true) l.
Proof.
induction l as [|example l IH]; cbn [example_texts].
- split; [intros _; constructor | intros _; eexists; reflexivity].
- destruct (truthy example) eqn:Et.
  + destruct example; cbn [is_dict];
      try (split; [intros [texts Heq]; discriminate Heq
                  | intros HF; inversion HF as [|? ? Hd _]; subst;
                    specialize (Hd Et); discriminate Hd]).
    destruct (example_texts l) as [e | rest] eqn:E.
    * split; [intros [texts Heq]; discriminate Heq|].
      intros HF. inversion HF as [|? ? _ Hl]; subst.
      apply IH in Hl. destruct Hl as [rest Hrest]. discriminate Hrest.
    * split; [|intros _; eexists; reflexivity].
      intros _. constructor; [reflexivity|]. apply IH. eauto.
  + rewrite IH. split.
    * intros HF. constructor; [|exact HF].
      intros Hd. rewrite Et in Hd. discriminate Hd.
    * intros HF. inversion HF; subst. assumption.
Qed.

Lemma example_texts_raises l e :
  example_texts l = inl e ->
  e = AttributeError /\
  exists example, In example l /\ truthy example = true /\
                  is_dict example = false.
Proof.
induction l as [|example l IH]; cbn [example_texts]; [discriminate|].
assert (Hrest : example_texts l = inl e ->
  e = AttributeError /\
  exists example0, In example0 (example :: l) /\ truthy example0 = true /\
                   is_dict example0 = false).
{ intros Hl. destruct (IH Hl) as (He & x & Hx & Ht & Hd).
  split; [exact He|]. exists x. split; [right; exact Hx | tauto]. }
destruct (truthy example) eqn:Et; [|exact Hrest].
destruct example;
  try (intros Heq; injection Heq as <-; split; [reflexivity|];
       eexists; split; [left; reflexivity | split; [exact Et | reflexivity]]).
destruct (example_texts l) as [e0 | rest]; [|discriminate].
intros Heq. injection Heq as ->. apply Hrest. reflexivity.
Qed.

Lemma _parse_training_examples_returns examples intent s :
  raised (_parse_training_examples H examples intent s) = None ->
  outcome (_parse_training_examples H examples intent s)
  = inr (map (fun example =>
                (example, find_entities_in_training_example H example))
           (example_strings_of examples)) /\
  final (_parse_training_examples H examples intent s) = s.
Proof.
unfold _parse_training_examples.
destruct examples as [| b | z | t | l | d]; try (intros _; split; reflexivity).
destruct (example_texts l) as [e | texts] eqn:E.
- intros Hr. discriminate Hr.
- intros _. rewrite bind_lift. apply example_texts_returns in E. subst texts.
  split; reflexivity.
Qed.

(** *** What one block adds to each collection *)

Ltac named_block_cases name_key examples_key :=
  unfold named_lines;
  match goal with
  | |- folds _ _ (match lookup name_key ?block with _ => _ end) _ =>
      destruct (lookup name_key block) as [item_name|]; [|apply folds_raise];
      destruct (truthy item_name); cbn [negb map];
      [|apply folds_keeps, keeps_warn];
      destruct (get_default block examples_key (YStr ""))
        as [| b | z | [|c s] | [|v l] | [|kv d]];
      cbn [truthy negb String.eqb Z.eqb map];
      try (apply folds_keeps, keeps_warn);
      try (destruct (negb _); apply folds_keeps, keeps_warn)
  end.

Lemma folds__parse_regex block :
  folds append regex_features (_parse_regex block) (regex_features_of block).
Proof.
unfold _parse_regex, regex_features_of.
named_block_cases KEY_REGEX KEY_REGEX_EXAMPLES.
rewrite map_map. apply folds_for_each_modify. reflexivity.
Qed.

Lemma folds__parse_lookup block :
  folds (fun tables '(lookup_item_name, example) =>
           add_item_to_lookup_tables H lookup_item_name example tables)
    lookup_tables (_parse_lookup H block)
    (named_lines KEY_LOOKUP KEY_LOOKUP_EXAMPLES block).
Proof.
unfold _parse_lookup.
named_block_cases KEY_LOOKUP KEY_LOOKUP_EXAMPLES.
apply folds_for_each_modify. reflexivity.
Qed.

Lemma folds__parse_synonym block :
  folds (add_from H) entity_synonyms (_parse_synonym H block)
    (map (fun '(synonym_name, example) => FromSynonymBlock example synonym_name)
       (named_lines KEY_SYNONYM KEY_SYNONYM_EXAMPLES block)).
Proof.
unfold _parse_synonym.
named_block_cases KEY_SYNONYM KEY_SYNONYM_EXAMPLES.
rewrite map_map. apply folds_for_each_modify. reflexivity.
Qed.

Ltac intent_cases :=
  unfold _parse_intent, messages_of, intent_examples_of;
  match goal with
  | |- context [truthy (get_default ?block KEY_INTENT (YStr ""))] =>
      destruct (truthy (get_default block KEY_INTENT (YStr "")));
      cbn [negb map];
      [|apply folds_keeps, keeps_warn];
      eapply folds_bind_value;
      [intros s; apply _parse_training_examples_returns|];
      apply folds_for_each_map; cbv beta iota
  end.

Lemma folds_messages__parse_intent block :
  folds append training_examples (_parse_intent H block) (messages_of H block).
Proof.
intent_cases. apply folds_for_each_one. intros example.
apply (folds_bind append training_examples _ _ []
         [message_of H (get_default block KEY_INTENT (YStr "")) example]).
- apply folds_keeps, keeps_modify. reflexivity.
- intros _. apply folds_modify. reflexivity.
Qed.

Lemma folds_synonyms__parse_intent block :
  folds (add_from H) entity_synonyms (_parse_intent H block)
    (map FromExample (intent_examples_of block)).
Proof.
intent_cases. apply folds_for_each_one. intros example.
apply (folds_bind (add_from H) entity_synonyms _ _ [FromExample example] []).
- apply folds_modify. reflexivity.
- intros _. apply folds_keeps, keeps_modify. reflexivity.
Qed.

(** *** What one key of a block adds *)

Ltac key_cases :=
  unfold _parse_key, synonym_sources_at;
  repeat case_bool_decide; subst;
  try match goal with
      | Hk : KStr _ = KStr _ |- _ => discriminate Hk
      end.

Lemma folds_messages__parse_key block key :
  folds append training_examples (_parse_key H block key)
    (if bool_decide (key = KStr KEY_INTENT) then messages_of H block else []).
Proof.
key_cases; try (apply folds_keeps; keeps_parser).
apply folds_messages__parse_intent.
Qed.

Lemma folds_regex__parse_key block key :
  folds append regex_features (_parse_key H block key)
    (if bool_decide (key = KStr KEY_REGEX) then regex_features_of block else []).
Proof.
key_cases; try (apply folds_keeps; keeps_parser).
apply folds__parse_regex.
Qed.

Lemma folds_lookup__parse_key block key :
  folds (fun tables '(lookup_item_name, example) =>
           add_item_to_lookup_tables H lookup_item_name example tables)
    lookup_tables (_parse_key H block key)
    (if bool_decide (key = KStr KEY_LOOKUP)
     then named_lines KEY_LOOKUP KEY_LOOKUP_EXAMPLES block else []).
Proof.
key_cases; try (apply folds_keeps; keeps_parser).
apply folds__parse_lookup.
Qed.

Lemma folds_synonyms__parse_key block key :
  folds (add_from H) entity_synonyms (_parse_key H block key)
    (synonym_sources_at block key).
Proof.
key_cases; try (apply folds_keeps; keeps_parser).
- apply folds_synonyms__parse_intent.
- apply folds__parse_synonym.
Qed.

(** *** From the keys of a block to the document *)

Section Collected.
Context {B X : Type}.
Variable act : B -> X -> B.
Variable proj : RasaYAMLReader -> B.
Variable per_key : list (Key * Yaml) -> Key -> list X.
Hypothesis folds_per_key :
  forall block key, folds act proj (_parse_key H block key) (per_key block key).

Abbreviation per_document := (per_document per_key).

Lemma folds__parse_nlu value :
  folds act proj (_parse_nlu H value)
    (per_document [(KStr KEY_NLU, value)]).
Proof.
unfold _parse_nlu, per_document, nlu_blocks, nlu_items.
cbn [flat_map]. rewrite bool_decide_eq_true_2 by reflexivity.
rewrite app_nil_r, flat_map_flat_map. unfold items_of.
apply folds_bind_lift. intros nlu_items ->.
apply folds_for_each. intros [| b | z | s | l | block];
  try (apply folds_keeps, keeps_warn).
cbn [flat_map]. rewrite app_nil_r. apply folds_for_each. intros key.
apply folds_per_key.
Qed.

Lemma per_document_cons entry document :
  per_document (entry :: document)
  = per_document [entry] ++ per_document document.
Proof.
unfold per_document, nlu_blocks, nlu_items. cbn [flat_map].
rewrite app_nil_r, !List.flat_map_app. reflexivity.
Qed.

Lemma per_document_other key value :
  key <> KStr KEY_NLU -> per_document [(key, value)] = [].
Proof.
intros Hk. unfold per_document, nlu_blocks, nlu_items. cbn [flat_map].
rewrite bool_decide_eq_false_2 by exact Hk. reflexivity.
Qed.

Lemma folds_parse_entry entry :
  folds act proj (parse_entry H entry) (per_document [entry]).
Proof.
destruct entry as [key value]. unfold parse_entry. case_bool_decide.
- subst key. apply folds__parse_nlu.
- rewrite per_document_other by assumption. apply folds_keeps, keeps_ret.
Qed.

Lemma folds_document document :
  folds act proj (for_each document (parse_entry H)) (per_document document).
Proof.
induction document as [|entry document IH]; cbn [for_each].
- intros s _. reflexivity.
- rewrite per_document_cons.
  apply folds_bind; [apply folds_parse_entry | intros _; exact IH].
Qed.

End Collected.

(** *** [reads] on a document *)

Lemma reads_on_document string document r :
  read_yaml H string = inr (YDict document) ->
  reads H string r =
  bind (for_each document (parse_entry H))
    (fun _ => bind get (fun self => ret (collected self)))
    (cleared r).
Proof.
intros E. unfold reads.
rewrite (bind_continues _initialize _ r [] tt (cleared r) eq_refl).
cbn [app]. rewrite <- run_eta. rewrite E, bind_lift. reflexivity.
Qed.

Lemma reads_of_document string document r :
  read_yaml H string = inr (YDict document) ->
  let run := for_each document (parse_entry H) (cleared r) in
  emitted (reads H string r) = emitted run /\
  final (reads H string r) = final run /\
  raised (reads H string r) = raised run /\
  (forall td, returned (reads H string r) = Some td ->
              raised run = None /\ td = collected (final run)).
Proof.
intros E run. rewrite (reads_on_document _ _ _ E).
unfold returned, raised. rewrite emitted_bind, final_bind, outcome_bind.
fold run. clearbody run.
destruct (outcome run) as [e | []]; cbn; rewrite app_nil_r.
- split; [reflexivity|]. split; [reflexivity|]. split; [reflexivity|].
  intros td Htd. discriminate Htd.
-
  split; [reflexivity|]. split; [reflexivity|]. split; [reflexivity|].
  intros td Htd. injection Htd as <-. split; reflexivity.
Qed.

Lemma reads_collects {B X} (act : B -> X -> B) (proj : RasaYAMLReader -> B)
    per_key string document r td :
  (forall block key, folds act proj (_parse_key H block key) (per_key block key)) ->
  read_yaml H string = inr (YDict document) ->
  returned (reads H string r) = Some td ->
  td = collected (final (reads H string r)) /\
  proj (final (reads H string r))
  = fold_left act (per_document per_key document) (proj (cleared r)).
Proof.
intros Hk E Htd.
destruct (reads_of_document _ _ r E) as (_ & Hf & _ & Hret).
destruct (Hret td Htd) as [Hr ->]. rewrite Hf. split; [reflexivity|].
apply (folds_document act proj per_key Hk document _ Hr).
Qed.

Lemma per_document_at_key {X} (key0 : string)
    (f : list (Key * Yaml) -> list X) document :
  per_document
    (fun block key => if bool_decide (key = KStr key0) then f block else [])
    document
  = flat_map f (blocks_of key0 document).
Proof.
unfold per_document, blocks_of, at_key. rewrite flat_map_flat_map.
apply flat_map_ext_list. intros block. rewrite flat_map_flat_map.
apply flat_map_ext_list. intros key. case_bool_decide; [|reflexivity].
cbn [flat_map]. symmetry. apply app_nil_r.
Qed.

(** X12. The regex features [reads] returns are those of the regex blocks
    of the document, in document order: one for every line of the examples
    of a block whose name is true, whatever the reader held before. *)
Theorem reads_regex_features string document r td :
  read_yaml H string = inr (YDict document) ->
  returned (reads H string r) = Some td ->
  td_regex_features td
  = flat_map regex_features_of (blocks_of KEY_REGEX document).
Proof.
intros E Htd.
destruct (reads_collects append regex_features _ _ _ r td
            folds_regex__parse_key E Htd) as [-> Hp].
cbn [collected td_regex_features]. rewrite Hp, fold_left_append.
cbn [cleared regex_features app]. apply per_document_at_key.
Qed.

(** X13. The training examples [reads] returns are the messages of the
    intent blocks of the document, in document order: for an intent with a
    true name, one message for every line of its examples when they are a
    string, and one for the text of every true example when they are a
    list. *)
Theorem reads_training_examples string document r td :
  read_yaml H string = inr (YDict document) ->
  returned (reads H string r) = Some td ->
  td_training_examples td
  = flat_map (messages_of H) (blocks_of KEY_INTENT document).
Proof.
intros E Htd.
destruct (reads_collects append training_examples _ _ _ r td
            folds_messages__parse_key E Htd) as [-> Hp].
cbn [collected td_training_examples]. rewrite Hp, fold_left_append.
cbn [cleared training_examples app]. apply per_document_at_key.
Qed.

(** X14. The lookup tables [reads] returns are built from no table by
    [add_item_to_lookup_tables], called once for every line of the examples
    of every lookup block with a true name, in document order. *)
Theorem reads_lookup_tables string document r td :
  read_yaml H string = inr (YDict document) ->
  returned (reads H string r) = Some td ->
  td_lookup_tables td
  = fold_left
      (fun tables '(lookup_item_name, example) =>
         add_item_to_lookup_tables H lookup_item_name example tables)
      (flat_map (named_lines KEY_LOOKUP KEY_LOOKUP_EXAMPLES)
         (blocks_of KEY_LOOKUP document))
      [].
Proof.
intros E Htd.
destruct (reads_collects _ lookup_tables _ _ _ r td
            folds_lookup__parse_key E Htd) as [-> Hp].
cbn [collected td_lookup_tables]. rewrite Hp.
cbn [cleared lookup_tables]. f_equal. apply per_document_at_key.
Qed.

(** X15. The synonyms [reads] returns are built from no synonym by the two
    synonym helpers, called in document order: [add_synonyms_from_entities]
    for every example of an intent block, [add_synonym] for every line of
    the examples of a synonym block with a true name. *)
Theorem reads_entity_synonyms string document r td :
  read_yaml H string = inr (YDict document) ->
  returned (reads H string r) = Some td ->
  td_entity_synonyms td
  = fold_left (add_from H) (synonym_sources document) [].
Proof.
intros E Htd.
destruct (reads_collects (add_from H) entity_synonyms _ _ _ r td
            folds_synonyms__parse_key E Htd) as [-> Hp].
cbn [collected td_entity_synonyms]. rewrite Hp. reflexivity.
Qed.

(** *** Where the reader raises *)

Ltac total_cases :=
  repeat lazymatch goal with
    | |- total (if ?b then _ else _) => destruct b
    | |- total (match ?x with _ => _ end) => destruct x
    | |- total (let _ := _ in _) => cbv zeta
    | |- total (bind _ _) => apply total_bind; [| intros ? ]
    | |- total (for_each _ _) => apply total_for_each; intros ?
    | |- total (warn _) => apply total_warn
    | |- total (ret _) => apply total_ret
    | |- total (modify _) => apply total_modify
    | |- _ => fail
    end.

Lemma lookup_In key d :
  In (KStr key) (map fst d) -> exists v, lookup key d = Some v.
Proof.
induction d as [|[k v0] d IH]; cbn [map fst In lookup]; [intros []|].
case_bool_decide; [eauto|].
intros [Hk | Hd]; [contradiction | apply IH; exact Hd].
Qed.

Lemma total__parse_synonym block :
  In (KStr KEY_SYNONYM) (map fst block) -> total (_parse_synonym H block).
Proof.
intros Hin. apply lookup_In in Hin. destruct Hin as [v Hv].
unfold _parse_synonym. rewrite Hv. total_cases.
Qed.

Lemma total__parse_regex block :
  In (KStr KEY_REGEX) (map fst block) -> total (_parse_regex block).
Proof.
intros Hin. apply lookup_In in Hin. destruct Hin as [v Hv].
unfold _parse_regex. rewrite Hv. total_cases.
Qed.

Lemma total__parse_lookup block :
  In (KStr KEY_LOOKUP) (map fst block) -> total (_parse_lookup H block).
Proof.
intros Hin. apply lookup_In in Hin. destruct Hin as [v Hv].
unfold _parse_lookup. rewrite Hv. total_cases.
Qed.

(** An intent block raises what reading its examples raises. *)
Lemma raised__parse_intent block s :
  raised (_parse_intent H block s) =
  if truthy (get_default block KEY_INTENT (YStr ""))
  then
    match get_default block KEY_INTENT_EXAMPLES (YStr "") with
    | YList examples =>
        match example_texts examples with
        | inl e => Some e
        | inr _ => None
        end
    | _ => None
    end
  else None.
Proof.
unfold _parse_intent.
destruct (truthy (get_default block KEY_INTENT (YStr ""))); cbn [negb];
  [|reflexivity].
rewrite raised_bind_total by (intros results; total_cases).
unfold _parse_training_examples.
destruct (get_default block KEY_INTENT_EXAMPLES (YStr ""))
  as [| b | z | t | l | d]; try reflexivity.
destruct (example_texts l) as [e | texts]; reflexivity.
Qed.

Lemma _parse_intent_returns_iff block s :
  raised (_parse_intent H block s) = None <-> readable_examples block.
Proof.
rewrite raised__parse_intent. unfold readable_examples.
destruct (truthy (get_default block KEY_INTENT (YStr ""))).
2: { split; [intros _ Ht; discriminate Ht | reflexivity]. }
destruct (get_default block KEY_INTENT_EXAMPLES (YStr ""))
  as [| b | z | t | l | d];
  try (split; [intros _ _ examples Heq; discriminate Heq | reflexivity]).
split.
- intros Hr _ examples Heq. injection Heq as <-.
  apply example_texts_returns_iff.
  destruct (example_texts l) as [e | texts]; [discriminate Hr | eauto].
- intros Hok. specialize (Hok eq_refl l eq_refl).
  apply example_texts_returns_iff in Hok. destruct Hok as [texts ->].
  reflexivity.
Qed.

Lemma _parse_key_returns_iff block key s :
  In key (map fst block) ->
  raised (_parse_key H block key s) = None <->
  (key = KStr KEY_INTENT -> readable_examples block).
Proof.
intros Hin. unfold _parse_key.
case_bool_decide as Hi.
{ rewrite _parse_intent_returns_iff. tauto. }
assert (Hother : forall m : Method unit, total m ->
  raised (m s) = None <-> (key = KStr KEY_INTENT -> readable_examples block)).
{ intros m Hm. rewrite (raised_total m s Hm). tauto. }
repeat case_bool_decide; subst; apply Hother.
- apply total__parse_synonym, Hin.
- apply total__parse_regex, Hin.
- apply total__parse_lookup, Hin.
- apply total_warn.
Qed.

Lemma block_returns_iff block s :
  raised (for_each (map fst block) (_parse_key H block) s) = None <->
  accepted_item (YDict block).
Proof.
rewrite (raised_for_each_None
           (fun key => key = KStr KEY_INTENT -> readable_examples block)).
2: { intros key s' Hin. apply _parse_key_returns_iff, Hin. }
cbn [accepted_item]. rewrite List.Forall_forall. split.
- intros HF Hin. apply (HF _ Hin). reflexivity.
- intros Hok key Hin ->. apply Hok, Hin.
Qed.

Lemma _parse_nlu_returns_iff value s :
  raised (_parse_nlu H value s) = None <-> accepted_nlu value.
Proof.
unfold _parse_nlu, accepted_nlu. destruct (iterate value) as [e | items].
- split; [intros Hr; discriminate Hr | intros (l & Heq & _); discriminate Heq].
- rewrite bind_lift.
  rewrite (raised_for_each_None accepted_item).
  + split; [intros HF; exists items; split; [reflexivity | exact HF]|].
    intros (l & Heq & HF). injection Heq as ->. exact HF.
  + intros nlu_item s' _. destruct nlu_item;
      try (cbn [accepted_item]; rewrite (raised_total _ _ (total_warn _));
           tauto).
    apply block_returns_iff.
Qed.

Lemma document_returns_iff document s :
  raised (for_each document (parse_entry H) s) = None <->
  accepted_document document.
Proof.
apply raised_for_each_None. intros [key value] s' _. unfold parse_entry.
case_bool_decide.
- rewrite _parse_nlu_returns_iff. tauto.
- split; [intros _ Hk; contradiction | reflexivity].
Qed.

Lemma reads_not_a_mapping string content r :
  read_yaml H string = inr content -> is_dict content = false ->
  raised (reads H string r) = Some AttributeError.
Proof.
intros E Hd. unfold reads.
rewrite (bind_continues _initialize _ r [] tt (cleared r) eq_refl).
unfold raised. cbn [outcome]. rewrite E, bind_lift.
destruct content; try reflexivity. discriminate Hd.
Qed.

Lemma reads_unreadable string e r :
  read_yaml H string = inl e -> raised (reads H string r) = Some e.
Proof.
intros E. unfold reads.
rewrite (bind_continues _initialize _ r [] tt (cleared r) eq_refl).
unfold raised. cbn [outcome]. rewrite E. reflexivity.
Qed.

(** X16. [reads] returns exactly when the text is read as a mapping, the
    value under its [nlu] key can be looped over, and in every intent block
    with a true name and a list of examples the true examples are
    dictionaries. *)
Theorem reads_returns_iff string r :
  raised (reads H string r) = None <->
  exists document,
    read_yaml H string = inr (YDict document) /\ accepted_document document.
Proof.
destruct (read_yaml H string) as [e | content] eqn:E.
- rewrite (reads_unreadable _ _ _ E).
  split; [intros Hr; discriminate Hr | intros (d & Heq & _); discriminate Heq].
- destruct (is_dict content) eqn:Hd.
  + destruct content; try discriminate Hd.
    destruct (reads_of_document _ _ r E) as (_ & _ & -> & _).
    rewrite document_returns_iff. split.
    * intros Hok. eexists. split; [reflexivity | exact Hok].
    * intros (d & Heq & Hok). injection Heq as ->. exact Hok.
  + rewrite (reads_not_a_mapping _ _ _ E Hd). split; [intros Hr; discriminate Hr|].
    intros (d & Heq & _). injection Heq as ->. discriminate Hd.
Qed.

Lemma In_nlu_blocks document value nlu_items block :
  In (KStr KEY_NLU, value) document -> iterate value = inr nlu_items ->
  In (YDict block) nlu_items -> In block (nlu_blocks document).
Proof.
intros Hentry Hitems Hblock. unfold nlu_blocks, YamlReaderTerms.nlu_items.
apply in_flat_map. exists (YDict block). split; [|left; reflexivity].
apply in_flat_map. exists (KStr KEY_NLU, value). split; [exact Hentry|].
rewrite bool_decide_eq_true_2 by reflexivity. unfold items_of.
rewrite Hitems. exact Hblock.
Qed.

(** X17. What [reads] raises is what [read_yaml] raised, or
    - [AttributeError], the text being read as something else than a
      mapping, or
    - [TypeError], the value under the [nlu] key being no list, string or
      mapping, or
    - [AttributeError], a block with the key [intent], a true intent name
      and a list of examples holding a true example that is no dictionary.
    No subscript of the reader raises [KeyError]. *)
Theorem reads_raises_for_a_reason string r e :
  raised (reads H string r) = Some e ->
  read_yaml H string = inl e \/
  (e = AttributeError /\
   exists content, read_yaml H string = inr content /\ is_dict content = false) \/
  exists document,
    read_yaml H string = inr (YDict document) /\
    ((e = TypeError /\
      exists value, In (KStr KEY_NLU, value) document /\
                    iterate value = inl TypeError) \/
     (e = AttributeError /\
      exists block examples example,
        In block (nlu_blocks document) /\
        In (KStr KEY_INTENT) (map fst block) /\
        truthy (get_default block KEY_INTENT (YStr "")) = true /\
        get_default block KEY_INTENT_EXAMPLES (YStr "") = YList examples /\
        In example examples /\ truthy example = true /\
        is_dict example = false)).
Proof.
destruct (read_yaml H string) as [e0 | content] eqn:E.
{ rewrite (reads_unreadable _ _ _ E). intros Heq. injection Heq as ->.
  left. reflexivity. }
destruct (is_dict content) eqn:Hd.
2: { rewrite (reads_not_a_mapping _ _ _ E Hd). intros Heq. injection Heq as <-.
     right. left. split; [reflexivity|]. exists content. split; trivial. }
destruct content as [| | | | |document]; try discriminate Hd.
destruct (reads_of_document _ _ r E) as (_ & _ & -> & _).
intros Hr. right. right. exists document. split; [reflexivity|].
apply raised_for_each_Some in Hr.
destruct Hr as ([key value] & s1 & Hentry & Hr). unfold parse_entry in Hr.
case_bool_decide; [subst key | discriminate Hr].
unfold _parse_nlu in Hr.
destruct (iterate value) as [e1 | items] eqn:Ei.
{ injection Hr as <-. left.
  assert (e1 = TypeError) as ->.
  { destruct value; try discriminate Ei; injection Ei as <-; reflexivity. }
  split; [reflexivity|]. exists value. split; [exact Hentry | exact Ei]. }
rewrite bind_lift in Hr. apply raised_for_each_Some in Hr.
destruct Hr as (nlu_item & s2 & Hitem & Hr).
destruct nlu_item as [| | | | |block];
  try (rewrite (raised_total _ _ (total_warn _)) in Hr; discriminate Hr).
apply raised_for_each_Some in Hr. destruct Hr as (key & s3 & Hkey & Hr).
right.
assert (Hi : key = KStr KEY_INTENT).
{ destruct (decide (key = KStr KEY_INTENT)) as [Hi | Hi]; [exact Hi|].
  assert (Hnone : raised (_parse_key H block key s3) = None).
  { apply _parse_key_returns_iff; [exact Hkey|]. intros Heq. contradiction. }
  rewrite Hnone in Hr. discriminate Hr. }
subst key. unfold _parse_key in Hr.
rewrite bool_decide_eq_true_2 in Hr by reflexivity.
rewrite raised__parse_intent in Hr.
destruct (truthy (get_default block KEY_INTENT (YStr ""))) eqn:Et;
  [|discriminate Hr].
destruct (get_default block KEY_INTENT_EXAMPLES (YStr ""))
  as [| | | | examples |] eqn:Ex; try discriminate Hr.
destruct (example_texts examples) as [e2 | texts] eqn:Ee; [|discriminate Hr].
injection Hr as <-.
destruct (example_texts_raises _ _ Ee) as (-> & example & Hex & Htrue & Hnd).
split; [reflexivity|]. exists block, examples, example.
split; [exact (In_nlu_blocks _ _ _ _ Hentry Ei Hitem)|].
repeat match goal with |- _ /\ _ => split end; trivial.
Qed.

(** X18. On a mapping without the key [nlu], [reads] returns training data
    with nothing in it and emits no advisory; the reader is left with its
    collections empty. *)
Theorem reads_without_nlu_key string document r :
  read_yaml H string = inr (YDict document) ->
  Forall (fun entry => fst entry <> KStr KEY_NLU) document ->
  reads H string r = MkRun [] (inr empty_training_data) (cleared r).
Proof.
intros E Hkeys. rewrite (reads_on_document _ _ _ E). clear E.
assert (Hloop : forall s,
  for_each document (parse_entry H) s = MkRun [] (inr tt) s).
{ induction Hkeys as [|[key value] rest Hk _ IH]; intros s; [reflexivity|].
  cbn [for_each]. unfold parse_entry at 1. cbn [fst] in Hk.
  rewrite bool_decide_eq_false_2 by exact Hk. rewrite bind_ret. apply IH. }
rewrite (bind_continues _ _ _ _ _ _ (Hloop (cleared r))). reflexivity.
Qed.

(** *** The advisories about blocks and keys *)

Lemma emits_only_warn P message :
  (forall file, P (message file)) -> emits_only P (warn message).
Proof. intros Hp s. constructor; [apply Hp | constructor]. Qed.

Ltac emits_cases :=
  repeat lazymatch goal with
    | |- emits_only _ (if ?b then _ else _) => destruct b
    | |- emits_only _ (match ?x with _ => _ end) => destruct x
    | |- emits_only _ (let _ := _ in _) => cbv zeta
    | |- emits_only _ (bind _ _) => apply emits_only_bind; [| intros ? ]
    | |- emits_only _ (for_each _ _) => apply emits_only_for_each; intros ?
    | |- emits_only _ (warn _) =>
        apply emits_only_warn; intros ?; split; reflexivity
    | |- emits_only _ (ret _) => apply emits_only_ret
    | |- emits_only _ (raise _) => apply emits_only_raise
    | |- emits_only _ (lift _) => apply emits_only_lift
    | |- emits_only _ (modify _) => apply emits_only_modify
    | |- _ => fail
    end.

(** The four parsers say nothing about unexpected blocks or keys. *)

Lemma emits_only__parse_intent block :
  emits_only about_content (_parse_intent H block).
Proof. unfold _parse_intent, _parse_training_examples. emits_cases. Qed.

Lemma emits_only__parse_synonym block :
  emits_only about_content (_parse_synonym H block).
Proof. unfold _parse_synonym. emits_cases. Qed.

Lemma emits_only__parse_regex block :
  emits_only about_content (_parse_regex block).
Proof. unfold _parse_regex. emits_cases. Qed.

Lemma emits_only__parse_lookup block :
  emits_only about_content (_parse_lookup H block).
Proof. unfold _parse_lookup. emits_cases. Qed.

Lemma reports_parser {A} (p : Advisory -> bool) (m : Method A) :
  (forall w, about_content w -> p w = false) ->
  emits_only about_content m -> reports p filename m (fun _ => []).
Proof.
intros Hp Hm. apply reports_none.
apply (emits_only_impl about_content); [exact Hp | exact Hm].
Qed.

Lemma reports_keys__parse_key block key :
  reports is_UnexpectedKey filename (_parse_key H block key)
    (fun file => if is_block_key key then [] else [UnexpectedKey file key]).
Proof.
unfold _parse_key, is_block_key.
repeat case_bool_decide; cbn [orb];
  try solve [apply reports_parser; [intros w [_ Hw]; exact Hw|];
             auto using emits_only__parse_intent, emits_only__parse_synonym,
               emits_only__parse_regex, emits_only__parse_lookup].
intros s _. reflexivity.
Qed.

Lemma reports_blocks__parse_key block key :
  reports is_UnexpectedBlock filename (_parse_key H block key) (fun _ => []).
Proof.
unfold _parse_key.
repeat case_bool_decide;
  try solve [apply reports_parser; [intros w [Hw _]; exact Hw|];
             auto using emits_only__parse_intent, emits_only__parse_synonym,
               emits_only__parse_regex, emits_only__parse_lookup].
intros s _. reflexivity.
Qed.

Section Reported.
Variable p : Advisory -> bool.
Variable per_item : Yaml -> string -> list Advisory.
Hypothesis reports_item : forall nlu_item,
  reports p filename
    (match nlu_item with
     | YDict items => for_each (map fst items) (_parse_key H items)
     | _ => warn (fun file => UnexpectedBlock file nlu_item)
     end)
    (per_item nlu_item).

Lemma keeps_filename_item (nlu_item : Yaml) :
  keeps filename
    (match nlu_item with
     | YDict items => for_each (map fst items) (_parse_key H items)
     | _ => warn (fun file => UnexpectedBlock file nlu_item)
     end).
Proof. keeps_cases. apply keeps_filename__parse_key. Qed.

Lemma reports__parse_nlu value :
  reports p filename (_parse_nlu H value)
    (fun file => flat_map (fun nlu_item => per_item nlu_item file)
                   (items_of value)).
Proof.
unfold _parse_nlu, items_of. apply reports_bind_lift. intros items ->.
apply (reports_for_each p filename items _ per_item).
- apply keeps_filename_item.
- apply reports_item.
Qed.

Lemma reports_parse_entry entry :
  reports p filename (parse_entry H entry)
    (fun file => flat_map (fun nlu_item => per_item nlu_item file)
                   (nlu_items [entry])).
Proof.
destruct entry as [key value]. unfold parse_entry, nlu_items.
cbn [flat_map]. case_bool_decide.
- eapply reports_eq; [|apply reports__parse_nlu].
  intros file. cbv beta. rewrite app_nil_r. reflexivity.
- intros s _. reflexivity.
Qed.

Lemma reports_document document :
  reports p filename (for_each document (parse_entry H))
    (fun file => flat_map (fun nlu_item => per_item nlu_item file)
                   (nlu_items document)).
Proof.
induction document as [|entry document IH]; cbn [for_each].
- intros s _. reflexivity.
- eapply reports_eq;
    [|apply (reports_bind p filename _ _ _ _
               (keeps_filename_parse_entry entry)
               (reports_parse_entry entry) (fun _ => IH))].
  intros file. cbv beta. unfold nlu_items. cbn [flat_map].
  rewrite app_nil_r, List.flat_map_app. reflexivity.
Qed.

Lemma reads_reports string document r :
  read_yaml H string = inr (YDict document) ->
  raised (reads H string r) = None ->
  List.filter p (emitted (reads H string r))
  = flat_map (fun nlu_item => per_item nlu_item (filename r))
      (nlu_items document).
Proof.
intros E Hr.
destruct (reads_of_document _ _ r E) as (-> & _ & Heq & _).
rewrite Heq in Hr. apply (reports_document document _ Hr).
Qed.

End Reported.

(** X19. When [reads] returns, it has reported as unexpected block exactly
    the items under [nlu] that are no dictionaries, each once, in document
    order and with the file name of the reader. *)
Theorem reads_reports_the_unexpected_blocks string document r :
  read_yaml H string = inr (YDict document) ->
  raised (reads H string r) = None ->
  List.filter is_UnexpectedBlock (emitted (reads H string r))
  = map (UnexpectedBlock (filename r))
      (List.filter (fun nlu_item => negb (is_dict nlu_item))
         (nlu_items document)).
Proof.
intros E Hr. rewrite <- flat_map_unless.
apply (reads_reports is_UnexpectedBlock
         (fun nlu_item file =>
            if is_dict nlu_item then [] else [UnexpectedBlock file nlu_item]));
  [|exact E | exact Hr].
intros [| b | z | s | l | block]; try (intros s0 _; reflexivity).
cbn [is_dict].
eapply reports_eq;
  [|apply (reports_for_each is_UnexpectedBlock filename (map fst block) _
             (fun _ _ => []))].
- intros file. apply flat_map_nil.
- intros key. apply keeps_filename__parse_key.
- intros key. apply reports_blocks__parse_key.
Qed.

(** X20. When [reads] returns, it has reported as unexpected key exactly
    the keys of the blocks under [nlu] other than [intent], [synonym],
    [regex] and [lookup], each once, in document order. *)
Theorem reads_reports_the_unexpected_keys string document r :
  read_yaml H string = inr (YDict document) ->
  raised (reads H string r) = None ->
  List.filter is_UnexpectedKey (emitted (reads H string r))
  = map (UnexpectedKey (filename r))
      (List.filter (fun key => negb (is_block_key key))
         (flat_map (map fst) (nlu_blocks document))).
Proof.
intros E Hr.
transitivity
  (flat_map
     (fun nlu_item =>
        match nlu_item with
        | YDict block =>
            flat_map
              (fun key =>
                 if is_block_key key then []
                 else [UnexpectedKey (filename r) key])
              (map fst block)
        | _ => []
        end)
     (nlu_items document)).
- apply (reads_reports is_UnexpectedKey
           (fun nlu_item file =>
              match nlu_item with
              | YDict block =>
                  flat_map
                    (fun key =>
                       if is_block_key key then [] else [UnexpectedKey file key])
                    (map fst block)
              | _ => []
              end)); [|exact E | exact Hr].
  intros [| b | z | s | l | block]; try (intros s0 _; reflexivity).
  apply (reports_for_each is_UnexpectedKey filename (map fst block) _
           (fun key file =>
              if is_block_key key then [] else [UnexpectedKey file key])).
  + intros key. apply keeps_filename__parse_key.
  + intros key. apply reports_keys__parse_key.
- unfold nlu_blocks.
  rewrite flat_map_flat_map, filter_flat_map, map_flat_map.
  apply flat_map_ext_list. intros [| b | z | s | l | block]; try reflexivity.
  cbn [flat_map]. rewrite app_nil_r. apply flat_map_unless.
Qed.

(** *** A synonym block without a name, within a document *)

(** C9, as amended. Let a synonym block have an empty name and no intent,
    regex or lookup key.  Parsing it emits the empty-name advisory, does not
    raise and leaves the reader as it was.  [reads] ends on a document with
    the block as it does on the document without it, with the same training
    data or the same exception; and when it returns, its advisories are
    those of the run without the block with the advisories of the block put
    in, the empty-name advisory with the reader's file name among them. *)
Theorem reads_skips_synonym_block_without_name
    string1 string2 top1 top2 pre post block synonym_name r :
  read_yaml H string1
  = inr (YDict (top1 ++
                (KStr KEY_NLU, YList (pre ++ YDict block :: post)) :: top2)) ->
  read_yaml H string2
  = inr (YDict (top1 ++ (KStr KEY_NLU, YList (pre ++ post)) :: top2)) ->
  lookup KEY_SYNONYM block = Some synonym_name ->
  truthy synonym_name = false ->
  Forall (fun key => key ∉ other_block_keys) (map fst block) ->
  (forall self, exists advisories,
      _parse_nlu H (YList [YDict block]) self = MkRun advisories (inr tt) self /\
      In (EmptySynonymName (filename self)) advisories) /\
  outcome (reads H string1 r) = outcome (reads H string2 r) /\
  final (reads H string1 r) = final (reads H string2 r) /\
  (raised (reads H string1 r) = None ->
   exists before advisories after,
     emitted (reads H string1 r) = before ++ advisories ++ after /\
     emitted (reads H string2 r) = before ++ after /\
     In (EmptySynonymName (filename r)) advisories).
Proof.
intros Hread1 Hread2 Hname Hempty Hkeys.
pose proof (total_block H block synonym_name Hname Hempty Hkeys) as Ht.
pose proof (read_only_block H block synonym_name Hname Hempty Hkeys) as Hro.
assert (Hagree : agree eq (reads H string1) (reads H string2)).
{ unfold reads. rewrite Hread1, Hread2.
  apply agree_bind; [apply agree_refl|]. intros _.
  apply agree_bind_lift.
  apply agree_bind; [|intros _; apply agree_refl].
  apply (agree_for_each_replace top1 top2
           (KStr KEY_NLU, YList (pre ++ YDict block :: post))
           (KStr KEY_NLU, YList (pre ++ post))).
  rewrite bool_decide_eq_true_2 by reflexivity.
  apply (agree__parse_nlu_skip H _ _ _ _ Hname Hempty Hkeys). }
split; [|split; [apply Hagree; reflexivity|split; [apply Hagree; reflexivity|]]].
- intros self.
  exists (emitted (for_each (map fst block) (_parse_key H block) self)).
  split; [|apply (emitted_block H block synonym_name Hname Hempty Hkeys)].
  unfold _parse_nlu. cbn [iterate]. rewrite bind_lift. cbn [for_each].
  rewrite (run_eta (bind _ _ self)).
  rewrite emitted_bind_check, outcome_bind_check, final_bind by assumption.
  rewrite (total_unit _ self Ht), Hro. cbn. rewrite app_nil_r. reflexivity.
- destruct (reads_of_document _ _ r Hread1) as (-> & _ & -> & _).
  destruct (reads_of_document _ _ r Hread2) as (-> & _ & _ & _).
  intros Hr. apply raised_for_each_app in Hr. destruct Hr as [Htop Hr].
  set (s1 := final (for_each top1 (parse_entry H) (cleared r))) in *.
  assert (Hs1 : filename s1 = filename r).
  { unfold s1. rewrite (keeps_for_each filename top1 (parse_entry H)
                          keeps_filename_parse_entry). reflexivity. }
  cbn [for_each] in Hr. rewrite raised_bind in Hr.
  assert (Hentry :
    raised (parse_entry H (KStr KEY_NLU, YList (pre ++ YDict block :: post)) s1)
    = None).
  { unfold raised at 1.
    destruct (outcome (parse_entry H _ s1)); [discriminate Hr | reflexivity]. }
  clear Hr. unfold parse_entry in Hentry.
  rewrite bool_decide_eq_true_2 in Hentry by reflexivity.
  unfold _parse_nlu in Hentry. cbn [iterate] in Hentry.
  rewrite bind_lift in Hentry.
  apply raised_for_each_app in Hentry. destruct Hentry as [Hpre _].
  match type of Hpre with
  | raised (for_each pre ?b s1) = None => set (item := b) in *
  end.
  set (s2 := final (for_each pre item s1)).
  assert (Hs2 : filename s2 = filename r).
  { unfold s2. rewrite (keeps_for_each filename pre item); [exact Hs1|].
    intros nlu_item. apply (keeps_filename_item nlu_item). }
  destruct (emitted_for_each_skip pre post (YDict block) item s1 Ht Hro Hpre)
    as [Hwith Hwithout].
  fold s2 in Hwith, Hwithout.
  assert (Hnlu : agree eq
    (parse_entry H (KStr KEY_NLU, YList (pre ++ YDict block :: post)))
    (parse_entry H (KStr KEY_NLU, YList (pre ++ post)))).
  { unfold parse_entry. rewrite bool_decide_eq_true_2 by reflexivity.
    apply (agree__parse_nlu_skip H _ _ _ _ Hname Hempty Hkeys). }
  destruct (Hnlu s1 s1 eq_refl) as [Ho Hf].
  destruct (emitted_for_each_replace top1 top2
              (KStr KEY_NLU, YList (pre ++ YDict block :: post))
              (KStr KEY_NLU, YList (pre ++ post))
              (parse_entry H) (cleared r)
              (emitted (for_each pre item s1))
              (emitted (item (YDict block) s2))
              (emitted (for_each post item s2))
              Htop Ho Hf)
    as (after & E1 & E2).
  + fold s1. unfold parse_entry. rewrite bool_decide_eq_true_2 by reflexivity.
    unfold _parse_nlu. cbn [iterate]. rewrite bind_lift. exact Hwith.
  + fold s1. unfold parse_entry. rewrite bool_decide_eq_true_2 by reflexivity.
    unfold _parse_nlu. cbn [iterate]. rewrite bind_lift. exact Hwithout.
  + eexists _, _, after. split; [exact E1|]. split; [exact E2|].
    rewrite <- Hs2.
    apply (emitted_block H block synonym_name Hname Hempty Hkeys).
Qed.

End More.

(** *** The further properties at sample inputs *)

Import ReaderSamples ReaderDocuments.

(** Against C9 as stated: a synonym block with an empty name that carries an
    intent as well.  The key loop of [_parse_nlu] hands the block to
    [_parse_intent] too, which reads its example: the training data is not
    that of the file without the block. *)
Lemma reads_parses_the_intent_of_a_nameless_synonym_block :
  read_yaml nameless_helpers nameless_yaml
  = inr (YDict [(KStr "nlu", YList ([] ++ YDict nameless_block :: []))]) /\
  read_yaml nameless_helpers blockless_yaml
  = inr (YDict [(KStr "nlu", YList ([] ++ []))]) /\
  lookup KEY_SYNONYM nameless_block = Some (YStr "") /\
  truthy (YStr "") = false /\
  In (EmptySynonymName "data/nlu.yml")
    (emitted (reads nameless_helpers nameless_yaml fresh_reader)) /\
  returned (reads nameless_helpers nameless_yaml fresh_reader)
  = Some {| td_training_examples :=
              [Message_build (YStr "hello") (YStr "greet")];
            td_entity_synonyms := [];
            td_regex_features := [];
            td_lookup_tables := [] |} /\
  returned (reads nameless_helpers blockless_yaml fresh_reader)
  = Some empty_training_data /\
  returned (reads nameless_helpers nameless_yaml fresh_reader)
  <> returned (reads nameless_helpers blockless_yaml fresh_reader).
Proof.
repeat match goal with |- _ /\ _ => split end;
  try (vm_compute; reflexivity).
- vm_compute. tauto.
- vm_compute. intros Heq. discriminate Heq.
Qed.

(** C9, as amended, on a file whose first block is a synonym without a
    name. *)
Lemma reads_skips_synonym_block_without_name_witness :
  (forall self, exists advisories,
      _parse_nlu plain_helpers (YList [YDict empty_synonym_block]) self
      = MkRun advisories (inr tt) self /\
      In (EmptySynonymName (filename self)) advisories) /\
  outcome (reads plain_helpers synonym_yaml used_reader)
  = outcome (reads plain_helpers regex_yaml used_reader) /\
  final (reads plain_helpers synonym_yaml used_reader)
  = final (reads plain_helpers regex_yaml used_reader) /\
  exists before advisories after,
    emitted (reads plain_helpers synonym_yaml used_reader)
    = before ++ advisories ++ after /\
    emitted (reads plain_helpers regex_yaml used_reader) = before ++ after /\
    In (EmptySynonymName "data/old.yml") advisories.
Proof.
destruct (reads_skips_synonym_block_without_name plain_helpers
            synonym_yaml regex_yaml [] [] [] [zip_block]
            empty_synonym_block (YStr "") used_reader)
  as (Hblock & Houtcome & Hfinal & Hadvisories).
- reflexivity.
- reflexivity.
- reflexivity.
- reflexivity.
- repeat constructor; intros Hin;
    repeat (apply elem_of_cons in Hin; destruct Hin as [Hin | Hin];
            [discriminate|]);
    apply elem_of_nil in Hin; exact Hin.
- split; [exact Hblock|]. split; [exact Houtcome|]. split; [exact Hfinal|].
  apply Hadvisories. vm_compute. reflexivity.
Defined.

Example reads_mixed_yaml :
  read_yaml document_helpers mixed_yaml = inr (YDict mixed_entries) /\
  reads document_helpers mixed_yaml used_reader
  = MkRun
      [UnexpectedKey "data/old.yml" (KStr "examples");
       UnexpectedKey "data/old.yml" (KStr "examples");
       UnexpectedKey "data/old.yml" (KStr "examples");
       UnexpectedKey "data/old.yml" (KStr "examples");
       UnexpectedBlock "data/old.yml" (YStr "just text");
       UnexpectedKey "data/old.yml" (KStr "colour")]
      (inr mixed_data)
      {| filename := "data/old.yml";
         training_examples := td_training_examples mixed_data;
         entity_synonyms := td_entity_synonyms mixed_data;
         regex_features := td_regex_features mixed_data;
         lookup_tables := td_lookup_tables mixed_data |}.
Proof. split; vm_compute; reflexivity. Qed.

(** X17 on an intent whose examples are a list of strings. *)
Lemma reads_raises_for_a_reason_witness :
  raised (reads document_helpers listed_yaml fresh_reader)
  = Some AttributeError /\
  exists block examples example,
    In block (nlu_blocks listed_entries) /\
    get_default block KEY_INTENT_EXAMPLES (YStr "") = YList examples /\
    In example examples /\ truthy example = true /\ is_dict example = false.
Proof.
assert (Hr : raised (reads document_helpers listed_yaml fresh_reader)
             = Some AttributeError) by (vm_compute; reflexivity).
split; [exact Hr|].
destruct (reads_raises_for_a_reason document_helpers listed_yaml fresh_reader
            AttributeError Hr)
  as [E | [(_ & content & E & Hd) | (document & E & Hwhy)]].
- discriminate E.
- injection E as <-. discriminate Hd.
- injection E as <-. destruct Hwhy as [[He _] | (_ & block & examples & example & Hb & _ & _ & Hx & Hin & Ht & Hd)].
  + discriminate He.
  + exists block, examples, example. tauto.
Defined.

(** X18 on a file of stories, read by a reader that was used before. *)
Lemma reads_without_nlu_key_witness :
  read_yaml document_helpers stories_yaml = inr (YDict stories_entries) /\
  reads document_helpers stories_yaml used_reader
  = MkRun [] (inr empty_training_data) (cleared used_reader).
Proof.
assert (E : read_yaml document_helpers stories_yaml
            = inr (YDict stories_entries)) by reflexivity.
split; [exact E|].
apply (reads_without_nlu_key document_helpers stories_yaml stories_entries
         used_reader E).
repeat constructor; cbn [fst]; intros Hk; discriminate Hk.
Defined.

(** X19 on the file with one item that is no block. *)
Lemma reads_reports_the_unexpected_blocks_witness :
  List.filter is_UnexpectedBlock
    (emitted (reads document_helpers mixed_yaml used_reader))
  = map (UnexpectedBlock "data/old.yml")
      (List.filter (fun nlu_item => negb (is_dict nlu_item))
         (nlu_items mixed_entries)) /\
  List.filter (fun nlu_item => negb (is_dict nlu_item)) (nlu_items mixed_entries)
  = [YStr "just text"].
Proof.
split; [|reflexivity].
apply (reads_reports_the_unexpected_blocks document_helpers mixed_yaml
         mixed_entries used_reader).
- reflexivity.
- vm_compute. reflexivity.
Defined.

(** X12 on the file with one regex block. *)
Lemma reads_regex_features_witness :
  returned (reads document_helpers mixed_yaml used_reader) = Some mixed_data /\
  td_regex_features mixed_data
  = flat_map regex_features_of (blocks_of KEY_REGEX mixed_entries).
Proof.
assert (Htd : returned (reads document_helpers mixed_yaml used_reader)
              = Some mixed_data) by (vm_compute; reflexivity).
split; [exact Htd|].
apply (reads_regex_features document_helpers mixed_yaml mixed_entries
         used_reader mixed_data); [reflexivity | exact Htd].
Defined.

(** X13 on the file with one intent block of two examples. *)
Lemma reads_training_examples_witness :
  returned (reads document_helpers mixed_yaml used_reader) = Some mixed_data /\
  td_training_examples mixed_data
  = flat_map (messages_of document_helpers)
      (blocks_of KEY_INTENT mixed_entries).
Proof.
assert (Htd : returned (reads document_helpers mixed_yaml used_reader)
              = Some mixed_data) by (vm_compute; reflexivity).
split; [exact Htd|].
apply (reads_training_examples document_helpers mixed_yaml mixed_entries
         used_reader mixed_data); [reflexivity | exact Htd].
Defined.

(** X14 on the file with one lookup block of two lines. *)
Lemma reads_lookup_tables_witness :
  returned (reads document_helpers mixed_yaml used_reader) = Some mixed_data /\
  td_lookup_tables mixed_data
  = fold_left
      (fun tables '(lookup_item_name, example) =>
         add_item_to_lookup_tables document_helpers lookup_item_name example
           tables)
      [(YStr "city", "Berlin"); (YStr "city", "Rome")]
      [].
Proof.
assert (Htd : returned (reads document_helpers mixed_yaml used_reader)
              = Some mixed_data) by (vm_compute; reflexivity).
split; [exact Htd|].
apply (reads_lookup_tables document_helpers mixed_yaml mixed_entries
         used_reader mixed_data); [reflexivity | exact Htd].
Defined.

(** X15 on the file with an intent block and a synonym block. *)
Lemma reads_entity_synonyms_witness :
  returned (reads document_helpers mixed_yaml used_reader) = Some mixed_data /\
  synonym_sources mixed_entries
  = [FromExample (YStr "hello"); FromExample (YStr "hi");
     FromSynonymBlock "New York City" (YStr "NYC")] /\
  td_entity_synonyms mixed_data
  = fold_left (add_from document_helpers) (synonym_sources mixed_entries) [].
Proof.
assert (Htd : returned (reads document_helpers mixed_yaml used_reader)
              = Some mixed_data) by (vm_compute; reflexivity).
split; [exact Htd|]. split; [vm_compute; reflexivity|].
apply (reads_entity_synonyms document_helpers mixed_yaml mixed_entries
         used_reader mixed_data); [reflexivity | exact Htd].
Defined.

(** X20 on the file with one block under a key the reader does not know. *)
Lemma reads_reports_the_unexpected_keys_witness :
  List.filter is_UnexpectedKey
    (emitted (reads document_helpers mixed_yaml used_reader))
  = map (UnexpectedKey "data/old.yml")
      (List.filter (fun key => negb (is_block_key key))
         (flat_map (map fst) (nlu_blocks mixed_entries))) /\
  List.filter (fun key => negb (is_block_key key))
    (flat_map (map fst) (nlu_blocks mixed_entries))
  = [KStr "examples"; KStr "examples"; KStr "examples"; KStr "examples";
     KStr "colour"].
Proof.
split; [|vm_compute; reflexivity].
apply (reads_reports_the_unexpected_keys document_helpers mixed_yaml
         mixed_entries used_reader).
- reflexivity.
- vm_compute. reflexivity.
Defined.

End YamlReaderMore.

(* ================================================================= *)
(** * Properties of [is_yaml_nlu_file] *)

Module YamlFileFacts.
Import YamlReader YamlFile.

(** *** The last segment of a file name *)

Lemma has_dot_cons c s :
  is_substring "." (String c s) = Ascii.eqb c DOT || is_substring "." s.
Proof.
cbn [is_substring String.prefix]. f_equal.
match goal with
| |- context [Ascii.ascii_dec ?a c] =>
    destruct (Ascii.ascii_dec a c) as [<- | Hne]
end.
- destruct s; reflexivity.
- symmetry. apply Ascii.eqb_neq. intros ->. apply Hne. reflexivity.
Qed.

Lemma split_from_without_dot s segment :
  is_substring "." s = false ->
  split_from DOT s segment = [(segment ++ s)%string].
Proof.
revert segment. induction s as [|c s IH]; intros segment.
- intros _. cbn [split_from]. rewrite ValidatorMore.string_app_empty_r.
  reflexivity.
- rewrite has_dot_cons. intros Hd. apply orb_false_iff in Hd.
  destruct Hd as [Hc Hs]. cbn [split_from]. rewrite Hc, (IH _ Hs).
  rewrite ValidatorMore.string_app_assoc. reflexivity.
Qed.

Lemma split_from_not_nil s segment : split_from DOT s segment <> [].
Proof.
revert segment. induction s as [|c s IH]; intros segment; cbn [split_from].
- discriminate.
- destruct (Ascii.eqb c DOT); [discriminate | apply IH].
Qed.

Lemma last_cons_split_from x s segment :
  List.last (x :: split_from DOT s segment) ""
  = List.last (split_from DOT s segment) "".
Proof.
pose proof (split_from_not_nil s segment) as Hne.
destruct (split_from DOT s segment); [contradiction | reflexivity].
Qed.

Lemma last_split_from_with_dot s segment :
  is_substring "." s = true ->
  is_substring "." (List.last (split_from DOT s segment) "") = false /\
  exists stem,
    s = (stem ++ "." ++ List.last (split_from DOT s segment) "")%string.
Proof.
revert segment. induction s as [|c s IH]; intros segment.
- intros Hd. discriminate Hd.
- rewrite has_dot_cons. cbn [split_from].
  destruct (Ascii.eqb c DOT) eqn:Ec.
  + intros _. apply Ascii.eqb_eq in Ec. subst c.
    rewrite last_cons_split_from.
    destruct (is_substring "." s) eqn:Hs.
    * destruct (IH "" eq_refl) as [Hno [stem Hstem]]. split; [exact Hno|].
      exists (String DOT stem). rewrite Hstem at 1. reflexivity.
    * rewrite (split_from_without_dot _ _ Hs). cbn [List.last].
      change ("" ++ s)%string with s. split; [exact Hs|].
      exists "". reflexivity.
  + cbn [orb]. intros Hs.
    destruct (IH (segment ++ String c "")%string Hs) as [Hno [stem Hstem]].
    split; [exact Hno|]. exists (String c stem). rewrite Hstem at 1.
    reflexivity.
Qed.

Lemma last_split_from_stem stem ext segment :
  is_substring "." ext = false ->
  List.last (split_from DOT (stem ++ "." ++ ext) segment) "" = ext.
Proof.
intros Hext. revert segment. induction stem as [|c stem IH]; intros segment.
- change ("" ++ "." ++ ext)%string with (String DOT ext).
  cbn [split_from]. rewrite Ascii.eqb_refl, last_cons_split_from.
  rewrite (split_from_without_dot _ _ Hext). reflexivity.
- change (String c stem ++ "." ++ ext)%string
    with (String c (stem ++ "." ++ ext)).
  cbn [split_from]. destruct (Ascii.eqb c DOT).
  + rewrite last_cons_split_from. apply IH.
  + apply IH.
Qed.

(** [filename.split(".")[-1]] is the extension of the file name. *)
Lemma last_split_iff filename ext :
  List.last (split DOT filename) "" = ext <-> has_extension filename ext.
Proof.
unfold split, has_extension. split.
- intros <-. destruct (is_substring "." filename) eqn:Hd.
  + destruct (last_split_from_with_dot filename "" Hd) as [Hno [stem Hstem]].
    split; [exact Hno|]. right. exists stem. exact Hstem.
  + rewrite (split_from_without_dot _ _ Hd). cbn [List.last].
    change ("" ++ filename)%string with filename.
    split; [exact Hd | left; reflexivity].
- intros [Hext [-> | [stem ->]]].
  + rewrite (split_from_without_dot _ _ Hext). reflexivity.
  + apply last_split_from_stem, Hext.
Qed.

Section Facts.
Variable YAML_FILE_EXTENSIONS : list string.
Variable read_yaml_file : string -> Exception + Yaml.

Abbreviation is_yaml_nlu_file :=
  (is_yaml_nlu_file YAML_FILE_EXTENSIONS read_yaml_file).

Lemma extension_listed_iff filename :
  List.last (split DOT filename) "" ∈ YAML_FILE_EXTENSIONS <->
  exists ext, ext ∈ YAML_FILE_EXTENSIONS /\ has_extension filename ext.
Proof.
split.
- intros Hin. eexists. split; [exact Hin|]. apply last_split_iff. reflexivity.
- intros (ext & Hin & Hext). apply last_split_iff in Hext. rewrite Hext.
  exact Hin.
Qed.

(** X21. [is_yaml_nlu_file] answers [True] exactly when the part of the file
    name after its last dot (the whole name, if it has no dot) is one of
    [YAML_FILE_EXTENSIONS], the file is read without an exception, and
    ["nlu" in content] holds of what was read. *)
Theorem is_yaml_nlu_file_true_iff filename :
  snd (is_yaml_nlu_file filename) = true <->
  exists ext content,
    ext ∈ YAML_FILE_EXTENSIONS /\ has_extension filename ext /\
    read_yaml_file filename = inr content /\
    contains KEY_NLU content = inr true.
Proof.
unfold YamlFile.is_yaml_nlu_file. case_bool_decide as Hext; cbn [negb].
- apply extension_listed_iff in Hext. destruct Hext as (ext & Hin & Hext).
  destruct (read_yaml_file filename) as [e | content].
  { split; [intros Ht; discriminate Ht|].
    intros (? & ? & _ & _ & Heq & _). discriminate Heq. }
  destruct (contains KEY_NLU content) as [e | [|]] eqn:Ec; cbn [snd].
  + split; [intros Ht; discriminate Ht|].
    intros (? & ? & _ & _ & Heq & Hc). injection Heq as <-.
    rewrite Ec in Hc. discriminate Hc.
  + split; [|reflexivity]. intros _. exists ext, content. tauto.
  + split; [intros Ht; discriminate Ht|].
    intros (? & ? & _ & _ & Heq & Hc). injection Heq as <-.
    rewrite Ec in Hc. discriminate Hc.
- split; [intros Ht; discriminate Ht|].
  intros (ext & ? & Hin & Hhas & _). destruct Hext.
  apply extension_listed_iff. exists ext. tauto.
Qed.

(** X22. Where every entry of [YAML_FILE_EXTENSIONS] holds a dot, no file
    name passes the extension test: [is_yaml_nlu_file] answers [False] and
    does not read the file. *)
Theorem is_yaml_nlu_file_with_dotted_extensions filename :
  Forall (fun ext => is_substring "." ext = true) YAML_FILE_EXTENSIONS ->
  is_yaml_nlu_file filename = ([], false).
Proof.
intros Hdots. unfold YamlFile.is_yaml_nlu_file.
case_bool_decide as Hext; [|reflexivity].
apply extension_listed_iff in Hext. destruct Hext as (ext & Hin & [Hno _]).
rewrite List.Forall_forall in Hdots. apply list_elem_of_In in Hin.
rewrite (Hdots _ Hin) in Hno. discriminate Hno.
Qed.

(** X23. [is_yaml_nlu_file] logs an error exactly when the extension test
    passed and either reading the file raised, or what was read is [None],
    a boolean or a number, which ["nlu" in content] raises [TypeError] on.
    It logs at most that one error, and then answers [False]. *)
Theorem is_yaml_nlu_file_logs_iff filename record :
  In record (fst (is_yaml_nlu_file filename)) <->
  exists e,
    record = FailedToRead filename e /\
    is_yaml_nlu_file filename = ([record], false) /\
    (exists ext, ext ∈ YAML_FILE_EXTENSIONS /\ has_extension filename ext) /\
    (read_yaml_file filename = inl e \/
     e = TypeError /\
     exists content,
       read_yaml_file filename = inr content /\
       match content with
       | YNull | YBool _ | YInt _ => True
       | _ => False
       end).
Proof.
unfold YamlFile.is_yaml_nlu_file. case_bool_decide as Hext; cbn [negb].
2: { split; [intros []|]. intros (e & _ & Heq & _). discriminate Heq. }
apply extension_listed_iff in Hext.
destruct (read_yaml_file filename) as [e | content].
{ cbn [fst In]. split.
  - intros [<- | []]. exists e. split; [reflexivity|].
    split; [reflexivity|]. split; [exact Hext|]. left. reflexivity.
  - intros (e' & -> & Heq & _). left. injection Heq as <-. reflexivity. }
destruct content as [| b | z | s | l | d]; cbn [contains fst In];
  try (split; [intros [<- | []] | intros (e' & -> & Heq & _)];
       [exists TypeError; split; [reflexivity|]; split; [reflexivity|];
        split; [exact Hext|]; right; split; [reflexivity|];
        eexists; split; [reflexivity | exact I]
       | left; injection Heq as <-; reflexivity]).
all: match goal with
     | |- context [match ?b with true => _ | false => _ end] => destruct b
     end;
  (split; [intros [] | intros (e' & _ & Heq & _); discriminate Heq]).
Qed.

End Facts.

(** *** At sample inputs *)

(** X22 on the extensions written with their dot. *)
Lemma is_yaml_nlu_file_with_dotted_extensions_witness :
  is_yaml_nlu_file [".yml"; ".yaml"]
    (fun _ => inr (YDict [(KStr "nlu", YList [])])) "data/nlu.yml"
  = ([], false).
Proof.
apply (is_yaml_nlu_file_with_dotted_extensions [".yml"; ".yaml"]).
repeat constructor.
Defined.

(** The same file with the extensions written without their dot. *)
Example is_yaml_nlu_file_data_nlu :
  is_yaml_nlu_file ["yml"; "yaml"]
    (fun _ => inr (YDict [(KStr "nlu", YList [])])) "data/nlu.yml"
  = ([], true).
Proof. vm_compute. reflexivity. Qed.

End YamlFileFacts.
